(** * Release lifecycle of Proj2026: deploy.sh, rollback.sh and the health route

    The repository ships two shell scripts that drive a release tree on a
    remote host over ssh: the deployment script (the second script in
    setup-cicd.sh, after the CI/CD setup script) and rollback.sh; and an
    Express router, routes/health.js, answering GET /health.  This development
    embeds the scripts as programs of a small state-and-exit monad over a model
    of the remote tree, embeds the route handlers as pure functions, and proves
    the properties the specification states about them; the CI/CD setup
    script is embedded in the same way over the project directory.

    Conventions of the embedding.
    - A directory is a finite map from entry names to modification times.
    - Every external command is recorded on a timeline together with the
      remote tree it met; its exit status comes from an oracle, and a
      command that reports failure is taken to have changed nothing.
    - A local simple command runs under [set -e] (wrapper [sh]); commands of
      a remote script, of an [if] condition or of a [||] list do not.
    - The ssh channel itself is taken to be up, and ids, timestamps and paths
      are single shell words, so that the unquoted expansions of the scripts
      denote one argument each.
    - A prompt reads the standard input as the [read] builtin of bash does:
      blanks around the line and backslashes are not part of the answer.
    - Log lines are kept without colour escapes and glyphs, and the Slack
      payload is kept as its text field. *)

From stdpp Require Import gmap strings list fin_maps pretty sorting.
From Stdlib Require Import QArith.QArith_base QArith.Qround Lqa.

Local Open Scope nat_scope.
Set Warnings "-register-all,-clear-no-such-hyp,-unused-intro-pattern".

(* ===================================================================== *)
(** * The remote tree                                                     *)
(* ===================================================================== *)

Abbreviation dir := (gmap string nat).

(** The tree below ${REMOTE_PATH}:
<<
   <root>/current -> ...            (symlink)
   <root>/releases/<timestamp>/
   <root>/backup_<timestamp>/  <root>/rollback_backup_<timestamp>/
>> *)
Record remote := Remote {
  releases : dir;            (* entries of <root>/releases, with their mtime *)
  toplevel : dir;            (* directories directly under <root>, releases apart *)
  current  : option string   (* text of the symlink <root>/current, if present *)
}.

Inductive loc :=
| Current
| InReleases (id : string)
| AtRoot (name : string).

Fixpoint strip_prefix (p s : string) : option string :=
  match p with
  | EmptyString => Some s
  | String a p' =>
      match s with
      | EmptyString => None
      | String b s' => if Ascii.eqb a b then strip_prefix p' s' else None
      end
  end.

(** Where an absolute path lands in the tree under [root].  The path is read
    as it is written: an id is taken to be the name of an entry, so that a
    [..], a [.] or a slash inside an id is not followed. *)
Definition locate (root p : string) : option loc :=
  match strip_prefix (root +:+ "/") p with
  | None => None
  | Some rest =>
      if String.eqb rest "current" then Some Current
      else match strip_prefix "releases/" rest with
           | Some id => Some (InReleases id)
           | None => Some (AtRoot rest)
           end
  end.

Definition has (d : dir) (n : string) : bool :=
  match d !! n with Some _ => true | None => false end.

Definition is_real_dir (root : string) (r : remote) (p : string) : bool :=
  match locate root p with
  | Some (InReleases id) => has (releases r) id
  | Some (AtRoot n) => has (toplevel r) n
  | _ => false
  end.

(** [[ -d p ]]: follows the symlink [current]. *)
Definition test_d (root : string) (r : remote) (p : string) : bool :=
  match locate root p with
  | Some Current =>
      match current r with
      | Some t => is_real_dir root r t
      | None => false
      end
  | _ => is_real_dir root r p
  end.

(** [[ -L p ]]: only [current] is ever a symlink. *)
Definition test_L (root : string) (r : remote) (p : string) : bool :=
  match locate root p with
  | Some Current => match current r with Some _ => true | None => false end
  | _ => false
  end.

(** [mkdir -p p]: creates the directory unless it is there. *)
Definition mkdir_p (root p : string) (now : nat) (r : remote) : remote :=
  match locate root p with
  | Some (InReleases id) =>
      if has (releases r) id then r
      else Remote (<[id := now]> (releases r)) (toplevel r) (current r)
  | Some (AtRoot n) =>
      if has (toplevel r) n then r
      else Remote (releases r) (<[n := now]> (toplevel r)) (current r)
  | _ => r
  end.

(** Files written directly into directory [p] (scp, npm ci): an existing
    directory gets a new modification time. *)
Definition write_into (root p : string) (now : nat) (r : remote) : remote :=
  match locate root p with
  | Some (InReleases id) =>
      if has (releases r) id
      then Remote (<[id := now]> (releases r)) (toplevel r) (current r)
      else r
  | Some (AtRoot n) =>
      if has (toplevel r) n
      then Remote (releases r) (<[n := now]> (toplevel r)) (current r)
      else r
  | _ => r
  end.

(** [cp -r src dst]: [dst] comes to exist, stamped with the time of the copy.
    The copy is kept as an entry of its own: that [cp -r] of the symlink
    [current] makes a symlink to the same release, listed under its own time
    and a directory to [[ -d ]] as long as that release is there, is not
    told apart from a copy of the directory. *)
Definition cp_r (root dst : string) (now : nat) (r : remote) : remote :=
  match locate root dst with
  | Some (InReleases id) => Remote (<[id := now]> (releases r)) (toplevel r) (current r)
  | Some (AtRoot n) => Remote (releases r) (<[n := now]> (toplevel r)) (current r)
  | _ => r
  end.

(** [ln -sfn target <root>/current]. *)
Definition ln_sfn (target : string) (r : remote) : remote :=
  Remote (releases r) (toplevel r) (Some target).

(** [rm -rf names], run inside a directory. *)
Definition rm_rf (names : list string) (d : dir) : dir :=
  foldr delete d names.

(** ** [ls -t]: newest first *)

Fixpoint insert_newest (e : string * nat) (l : list (string * nat)) : list (string * nat) :=
  match l with
  | [] => [e]
  | x :: l' => if x.2 <=? e.2 then e :: l else x :: insert_newest e l'
  end.

Definition sort_newest (l : list (string * nat)) : list (string * nat) :=
  foldr insert_newest [] l.

(** [ls -t] in a directory: all entry names, by modification time, newest
    first. *)
Definition ls_t (d : dir) : list string :=
  (sort_newest (map_to_list d)).*1.

(** [ls -dt backup_*]: the glob keeps the names that start with [backup_]. *)
Definition glob_backup (d : dir) : dir :=
  filter (λ kv, String.prefix "backup_" kv.1 = true) d.

Definition ls_dt_backup (d : dir) : list string := ls_t (glob_backup d).

(** [tail -n +K]: from the K-th line on. *)
Definition tail_from (k : nat) (lines : list string) : list string :=
  drop (k - 1) lines.

(* ===================================================================== *)
(** * The [read] builtin                                                  *)
(* ===================================================================== *)

(** Both prompts are [read -p prompt VAR]: no [-r], one variable, the default
    IFS.  bash takes the input up to the first newline that no backslash
    precedes.  A backslash makes the next byte literal and vanishes, together
    with that byte when it is a newline; a NUL byte is dropped.  The line is
    kept in a buffer in which the byte CTLESC (octal 001) marks the byte after
    it as literal; the blanks of IFS around the line go, then the marks.  The
    functions follow the loop of [read_builtin] and the helpers it calls in
    bash 5.2, its treatment of a literal NUL and of a literal blank at the end
    of a line of several words included.  A byte is a character, as in the
    POSIX locale; in a UTF-8 locale that is so of every well-formed text. *)

Definition code (c : Ascii.ascii) : nat := Ascii.nat_of_ascii c.

Definition NUL : Ascii.ascii := Ascii.ascii_of_nat 0.
Definition CTLESC : Ascii.ascii := Ascii.ascii_of_nat 1.
Definition CTLNUL : Ascii.ascii := Ascii.ascii_of_nat 127.
Definition newline : Ascii.ascii := Ascii.ascii_of_nat 10.
Definition backslash : Ascii.ascii := Ascii.ascii_of_nat 92.

(** [spctabnl (c) && isifs (c)] under the default IFS: space, tab, newline. *)
Definition ifs_blank (c : Ascii.ascii) : bool :=
  (code c =? 32) || (code c =? 9) || (code c =? 10).

(** The reading loop: the buffer for the input up to its first newline that no
    backslash precedes; [None] when the input ends before, where [read]
    fails.  [pass_next] is set when the byte before was a backslash. *)
Fixpoint read_chars (pass_next : bool) (input : list Ascii.ascii)
    : option (list Ascii.ascii) :=
  match input with
  | [] => None
  | c :: rest =>
      if pass_next then
        if Ascii.eqb c newline then read_chars false rest
        else (λ b, CTLESC :: c :: b) <$> read_chars false rest
      else if Ascii.eqb c backslash then read_chars true rest
      else if Ascii.eqb c newline then Some []
      else if Ascii.eqb c NUL then read_chars false rest
      else if Ascii.eqb c CTLESC || Ascii.eqb c CTLNUL then
        (λ b, CTLESC :: c :: b) <$> read_chars false rest
      else (λ b, c :: b) <$> read_chars false rest
  end.

(** The buffer is a C string: it ends at its first NUL. *)
Fixpoint c_string (b : list Ascii.ascii) : list Ascii.ascii :=
  match b with
  | [] => []
  | c :: b' => if Ascii.eqb c NUL then [] else c :: c_string b'
  end.

Fixpoint skip_blanks (s : list Ascii.ascii) : list Ascii.ascii :=
  match s with
  | [] => []
  | c :: s' => if ifs_blank c then skip_blanks s' else s
  end.

(** [string_extract_verbatim]: the first word of [s] and what comes after it;
    a CTLESC takes the byte that follows it along. *)
Fixpoint string_extract_verbatim (s : list Ascii.ascii)
    : list Ascii.ascii * list Ascii.ascii :=
  match s with
  | [] => ([], [])
  | c :: s' =>
      if Ascii.eqb c CTLESC then
        match s' with
        | [] => ([c], [])
        | d :: s'' => let (w, r) := string_extract_verbatim s'' in (c :: d :: w, r)
        end
      else if ifs_blank c then ([], s)
      else let (w, r) := string_extract_verbatim s' in (c :: w, r)
  end.

(** [get_word_from_string]: the first word, and the line from the next word
    on: one separator and the blanks after it are passed over. *)
Definition get_word_from_string (s : list Ascii.ascii)
    : list Ascii.ascii * list Ascii.ascii :=
  let (w, r) := string_extract_verbatim (skip_blanks s) in (w, skip_blanks (tail r)).

(** [strip_trailing_ifs_whitespace], on the reversed string, [next] being the
    byte after the one looked at: from the last byte back to the second, a
    blank goes, and so does a CTLESC that stands before a blank. *)
Fixpoint strip_back (next : Ascii.ascii) (rev : list Ascii.ascii) : list Ascii.ascii :=
  match rev with
  | [] => []
  | [c] => [c]
  | c :: before =>
      if ifs_blank c || (Ascii.eqb c CTLESC && ifs_blank next)
      then strip_back c before else rev
  end.

Definition strip_trailing_ifs_whitespace (s : list Ascii.ascii) : list Ascii.ascii :=
  reverse (strip_back NUL (reverse s)).

(** [dequote_string]: the marks go; a string that is one CTLESC stays. *)
Fixpoint remove_marks (v : list Ascii.ascii) : list Ascii.ascii :=
  match v with
  | [] => []
  | c :: v' =>
      if Ascii.eqb c CTLESC then
        match v' with
        | [] => []
        | d :: v'' => d :: remove_marks v''
        end
      else c :: remove_marks v'
  end.

Definition dequote_string (v : list Ascii.ascii) : list Ascii.ascii :=
  match v with
  | [c] => if Ascii.eqb c CTLESC then v else remove_marks v
  | _ => remove_marks v
  end.

(** What [read] assigns to its one variable from the buffer: a line of one
    word gives that word, a line of several the line without the blanks
    around it. *)
Definition assigned (buffer : list Ascii.ascii) : list Ascii.ascii :=
  let s := skip_blanks (c_string buffer) in
  let (word, rest) := get_word_from_string s in
  dequote_string match rest with
                 | [] => word
                 | _ => strip_trailing_ifs_whitespace s
                 end.

(** [read VAR] on a standard input that holds [text] and then a newline: the
    value of VAR, or [None] when the input ends before the line does (every
    newline follows a backslash) and [read] fails. *)
Definition read_value (text : string) : option string :=
  (λ b, String.string_of_list_ascii (assigned b))
    <$> read_chars false (String.list_ascii_of_string text ++ [newline]).

Arguments read_value : simpl never.

(* ===================================================================== *)
(** * Scripts                                                             *)
(* ===================================================================== *)

Inductive http_outcome :=
| Unreachable                (* no connection: DNS, refused, TLS *)
| TimedOut                   (* no complete answer within --max-time *)
| Responded (code : nat).    (* final HTTP status line *)

(** Exit status of [curl -f -s --max-time 10 URL]: [-f] turns an HTTP status
    of 400 or more into exit 22; a timeout is exit 28. *)
Definition curl_f (r : http_outcome) : nat :=
  match r with
  | Unreachable => 7
  | TimedOut => 28
  | Responded code => if 400 <=? code then 22 else 0
  end.

Inductive action :=
| ACp (src dst : string)
| AMkdir (path : string)
| ARsync (src dst : string)
| AScp (files : list string) (dst : string)
| ANpmCi (cwd : string)
| ALn (target link : string)
| APm2 (args : list string)
| ACd (path : string)
| ARm (cwd : string) (names : list string)
| ACurl (url : string)
| ASleep (seconds : nat)
| APost (url text : string)
| ARead (prompt : string).

Record oracle := Oracle {
  status : action → nat;         (* exit status of an external command *)
  probe  : nat → http_outcome;   (* what health request number k meets *)
  answer : option string         (* the standard input at a prompt: the text before
                                    its last newline; None when it holds no newline *)
}.

Record world := World {
  fs       : remote;
  clock    : nat;
  timeline : list (action * remote);   (* commands run so far, oldest first,
                                          each with the tree it met *)
  stdout   : list string
}.

Inductive result (A : Type) :=
| Next (a : A)           (* the script goes on *)
| Exit (code : nat)      (* the shell has exited *)
| OutOfFuel.
Arguments Next {A} a.
Arguments Exit {A} code.
Arguments OutOfFuel {A}.

Definition Script (A : Type) : Type := world → result A * world.

Definition ret {A} (a : A) : Script A := λ w, (Next a, w).

Definition bind {A B} (c : Script A) (k : A → Script B) : Script B :=
  λ w, match c w with
       | (Next a, w') => k a w'
       | (Exit n, w') => (Exit n, w')
       | (OutOfFuel, w') => (OutOfFuel, w')
       end.

Definition exit {A} (code : nat) : Script A := λ w, (Exit code, w).

Notation "x <- c ;; k" := (bind c (λ x, k))
  (at level 100, c at next level, right associativity).
Notation "c ;; k" := (bind c (λ _, k))
  (at level 100, right associativity).

(** [set -e]: a simple command with a non-zero status ends the script with
    that status. *)
Definition sh (c : Script nat) : Script nat :=
  s <- c ;; if s =? 0 then ret s else exit s.

(** [ssh user@host "script"]: the status is that of the remote script, whose
    commands run in order whatever their status. *)
Definition ssh (script : Script nat) : Script nat := script.

Definition echo (line : string) : Script nat :=
  λ w, (Next 0, World (fs w) (clock w) (timeline w) (stdout w ++ [line])).

Definition log_info (msg : string) : Script nat := echo ("[INFO] " +:+ msg).
Definition log_warn (msg : string) : Script nat := echo ("[WARN] " +:+ msg).
Definition log_error (msg : string) : Script nat := echo ("[ERROR] " +:+ msg).

Definition record (a : action) (w : world) : list (action * remote) :=
  timeline w ++ [(a, fs w)].

Section Commands.
Variable o : oracle.

(** An external command: logged, and effective when it reports success. *)
Definition run (a : action) (effect : nat → remote → remote) : Script nat :=
  λ w, let s := status o a in
       (Next s,
        World (if s =? 0 then effect (clock w) (fs w) else fs w)
              (S (clock w)) (record a w) (stdout w)).

Definition no_effect : nat → remote → remote := λ _ r, r.

(** Reading the remote tree: [[ -d ... ]], [ls], [readlink]. *)
Definition gets {A} (f : remote → A) : Script A := λ w, (Next (f (fs w)), w).

(** A command that fails on its own account, whatever the oracle. *)
Definition fails (a : action) (s : nat) : Script nat :=
  λ w, (Next s, World (fs w) (S (clock w)) (record a w) (stdout w)).

(** [cp -r src dst] needs its source. *)
Definition cp (root src dst : string) : Script nat :=
  there <- gets (λ r, test_d root r src) ;;
  if there : bool then run (ACp src dst) (cp_r root dst)
  else fails (ACp src dst) 1.

Definition print (lines : list string) : Script nat :=
  λ w, (Next 0, World (fs w) (clock w) (timeline w) (stdout w ++ lines)).

Definition sleep (seconds : nat) : Script nat :=
  λ w, (Next 0, World (fs w) (clock w) (record (ASleep seconds) w) (stdout w)).

(** [curl -f -s --max-time 10 URL > /dev/null], as health request number [k]. *)
Definition curl_health (url : string) (k : nat) : Script nat :=
  λ w, (Next (curl_f (probe o k)),
        World (fs w) (clock w) (record (ACurl url) w) (stdout w)).

(** [read -p prompt VAR]: the value of VAR; [None] when [read] fails, at
    the end of the input. *)
Definition read_p (prompt : string) : Script (option string) :=
  λ w, (Next (answer o ≫= read_value),
        World (fs w) (clock w) (record (ARead prompt) w) (stdout w)).

(** The health loop shared by both scripts:
<<
 MAX_ATTEMPTS=5; ATTEMPT=1
 while [ $ATTEMPT -le $MAX_ATTEMPTS ]; do
   log_info "Health check attempt $ATTEMPT/$MAX_ATTEMPTS..."
   if curl -f -s --max-time 10 "$HEALTH_CHECK_URL" > /dev/null; then
     log_info <passed>; break
   else
     if [ $ATTEMPT -eq $MAX_ATTEMPTS ]; then <exhausted>; exit 1; fi
     log_warn <retry>; sleep 10; ATTEMPT=$((ATTEMPT + 1))
   fi
 done
>> *)
Definition MAX_ATTEMPTS : nat := 5.

Fixpoint health_loop (fuel ATTEMPT : nat) (url passed retry : string)
    (exhausted : Script unit) : Script unit :=
  match fuel with
  | 0 => λ w, (OutOfFuel, w)
  | S fuel' =>
      if ATTEMPT <=? MAX_ATTEMPTS then
        log_info ("Health check attempt " +:+ pretty ATTEMPT +:+ "/"
                  +:+ pretty MAX_ATTEMPTS +:+ "...") ;;
        s <- curl_health url ATTEMPT ;;
        if s =? 0 then
          log_info passed ;; ret tt
        else if ATTEMPT =? MAX_ATTEMPTS then
          exhausted ;; exit 1
        else
          log_warn retry ;;
          sleep 10 ;;
          health_loop fuel' (ATTEMPT + 1) url passed retry exhausted
      else ret tt
  end.

Definition health_check (url passed retry : string) (exhausted : Script unit)
    : Script unit :=
  health_loop (S MAX_ATTEMPTS) 1 url passed retry exhausted.
End Commands.

(* ===================================================================== *)
(** * What both scripts read from their caller                            *)
(* ===================================================================== *)

Record input := Input {
  arg1 : string;                 (* $1, empty when absent *)
  arg2 : string;                 (* $2, empty when absent *)
  DEPLOY_USER : string;
  STAGING_SERVER : string;
  PRODUCTION_SERVER : string;
  STAGING_ENV_FILE : string;
  PRODUCTION_ENV_FILE : string;
  SLACK_WEBHOOK_URL : string;
  build_dir_present : bool;      (* [ -d dist ] on the local machine *)
  date : string                  (* date +%Y%m%d_%H%M%S *)
}.

(** [${v:-d}] *)
Definition or_default (v d : string) : string :=
  if String.eqb v "" then d else v.

Record settings := Settings {
  REMOTE_HOST : string;
  REMOTE_PATH : string;
  PM2_APP_NAME : string;
  HEALTH_CHECK_URL : string
}.

Definition APP_NAME : string := "my-app".

(** The [case $ENVIRONMENT in ... esac] that opens both scripts; [None] is
    its catch-all branch, which logs the invalid environment and exits 1. *)
Definition environment_case (i : input) (ENVIRONMENT : string) : option settings :=
  if String.eqb ENVIRONMENT "staging" then
    Some (Settings (STAGING_SERVER i)
                   ("/var/www/" +:+ APP_NAME +:+ "/staging")
                   (APP_NAME +:+ "-staging")
                   "https://staging.example.com/health")
  else if String.eqb ENVIRONMENT "production" then
    Some (Settings (PRODUCTION_SERVER i)
                   ("/var/www/" +:+ APP_NAME +:+ "/production")
                   (APP_NAME +:+ "-production")
                   "https://example.com/health")
  else None.

(* ===================================================================== *)
(** * deploy.sh                                                           *)
(* ===================================================================== *)

Module Deploy.
Section Script.
Variable i : input.
Variable o : oracle.

Definition ENVIRONMENT : string := or_default (arg1 i) "staging".
Definition REMOTE_USER : string := or_default (DEPLOY_USER i) "deploy".
Definition BUILD_DIR : string := "dist".
Definition TIMESTAMP : string := date i.

Definition validate : Script settings :=
  match environment_case i ENVIRONMENT with
  | None =>
      log_error ("Invalid environment: " +:+ ENVIRONMENT) ;;
      echo "Usage: $0 {staging|production}" ;;
      exit 1
  | Some s =>
      if String.eqb (REMOTE_HOST s) "" then
        log_error ("REMOTE_HOST is not set for environment: " +:+ ENVIRONMENT) ;;
        exit 1
      else if negb (build_dir_present i) then
        log_error ("Build directory not found: " +:+ BUILD_DIR) ;;
        exit 1
      else ret s
  end.

Section WithSettings.
Variable s : settings.

Definition host : string := REMOTE_USER +:+ "@" +:+ REMOTE_HOST s.
Definition CURRENT : string := REMOTE_PATH s +:+ "/current".
Definition BACKUP : string := REMOTE_PATH s +:+ "/backup_" +:+ TIMESTAMP.
Definition RELEASE_DIR : string := REMOTE_PATH s +:+ "/releases/" +:+ TIMESTAMP.

Definition backup_current : Script nat :=
  log_info "Creating backup of current deployment..." ;;
  sh (ssh (
    there <- gets (λ r, test_d (REMOTE_PATH s) r CURRENT) ;;
    if there : bool then
      cp o (REMOTE_PATH s) CURRENT BACKUP ;;
      echo ("Backup created: backup_" +:+ TIMESTAMP)
    else
      echo "No existing deployment to backup")).

Definition create_release : Script nat :=
  log_info ("Creating release directory: " +:+ RELEASE_DIR) ;;
  sh (ssh (run o (AMkdir RELEASE_DIR) (mkdir_p (REMOTE_PATH s) RELEASE_DIR))).

Definition upload : Script nat :=
  log_info "Uploading build files..." ;;
  sh (run o (ARsync (BUILD_DIR +:+ "/") (host +:+ ":" +:+ RELEASE_DIR +:+ "/"))
            no_effect).

Definition install : Script nat :=
  log_info "Installing production dependencies..." ;;
  sh (run o (AScp ["package.json"; "package-lock.json"]
                  (host +:+ ":" +:+ RELEASE_DIR +:+ "/"))
            (write_into (REMOTE_PATH s) RELEASE_DIR)) ;;
  sh (ssh (
    c <- run o (ACd RELEASE_DIR) no_effect ;;
    (* when cd fails, npm runs in the login directory *)
    if c =? 0 then run o (ANpmCi RELEASE_DIR) (write_into (REMOTE_PATH s) RELEASE_DIR)
    else run o (ANpmCi "~") no_effect)).

Definition copy_env : Script nat :=
  log_info "Setting up environment variables..." ;;
  if String.eqb ENVIRONMENT "staging" && negb (String.eqb (STAGING_ENV_FILE i) "") then
    sh (run o (AScp [STAGING_ENV_FILE i] (host +:+ ":" +:+ RELEASE_DIR +:+ "/.env"))
              (write_into (REMOTE_PATH s) RELEASE_DIR))
  else if String.eqb ENVIRONMENT "production"
          && negb (String.eqb (PRODUCTION_ENV_FILE i) "") then
    sh (run o (AScp [PRODUCTION_ENV_FILE i] (host +:+ ":" +:+ RELEASE_DIR +:+ "/.env"))
              (write_into (REMOTE_PATH s) RELEASE_DIR))
  else ret 0.

Definition switch : Script nat :=
  log_info "Updating symlink to new release..." ;;
  sh (ssh (
    run o (ALn RELEASE_DIR CURRENT) (λ _, ln_sfn RELEASE_DIR) ;;
    echo ("Symlink updated to: " +:+ RELEASE_DIR))).

Definition restart : Script nat :=
  log_info "Restarting application with PM2..." ;;
  sh (ssh (
    run o (ACd CURRENT) no_effect ;;
    r <- run o (APm2 ["restart"; PM2_APP_NAME s; "--update-env"]) no_effect ;;
    (if r =? 0 then ret 0
     else run o (APm2 ["start"; "ecosystem.config.js"; "--env"; ENVIRONMENT])
                no_effect) ;;
    run o (APm2 ["save"]) no_effect)).

(** The branch taken when the last attempt has failed, up to its [exit 1]. *)
Definition revert : Script unit :=
  log_error ("Health check failed after " +:+ pretty MAX_ATTEMPTS +:+ " attempts") ;;
  log_warn "Initiating rollback..." ;;
  sh (ssh (
    there <- gets (λ r, test_d (REMOTE_PATH s) r BACKUP) ;;
    if there : bool then
      run o (ALn BACKUP CURRENT) (λ _, ln_sfn BACKUP) ;;
      run o (APm2 ["restart"; PM2_APP_NAME s]) no_effect ;;
      echo "Rollback completed"
    else ret 0)) ;;
  ret tt.

Definition poll : Script unit :=
  log_info "Running health check..." ;;
  health_check o (HEALTH_CHECK_URL s)
    "Health check passed!"
    "Health check failed, retrying in 10 seconds..."
    revert.

(** [ls -t | tail -n +6 | xargs -r rm -rf] in releases/. *)
Definition cleanup_releases : Script nat :=
  log_info "Cleaning up old releases..." ;;
  sh (ssh (
    c <- run o (ACd (REMOTE_PATH s +:+ "/releases")) no_effect ;;
    (if c =? 0 then
       old <- gets (λ r, tail_from 6 (ls_t (releases r))) ;;
       match old with
       | [] => ret 0                   (* xargs -r: nothing to run *)
       | _ => run o (ARm (REMOTE_PATH s +:+ "/releases") old)
                    (λ _ r, Remote (rm_rf old (releases r)) (toplevel r) (current r))
       end
     else ret c (* the pipeline lists the login directory, outside the tree *)) ;;
    echo "Old releases cleaned up")).

(** [ls -dt backup_* 2>/dev/null | tail -n +4 | xargs -r rm -rf || true]. *)
Definition cleanup_backups : Script nat :=
  log_info "Cleaning up old backups..." ;;
  sh (ssh (
    c <- run o (ACd (REMOTE_PATH s)) no_effect ;;
    (if c =? 0 then
       old <- gets (λ r, tail_from 4 (ls_dt_backup (toplevel r))) ;;
       match old with
       | [] => ret 0
       | _ => run o (ARm (REMOTE_PATH s) old)
                    (λ _ r, Remote (releases r) (rm_rf old (toplevel r)) (current r)) ;;
              ret 0                    (* || true *)
       end
     else ret 0) ;;
    echo "Old backups cleaned up")).

Definition notify : Script nat :=
  log_info ("Deployment to " +:+ ENVIRONMENT +:+ " completed successfully!") ;;
  log_info ("Release: " +:+ TIMESTAMP) ;;
  log_info ("Application is running at: " +:+ HEALTH_CHECK_URL s) ;;
  if negb (String.eqb (SLACK_WEBHOOK_URL i) "") then
    log_info "Sending Slack notification..." ;;
    sh (run o (APost (SLACK_WEBHOOK_URL i)
                     ("Deployment to *" +:+ ENVIRONMENT +:+ "* completed successfully!"))
              no_effect)
  else ret 0.
End WithSettings.

(** Everything before the health loop. *)
Definition stage : Script settings :=
  s <- validate ;;
  log_info ("Starting deployment to " +:+ ENVIRONMENT +:+ " environment...") ;;
  log_info ("Remote host: " +:+ REMOTE_HOST s) ;;
  log_info ("Remote path: " +:+ REMOTE_PATH s) ;;
  backup_current s ;;
  create_release s ;;
  upload s ;;
  install s ;;
  copy_env s ;;
  switch s ;;
  restart s ;;
  log_info "Waiting for application to start..." ;;
  sh (sleep 10) ;;
  ret s.

(** Everything up to and including the health loop. *)
Definition release : Script settings :=
  s <- stage ;;
  poll s ;;
  ret s.

Definition cleanup (s : settings) : Script nat :=
  cleanup_releases s ;;
  cleanup_backups s.

Definition deploy : Script unit :=
  s <- release ;;
  cleanup s ;;
  notify s ;;
  exit 0.
End Script.
End Deploy.

(* ===================================================================== *)
(** * rollback.sh                                                         *)
(* ===================================================================== *)

Module Rollback.
Section Script.
Variable i : input.
Variable o : oracle.

Definition ENVIRONMENT : string := or_default (arg1 i) "staging".
Definition RELEASE_VERSION : string := arg2 i.
Definition REMOTE_USER : string := or_default (DEPLOY_USER i) "deploy".
Definition TIMESTAMP : string := date i.

Definition validate : Script settings :=
  match environment_case i ENVIRONMENT with
  | None =>
      log_error ("Invalid environment: " +:+ ENVIRONMENT) ;;
      echo "Usage: $0 {staging|production} [release_version]" ;;
      exit 1
  | Some s =>
      if String.eqb (REMOTE_HOST s) "" then
        log_error "REMOTE_HOST is not set" ;;
        exit 1
      else ret s
  end.

Section WithSettings.
Variable s : settings.

Definition CURRENT : string := REMOTE_PATH s +:+ "/current".

(** No version given: show what there is and exit 1. *)
Definition discover : Script unit :=
  log_info "Available releases:" ;;
  sh (ssh (
    c <- run o (ACd (REMOTE_PATH s +:+ "/releases")) no_effect ;;
    if c =? 0 then names <- gets (λ r, ls_t (releases r)) ;; print names
    else echo "No releases found")) ;;
  log_info "" ;;
  log_info "Available backups:" ;;
  sh (ssh (
    c <- run o (ACd (REMOTE_PATH s)) no_effect ;;
    if c =? 0 then
      names <- gets (λ r, ls_dt_backup (toplevel r)) ;;
      match names with
      | [] => echo "No backups found"     (* the glob matched nothing *)
      | _ => print names
      end
    else echo "No backups found")) ;;
  echo "" ;;
  log_error "Please specify a release version or backup to rollback to:" ;;
  echo ("Usage: $0 " +:+ ENVIRONMENT +:+ " <release_version|backup_YYYYMMDD_HHMMSS>") ;;
  exit 1.

(** [[[ $RELEASE_VERSION == backup_* ]]] *)
Definition is_backup_id (id : string) : bool := String.prefix "backup_" id.

Definition ROLLBACK_PATH : string :=
  if is_backup_id RELEASE_VERSION
  then REMOTE_PATH s +:+ "/" +:+ RELEASE_VERSION
  else REMOTE_PATH s +:+ "/releases/" +:+ RELEASE_VERSION.

Definition resolve : Script nat :=
  if is_backup_id RELEASE_VERSION
  then log_info ("Rolling back to backup: " +:+ RELEASE_VERSION)
  else log_info ("Rolling back to release: " +:+ RELEASE_VERSION).

Definition verify : Script unit :=
  log_info "Verifying rollback target..." ;;
  q <- sh (ssh (
         there <- gets (λ r, test_d (REMOTE_PATH s) r ROLLBACK_PATH) ;;
         if negb there then
           echo ("ERROR: Rollback target not found: " +:+ ROLLBACK_PATH) ;;
           ret 1                            (* exit 1 of the remote shell *)
         else ret 0)) ;;
  (* if [ $? -ne 0 ] *)
  if negb (q =? 0) then
    log_error "Rollback target verification failed" ;;
    exit 1
  else ret tt.

Definition confirm : Script unit :=
  echo "" ;;
  log_warn ("You are about to rollback " +:+ ENVIRONMENT +:+ " to: " +:+ RELEASE_VERSION) ;;
  line <- read_p o "Are you sure you want to continue? (yes/no): " ;;
  match line with
  | None => exit 1                          (* read fails, set -e *)
  | Some CONFIRM =>
      if negb (String.eqb CONFIRM "yes") then
        log_info "Rollback cancelled" ;;
        exit 0
      else ret tt
  end.

Definition SNAPSHOT : string := REMOTE_PATH s +:+ "/rollback_backup_" +:+ TIMESTAMP.

Definition snapshot_current : Script nat :=
  log_info "Backing up current state..." ;;
  sh (ssh (
    link <- gets (λ r, test_L (REMOTE_PATH s) r CURRENT) ;;
    if link : bool then
      CURRENT_TARGET <- gets (λ r, default "" (current r)) ;;   (* readlink *)
      cp o (REMOTE_PATH s) CURRENT_TARGET SNAPSHOT ;;
      echo ("Current state backed up to: rollback_backup_" +:+ TIMESTAMP)
    else ret 0)).

Definition switch : Script nat :=
  log_info "Updating symlink to rollback target..." ;;
  sh (ssh (
    run o (ALn ROLLBACK_PATH CURRENT) (λ _, ln_sfn ROLLBACK_PATH) ;;
    echo ("Symlink updated to: " +:+ ROLLBACK_PATH))).

Definition restart : Script nat :=
  log_info "Restarting application..." ;;
  sh (ssh (
    run o (ACd CURRENT) no_effect ;;
    run o (APm2 ["restart"; PM2_APP_NAME s]) no_effect ;;
    run o (APm2 ["save"]) no_effect)).

(** The branch taken when the last attempt has failed, up to its [exit 1]. *)
Definition alert : Script unit :=
  log_error "Health check failed after rollback!" ;;
  log_error "Manual intervention required" ;;
  (if negb (String.eqb (SLACK_WEBHOOK_URL i) "") then
     run o (APost (SLACK_WEBHOOK_URL i)
                  ("CRITICAL: Rollback health check failed on *" +:+ ENVIRONMENT +:+ "*"))
           no_effect ;;
     ret 0                                  (* || true *)
   else ret 0) ;;
  ret tt.

Definition poll : Script unit :=
  log_info "Running health check..." ;;
  health_check o (HEALTH_CHECK_URL s)
    "Health check passed!"
    "Health check failed, retrying..."
    alert.

Definition succeed : Script unit :=
  log_info "=========================================" ;;
  log_info "Rollback completed successfully!" ;;
  log_info "=========================================" ;;
  log_info ("Environment: " +:+ ENVIRONMENT) ;;
  log_info ("Rollback to: " +:+ RELEASE_VERSION) ;;
  log_info ("Application URL: " +:+ HEALTH_CHECK_URL s) ;;
  (if negb (String.eqb (SLACK_WEBHOOK_URL i) "") then
     run o (APost (SLACK_WEBHOOK_URL i)
                  ("Rollback completed on *" +:+ ENVIRONMENT +:+ "*"))
           no_effect ;;
     ret 0                                  (* || true *)
   else ret 0) ;;
  exit 0.
End WithSettings.

(** Everything before the confirmation prompt. *)
Definition preflight : Script settings :=
  s <- validate ;;
  log_warn "=========================================" ;;
  log_warn ("ROLLBACK INITIATED FOR: " +:+ ENVIRONMENT) ;;
  log_warn "=========================================" ;;
  (if String.eqb RELEASE_VERSION "" then discover s else ret tt) ;;
  resolve ;;
  verify s ;;
  ret s.

(** Everything after a confirmed prompt. *)
Definition execute (s : settings) : Script unit :=
  snapshot_current s ;;
  switch s ;;
  restart s ;;
  log_info "Waiting for application to restart..." ;;
  sh (sleep 10) ;;
  poll s ;;
  succeed s.

Definition rollback : Script unit :=
  s <- preflight ;;
  confirm ;;
  execute s.
End Script.
End Rollback.

(* ===================================================================== *)
(** * src/routes/health.js                                                *)
(* ===================================================================== *)

Module Health.
Inductive json :=
| JString (s : string)
| JNumber (q : Q)
| JBool (b : bool)
| JObject (fields : list (string * json)).

(** What the handler reads from the Node process. *)
Record process := Process {
  uptime : Q;                      (* process.uptime(), seconds *)
  toISOString : string;            (* new Date().toISOString() *)
  NODE_ENV : option string;        (* process.env.NODE_ENV *)
  heapUsed : N;                    (* process.memoryUsage(), bytes *)
  heapTotal : N
}.

Inductive verb := GET | POST | PUT | DELETE | OTHER.

Record request := Request {
  method : verb;
  path : string;                   (* below the mount point /health *)
  headers : list (string * string)
}.

Record response := Response {
  statusCode : nat;
  body : json
}.

(** [a || b] on an optional string: undefined and the empty string are falsy. *)
Definition or_else (a : option string) (b : string) : string :=
  match a with
  | Some v => if String.eqb v "" then b else v
  | None => b
  end.

(** [Math.round(x)]: the nearest integer, halves upwards. *)
Definition Math_round (x : Q) : Z := Qfloor (x + (1 # 2))%Q.

Definition megabytes (bytes : N) : json :=
  JNumber (inject_Z (Math_round (inject_Z (Z.of_N bytes) / 1024 / 1024)%Q)).

(** [router.get('/', ...)] *)
Definition health (req : request) (p : process) : response :=
  let healthcheck :=
    JObject [("status", JString "OK");
             ("uptime", JNumber (uptime p));
             ("timestamp", JString (toISOString p));
             ("environment", JString (or_else (NODE_ENV p) "development"));
             ("memory", JObject [("used", megabytes (heapUsed p));
                                 ("total", megabytes (heapTotal p));
                                 ("unit", JString "MB")])] in
  Response 200 healthcheck.

(** [router.get('/ready', ...)] *)
Definition ready (req : request) (p : process) : response :=
  let isReady := true in
  if isReady then Response 200 (JObject [("ready", JBool true)])
  else Response 503 (JObject [("ready", JBool false)]).

(** [router.get('/live', ...)] *)
Definition live (req : request) (p : process) : response :=
  Response 200 (JObject [("alive", JBool true)]).

(** The router of health.js, the [/detailed] report apart; [None] hands the
    request on to the next middleware. *)
Definition router (req : request) (p : process) : option response :=
  match method req with
  | GET =>
      if String.eqb (path req) "/" then Some (health req p)
      else if String.eqb (path req) "/ready" then Some (ready req p)
      else if String.eqb (path req) "/live" then Some (live req p)
      else None
  | _ => None
  end.

Fixpoint field (name : string) (fields : list (string * json)) : option json :=
  match fields with
  | [] => None
  | (k, v) :: rest => if String.eqb k name then Some v else field name rest
  end.

Definition get (name : string) (j : json) : option json :=
  match j with
  | JObject fields => field name fields
  | _ => None
  end.
End Health.

(* ===================================================================== *)
(** * Vocabulary of the specifications                                    *)
(* ===================================================================== *)

(** The commands run so far, without the trees they met. *)
Definition trace (w : world) : list action := (timeline w).*1.

(** Weakest precondition of a script: [Q] where it goes on, [E] where the
    shell exits; a script that runs out of fuel satisfies nothing. *)
Definition wp {A} (c : Script A) (Q : A → world → Prop) (E : nat → world → Prop)
    (w : world) : Prop :=
  match c w with
  | (Next a, w') => Q a w'
  | (Exit n, w') => E n w'
  | (OutOfFuel, _) => False
  end.

(** A health request or the pause between two of them. *)
Definition is_attempt (a : action) : bool :=
  match a with
  | ACurl _ | ASleep _ => true
  | _ => false
  end.

(** What a health loop of five failed-then-decided attempts issues. *)
Definition five_attempts (url : string) : list action :=
  [ACurl url; ASleep 10; ACurl url; ASleep 10; ACurl url; ASleep 10;
   ACurl url; ASleep 10; ACurl url].

(** An [ln -sfn] on the timeline met a tree in which its target is a
    directory. *)
Definition link_ok (root : string) (e : action * remote) : Prop :=
  match e.1 with
  | ALn target _ => test_d root e.2 target = true
  | _ => True
  end.

(** Commands that change the remote tree or the process manager. *)
Definition mutates (a : action) : bool :=
  match a with
  | ACp _ _ | AMkdir _ | ARsync _ _ | AScp _ _ | ANpmCi _
  | ALn _ _ | APm2 _ | ARm _ _ => true
  | _ => false
  end.

Definition two_xx (r : http_outcome) : Prop :=
  match r with
  | Responded code => 200 ≤ code < 300
  | _ => False
  end.

(** The timeline [t] continues [t0] with commands whose [ln -sfn], if any,
    met its target as a directory. *)
Definition extends (root : string) (t0 t : list (action * remote)) : Prop :=
  ∃ new, t = t0 ++ new ∧ Forall (link_ok root) new.

(** Top-level entries outside the glob [backup_*] are as they were. *)
Definition others_kept (r0 r : remote) : Prop :=
  ∀ n, String.prefix "backup_" n = false → toplevel r !! n = toplevel r0 !! n.

(** Adding entries never makes a directory test fail. *)
Definition grows (r r' : remote) : Prop :=
  (∀ n, has (releases r) n = true → has (releases r') n = true)
  ∧ (∀ n, has (toplevel r) n = true → has (toplevel r') n = true)
  ∧ current r' = current r.

(** [a] is listed before [b] by [ls -t]. *)
Definition newer_first (a b : string * nat) : Prop := b.2 ≤ a.2.

(** Directory [d'] is what is left of [d] when all but its [k] newest entries
    are gone: it has min(k, |d|) entries, all of them entries of [d], and
    nothing that went is newer than anything that stayed. *)
Definition kept_newest (k : nat) (d d' : dir) : Prop :=
  size d' = k `min` size d
  ∧ d' ⊆ d
  ∧ ∀ n m tn tm, d' !! n = Some tn → d !! m = Some tm → d' !! m = None → tm ≤ tn.

(** [current] names an existing directory. *)
Definition current_resolves (root : string) (r : remote) : bool :=
  test_d root r (root +:+ "/current").

(* ===================================================================== *)
(** * Concrete hosts, inputs and oracles                                  *)
(* ===================================================================== *)

Definition staging : settings :=
  Settings "203.0.113.10" "/var/www/my-app/staging" "my-app-staging"
           "https://staging.example.com/health".

(** [deploy.sh staging] and [rollback.sh staging <id>]. *)
Definition invoke (id : string) : input :=
  Input "staging" id "" "203.0.113.10" "198.51.100.7" "" "" "" true "20240107_120000".

(** A host that has never been deployed to. *)
Definition fresh : world := World (Remote ∅ ∅ None) 0 [] [].

(** A host with six releases, four backups and one rollback snapshot. *)
Definition live_tree : remote :=
  Remote
    (list_to_map [("20240101_000000", 1); ("20240102_000000", 2);
                  ("20240103_000000", 3); ("20240104_000000", 4);
                  ("20240105_000000", 5); ("20240106_000000", 6)])
    (list_to_map [("backup_20240103_000000", 3); ("backup_20240104_000000", 4);
                  ("backup_20240105_000000", 5); ("backup_20240106_000000", 6);
                  ("rollback_backup_20240102_000000", 2)])
    (Some "/var/www/my-app/staging/releases/20240106_000000").

Definition live : world := World live_tree 10 [] [].

(** Every command succeeds and the application answers 200. *)
Definition healthy : oracle := Oracle (λ _, 0) (λ _, Responded 200) (Some "no").

(** The application answers 503 four times, then 200. *)
Definition slow_start : oracle :=
  Oracle (λ _, 0) (λ k, if k <? 5 then Responded 503 else Responded 200) (Some "yes").

(** The application never comes up. *)
Definition down : oracle := Oracle (λ _, 0) (λ _, Unreachable) (Some "yes").

(** The health URL answers with a redirect. *)
Definition redirected : oracle := Oracle (λ _, 0) (λ _, Responded 302) (Some "yes").

(** Every [rm] of the cleanup fails. *)
Definition rm_fails : oracle :=
  Oracle (λ a, match a with ARm _ _ => 123 | _ => 0 end)
         (λ _, Responded 200) (Some "yes").

Definition node : Health.process :=
  Health.Process (3 # 2) "2024-01-07T12:00:00.000Z" None 52428800 67108864.

Definition curl_get : Health.request := Health.Request Health.GET "/" [].

(** ** What the steps of the scripts keep *)

(** Since [w0], a deployment to [s] has only run well-aimed [ln -sfn] and has
    left alone what lies outside [backup_*] at the top level. *)
Definition deploy_inv (s : settings) (w0 w : world) : Prop :=
  extends (REMOTE_PATH s) (timeline w0) (timeline w) ∧ others_kept (fs w0) (fs w).

(** The release directory of this run exists. *)
Definition release_there (i : input) (w : world) : Prop :=
  has (releases (fs w)) (Deploy.TIMESTAMP i) = true.

(** The backup of this run exists. *)
Definition backup_there (i : input) (w : world) : Prop :=
  has (toplevel (fs w)) ("backup_" +:+ Deploy.TIMESTAMP i) = true.

Definition rollback_inv (s : settings) (w0 w : world) : Prop :=
  extends (REMOTE_PATH s) (timeline w0) (timeline w).

(** The rollback target is a directory. *)
Definition target_there (i : input) (s : settings) (w : world) : Prop :=
  test_d (REMOTE_PATH s) (fs w) (Rollback.ROLLBACK_PATH i s) = true.

(** ** [current] over a run *)

(** The trees of a run from [w0] to [w], in order: the one it started from,
    the one each of its commands met, and the one it has reached. *)
Definition trees_since (w0 w : world) : list remote :=
  fs w0 :: (drop (length (timeline w0)) (timeline w)).*2 ++ [fs w].

(** From the first tree of [l] in which [current] names an existing directory
    on, it names one in every tree of [l]. *)
Definition steady (root : string) (l : list remote) : Prop :=
  ∀ j k r r', j ≤ k → l !! j = Some r → l !! k = Some r' →
    current_resolves root r = true → current_resolves root r' = true.

(** The timeline [t] continues [t0], and [current] is steady from the tree
    [r0] through the trees that the new commands met to the tree [r]. *)
Definition calm (root : string) (r0 : remote) (t0 t : list (action * remote))
    (r : remote) : Prop :=
  ∃ new, t = t0 ++ new ∧ steady root (r0 :: new.*2 ++ [r]).

(** [current] names the release directory of this run, which exists. *)
Definition release_live (i : input) (s : settings) (w : world) : Prop :=
  current (fs w) = Some (Deploy.RELEASE_DIR i s) ∧ release_there i w.

(** A host whose five releases carry modification times ahead of its clock. *)
Definition skewed : world :=
  World (Remote (list_to_map [("20240102_000000", 101); ("20240103_000000", 102);
                              ("20240104_000000", 103); ("20240105_000000", 104);
                              ("20240106_000000", 105)])
                ∅
                (Some "/var/www/my-app/staging/releases/20240106_000000"))
        10 [] [].

(** The host of [live] after a rollback to its oldest release. *)
Definition rolled_back : world :=
  World (Remote (releases live_tree) (toplevel live_tree)
                (Some "/var/www/my-app/staging/releases/20240101_000000"))
        10 [] [].

(** [deploy.sh staging] where no build has been made. *)
Definition unbuilt : input :=
  Input "staging" "" "" "203.0.113.10" "198.51.100.7" "" "" "" false "20240107_120000".

(** Every [ln] fails; all else is well. *)
Definition ln_fails : oracle :=
  Oracle (λ a, match a with ALn _ _ => 1 | _ => 0 end)
         (λ _, Responded 200) (Some "yes").

(** The host of [live] after something was written into its oldest release:
    the directory with the oldest timestamp is the one modified last. *)
Definition touched : world :=
  World (Remote (<["20240101_000000" := 9]> (releases live_tree)) (toplevel live_tree)
                (current live_tree))
        10 [] [].

(* ===================================================================== *)
(** * Further vocabulary                                                  *)
(* ===================================================================== *)

(** What a health loop issues when its [k]-th request is the last one: [k]
    requests, ten seconds apart. *)
Fixpoint attempts (url : string) (k : nat) : list action :=
  match k with
  | 0 => []
  | S k' => ACurl url :: match k' with
                         | 0 => []
                         | S _ => ASleep 10 :: attempts url k'
                         end
  end.

Definition is_request (a : action) : bool :=
  match a with
  | ACurl _ => true
  | _ => false
  end.

(** The number of health requests among the commands [l]. *)
Definition requests (l : list action) : nat :=
  length (filter (λ a, is_request a = true) l).

(** [deploy.sh prod]: an environment the scripts do not know. *)
Definition typo : input :=
  Input "prod" "20240101_000000" "" "203.0.113.10" "198.51.100.7" "" "" "" true
        "20240107_120000".

(** [deploy.sh production] with PRODUCTION_SERVER unset. *)
Definition no_host : input :=
  Input "production" "20240101_000000" "" "203.0.113.10" "" "" "" "" true
        "20240107_120000".

(** [l] lists the entries of directory [d], each once, newest first. *)
Definition newest_first_listing (d : dir) (l : list string) : Prop :=
  NoDup l
  ∧ (∀ n, n ∈ l ↔ is_Some (d !! n))
  ∧ ∀ j k a b ta tb, j < k → l !! j = Some a → l !! k = Some b →
      d !! a = Some ta → d !! b = Some tb → tb ≤ ta.

(** What the discovery mode of rollback.sh prints for releases/ and for the
    backups: a listing where the [cd] succeeds (and, for the backups, the glob
    matches), the fallback line otherwise. *)
Definition releases_report (o : oracle) (s : settings) (r : remote) : list string :=
  if status o (ACd (REMOTE_PATH s +:+ "/releases")) =? 0 then ls_t (releases r)
  else ["No releases found"].

Definition backups_report (o : oracle) (s : settings) (r : remote) : list string :=
  if status o (ACd (REMOTE_PATH s)) =? 0 then
    match ls_dt_backup (toplevel r) with
    | [] => ["No backups found"]
    | names => names
    end
  else ["No backups found"].

(** Since [w0] a rollback has left every release alone and, at the top level,
    everything but its own snapshot. *)
Definition snapshot_only (i : input) (w0 w : world) : Prop :=
  releases (fs w) = releases (fs w0)
  ∧ ∀ n, n ≠ "rollback_backup_" +:+ Rollback.TIMESTAMP i →
         toplevel (fs w) !! n = toplevel (fs w0) !! n.

(** What a rollback to the target of [s] keeps from [w0] on: it adds its
    snapshot and nothing else, and [current] is as it was or names the
    target. *)
Definition rollback_kept (i : input) (s : settings) (w0 w : world) : Prop :=
  snapshot_only i w0 w
  ∧ (current (fs w) = current (fs w0)
     ∨ current (fs w) = Some (Rollback.ROLLBACK_PATH i s)).

(** What rollback.sh runs between the prompt and the health loop. *)
Definition switch_commands (i : input) (s : settings) : list action :=
  [ALn (Rollback.ROLLBACK_PATH i s) (Rollback.CURRENT s);
   ACd (Rollback.CURRENT s);
   APm2 ["restart"; PM2_APP_NAME s]; APm2 ["save"]; ASleep 10].

(** Every command succeeds, the application answers 200 and the operator
    confirms. *)
Definition confirmed : oracle := Oracle (λ _, 0) (λ _, Responded 200) (Some "yes").

(** As [confirmed], the operator typing yes between two blanks. *)
Definition padded : oracle := Oracle (λ _, 0) (λ _, Responded 200) (Some " yes ").

(** The prompt meets the end of the input. *)
Definition unattended : oracle := Oracle (λ _, 0) (λ _, Responded 200) None.

(** The application answers 503 once, then 200. *)
Definition second_try : oracle :=
  Oracle (λ _, 0) (λ k, if k <? 2 then Responded 503 else Responded 200) (Some "yes").

(** Since [w0] a deployment has re-stamped no release but its own and no
    top-level directory but its own backup; what has gone is a release or a
    [backup_*] directory. *)
Definition own_only (i : input) (w0 w : world) : Prop :=
  (∀ n, n ≠ Deploy.TIMESTAMP i →
        releases (fs w) !! n = releases (fs w0) !! n ∨ releases (fs w) !! n = None)
  ∧ (∀ n, n ≠ "backup_" +:+ Deploy.TIMESTAMP i →
          toplevel (fs w) !! n = toplevel (fs w0) !! n
          ∨ toplevel (fs w) !! n = None ∧ String.prefix "backup_" n = true).

(** The staging of a release since [w0]: the clock has not gone back, no other
    release and no other top-level directory has changed, and where there was
    no deployment to back up the top level is as it was. *)
Definition staged (i : input) (s : settings) (w0 w : world) : Prop :=
  clock w0 ≤ clock w
  ∧ (∀ n, n ≠ Deploy.TIMESTAMP i → releases (fs w) !! n = releases (fs w0) !! n)
  ∧ (∀ n, n ≠ "backup_" +:+ Deploy.TIMESTAMP i →
          toplevel (fs w) !! n = toplevel (fs w0) !! n)
  ∧ (test_d (REMOTE_PATH s) (fs w0) (Deploy.CURRENT s) = false →
     toplevel (fs w) = toplevel (fs w0)).

(** The release directory of this run has been written to since [w0]. *)
Definition release_stamped (i : input) (w0 w : world) : Prop :=
  ∃ t, releases (fs w) !! Deploy.TIMESTAMP i = Some t ∧ clock w0 ≤ t.

(** [current] names the release directory of this run, provided the [ln] of
    the switch reports success. *)
Definition release_linked (i : input) (o : oracle) (s : settings) (w : world) : Prop :=
  status o (ALn (Deploy.RELEASE_DIR i s) (Deploy.CURRENT s)) = 0 →
  current (fs w) = Some (Deploy.RELEASE_DIR i s).

(** What a deployment to [s] keeps from [w0] on: it changes nothing but its
    own release and backup, and [current] is as it was or names one of the
    two. *)
Definition deploy_kept (i : input) (s : settings) (w0 w : world) : Prop :=
  own_only i w0 w
  ∧ (current (fs w) = current (fs w0)
     ∨ current (fs w) = Some (Deploy.RELEASE_DIR i s)
     ∨ current (fs w) = Some (Deploy.BACKUP i s)).

(** The commands that fill the release directory have all reported success:
    [mkdir -p], [rsync], [scp] of the package files, and [npm ci] (run in the
    release directory, or in the login directory when the [cd] before it
    failed). *)
Definition upload_ok (i : input) (o : oracle) (s : settings) : Prop :=
  status o (AMkdir (Deploy.RELEASE_DIR i s)) = 0
  ∧ status o (ARsync (Deploy.BUILD_DIR +:+ "/")
                     (Deploy.host i s +:+ ":" +:+ Deploy.RELEASE_DIR i s +:+ "/")) = 0
  ∧ status o (AScp ["package.json"; "package-lock.json"]
                   (Deploy.host i s +:+ ":" +:+ Deploy.RELEASE_DIR i s +:+ "/")) = 0
  ∧ status o (ANpmCi (if status o (ACd (Deploy.RELEASE_DIR i s)) =? 0
                      then Deploy.RELEASE_DIR i s else "~")) = 0.

Definition is_ln (a : action) : bool :=
  match a with
  | ALn _ _ => true
  | _ => false
  end.

(** [deploy.sh staging] with a Slack webhook configured. *)
Definition notified : input :=
  Input "staging" "" "" "203.0.113.10" "198.51.100.7" "" ""
        "https://hooks.slack.example/services/T000" true "20240107_120000".

(** The Slack webhook cannot be resolved (curl exit 6); all else is well. *)
Definition slack_down : oracle :=
  Oracle (λ a, match a with APost _ _ => 6 | _ => 0 end)
         (λ _, Responded 200) (Some "yes").

(** The upload breaks off (rsync exit 23); all else is well. *)
Definition rsync_fails : oracle :=
  Oracle (λ a, match a with ARsync _ _ => 23 | _ => 0 end)
         (λ _, Responded 200) (Some "yes").

(* ===================================================================== *)
(** * src/routes/health.js: the helper of the detailed report             *)
(* ===================================================================== *)

(** Numbers are the rationals they denote; the rounding of the floating-point
    divisions is not modelled. *)
Module Detailed.
  (** [Math.floor] *)
Definition Math_floor (x : Q) : Z := Qfloor x.

(** [x % n] for a positive integer literal [n]: the quotient is truncated
    towards zero, so that the remainder takes the sign of [x]. *)
Definition rem (x : Q) (n : Z) : Q :=
  let quotient := if Qle_bool 0 x then Qfloor (x / inject_Z n)
                  else Qceiling (x / inject_Z n) in
  (x - inject_Z (n * quotient))%Q.

(** The four constants of [formatUptime]. *)
Record parts := Parts { days : Z; hours : Z; minutes : Z; secs : Z }.

Definition split (seconds : Q) : parts :=
  Parts (Math_floor (seconds / inject_Z 86400))
        (Math_floor (rem seconds 86400 / inject_Z 3600))
        (Math_floor (rem seconds 3600 / inject_Z 60))
        (Math_floor (rem seconds 60)).

(** [function formatUptime(seconds)] *)
Definition formatUptime (seconds : Q) : string :=
  let p := split seconds in
  pretty (days p) +:+ "d " +:+ pretty (hours p) +:+ "h "
  +:+ pretty (minutes p) +:+ "m " +:+ pretty (secs p) +:+ "s".
End Detailed.

(** [GET /health/ready], as a readiness probe sends it. *)
Definition probe_ready : Health.request := Health.Request Health.GET "/ready" [].

(* ===================================================================== *)
(** * setup-cicd.sh: the CI/CD setup script                               *)
(* ===================================================================== *)

(** The script works in the project directory of the caller.  Its tree is a
    finite map from relative paths to entries; a here-document is kept by the
    name of the file it is written to, not by its text.  As for the other
    scripts, an external command takes its exit status from an oracle and
    changes nothing when it fails, and log lines are kept without colour
    escapes and glyphs. *)
Module Setup.
Inductive text :=
| Heredoc (file : string)       (* the here-document the script holds for [file] *)
| NpmInit                       (* the package.json of [npm init -y] *)
| WithScripts (old : text)      (* package.json after the node program set its scripts *)
| Given (content : string).     (* anything the script did not write *)

Inductive entry :=
| Dir
| File (t : text).

Abbreviation tree := (gmap string entry).

(** [[ -f p ]] and [[ -d p ]] *)
Definition is_file (t : tree) (p : string) : bool :=
  match t !! p with Some (File _) => true | _ => false end.

Definition is_dir (t : tree) (p : string) : bool :=
  match t !! p with Some Dir => true | _ => false end.

(** The directories on the way to [p], [p] included: for [a/b/c], the
    paths [a], [a/b] and [a/b/c]. *)
Fixpoint components (acc p : string) : list string :=
  match p with
  | EmptyString => [acc]
  | String c p' =>
      if String.eqb (String c EmptyString) "/" then acc :: components (acc +:+ "/") p'
      else components (acc +:+ String c EmptyString) p'
  end.

(** [mkdir -p p]: creates what is missing on the way and leaves what is
    there as it is. *)
Definition make (t : tree) (d : string) : tree :=
  match t !! d with
  | None => <[d := Dir]> t
  | Some _ => t
  end.

Definition mkdir_p (p : string) (t : tree) : tree :=
  foldl make t (components "" p).

(** [mkdir -p p] cannot work when a file is in the way. *)
Definition blocked (p : string) (t : tree) : bool :=
  existsb (is_file t) (components "" p).

(** The directory a file at [p] lies in; [None] is the project directory. *)
Definition parent (p : string) : option string :=
  last (removelast (components "" p)).

(** [cat > p] needs the directory of [p], and [p] not to be a directory. *)
Definition writable (p : string) (t : tree) : bool :=
  negb (is_dir t p)
  && match parent p with
     | None => true
     | Some d => is_dir t d
     end.

Definition write (p : string) (x : text) (t : tree) : tree := <[p := File x]> t.

Inductive command :=
| Mkdir (path : string)
| Cat (path : string)
| NpmInitY
| NodeE
| Chmod (args : list string)
| ReadP (prompt : string).

Record oracle := Oracle {
  status : command → nat;      (* exit status of an external command *)
  answer : option string       (* the standard input at the prompt: the text before
                                  its last newline; None when it holds no newline *)
}.

Record world := World {
  files  : tree;
  ran    : list command;       (* commands run so far, oldest first *)
  stdout : list string
}.

Definition Script (A : Type) : Type := world → result A * world.

Definition ret {A} (a : A) : Script A := λ w, (Next a, w).

Definition bind {A B} (c : Script A) (k : A → Script B) : Script B :=
  λ w, match c w with
       | (Next a, w') => k a w'
       | (Exit n, w') => (Exit n, w')
       | (OutOfFuel, w') => (OutOfFuel, w')
       end.

Definition exit {A} (code : nat) : Script A := λ w, (Exit code, w).

Declare Scope setup_scope.
Notation "x <- c ;; k" := (bind c (λ x, k))
  (at level 100, c at next level, right associativity) : setup_scope.
Notation "c ;; k" := (bind c (λ _, k))
  (at level 100, right associativity) : setup_scope.
Local Open Scope setup_scope.

(** [set -e] *)
Definition sh (c : Script nat) : Script nat :=
  s <- c ;; if s =? 0 then ret s else exit s.

Definition echo (line : string) : Script nat :=
  λ w, (Next 0, World (files w) (ran w) (stdout w ++ [line])).

Definition gets {A} (f : tree → A) : Script A := λ w, (Next (f (files w)), w).

Section Commands.
Variable o : oracle.

Definition run (c : command) (effect : tree → tree) : Script nat :=
  λ w, let s := status o c in
       (Next s, World (if s =? 0 then effect (files w) else files w)
                      (ran w ++ [c]) (stdout w)).

(** A command that fails on its own account, whatever the oracle. *)
Definition fails (c : command) (s : nat) : Script nat :=
  λ w, (Next s, World (files w) (ran w ++ [c]) (stdout w)).

Definition mkdir (p : string) : Script nat :=
  stuck <- gets (blocked p) ;;
  if stuck : bool then fails (Mkdir p) 1 else run (Mkdir p) (mkdir_p p).

(** [cat > p << 'EOF' ... EOF] *)
Definition cat (p : string) : Script nat :=
  ok <- gets (writable p) ;;
  if ok : bool then run (Cat p) (write p (Heredoc p)) else fails (Cat p) 1.

(** [read -p prompt VAR], as in the other scripts. *)
Definition read_p (prompt : string) : Script (option string) :=
  λ w, (Next (answer o ≫= read_value),
        World (files w) (ran w ++ [ReadP prompt]) (stdout w)).

(** Lines 15 to 18. *)
Definition banner : Script nat :=
  echo "================================" ;;
  echo "CI/CD Setup Script" ;;
  echo "================================" ;;
  echo "".

(** Returns PLATFORM_CHOICE. *)
Definition detect_platform : Script string :=
  echo "Select your CI/CD platform:" ;;
  echo "1) GitHub Actions" ;;
  echo "2) GitLab CI/CD" ;;
  echo "3) Jenkins" ;;
  echo "4) CircleCI" ;;
  echo "5) All (create configs for all platforms)" ;;
  line <- read_p "Enter choice [1-5]: " ;;
  match line with
  | None => exit 1                          (* read fails, set -e *)
  | Some PLATFORM_CHOICE => ret PLATFORM_CHOICE
  end.

Definition create_directories : Script nat :=
  echo "Creating directory structure..." ;;
  sh (mkdir ".github/workflows") ;;
  sh (mkdir "scripts") ;;
  sh (mkdir ".ci") ;;
  sh (mkdir "tests/unit") ;;
  sh (mkdir "tests/integration") ;;
  sh (mkdir "tests/e2e") ;;
  echo "Directories created".

Definition setup_github_actions : Script nat :=
  echo "Setting up GitHub Actions..." ;;
  there <- gets (λ t, is_file t ".github/workflows/ci-cd.yml") ;;
  if negb there then
    sh (cat ".github/workflows/ci-cd.yml") ;;
    echo "GitHub Actions workflow created"
  else echo "GitHub Actions workflow already exists".

Definition setup_gitlab_ci : Script nat :=
  echo "Setting up GitLab CI/CD..." ;;
  there <- gets (λ t, is_file t ".gitlab-ci.yml") ;;
  if negb there then
    sh (cat ".gitlab-ci.yml") ;;
    echo "GitLab CI configuration created"
  else echo "GitLab CI configuration already exists".

Definition setup_jenkins : Script nat :=
  echo "Setting up Jenkins..." ;;
  there <- gets (λ t, is_file t "Jenkinsfile") ;;
  if negb there then
    sh (cat "Jenkinsfile") ;;
    echo "Jenkinsfile created"
  else echo "Jenkinsfile already exists".

Definition setup_circleci : Script nat :=
  echo "Setting up CircleCI..." ;;
  sh (mkdir ".circleci") ;;
  there <- gets (λ t, is_file t ".circleci/config.yml") ;;
  if negb there then
    sh (cat ".circleci/config.yml") ;;
    echo "CircleCI configuration created"
  else echo "CircleCI configuration already exists".

(** [npm init -y] writes a package.json, which it cannot do onto a
    directory. *)
Definition npm_init : Script nat :=
  dir <- gets (λ t, is_dir t "package.json") ;;
  if dir : bool then fails NpmInitY 1
  else run NpmInitY (write "package.json" NpmInit).

(** The node program reads package.json, sets its scripts and writes it
    back; without a package.json it throws. *)
Definition setup_npm_scripts : Script nat :=
  echo "Setting up npm scripts..." ;;
  there <- gets (λ t, is_file t "package.json") ;;
  (if negb there then sh npm_init else ret 0) ;;
  pkg <- gets (λ t, t !! "package.json") ;;
  sh (match pkg with
      | Some (File old) => run NodeE (write "package.json" (WithScripts old))
      | _ => fails NodeE 1
      end) ;;
  echo "npm scripts configured".

Definition create_deployment_scripts : Script nat :=
  echo "Creating deployment scripts..." ;;
  (run (Chmod ["+x"; "scripts/*.sh"]) (λ t, t) ;; ret 0) ;;     (* || true *)
  echo "Deployment scripts ready".

Definition setup_docker : Script nat :=
  echo "Setting up Docker configuration..." ;;
  there <- gets (λ t, is_file t "Dockerfile") ;;
  (if negb there then sh (cat "Dockerfile") ;; echo "Dockerfile created" else ret 0) ;;
  there <- gets (λ t, is_file t ".dockerignore") ;;
  if negb there then sh (cat ".dockerignore") ;; echo ".dockerignore created"
  else ret 0.

Definition create_env_templates : Script nat :=
  echo "Creating environment file templates..." ;;
  there <- gets (λ t, is_file t ".env.example") ;;
  if negb there then sh (cat ".env.example") ;; echo ".env.example created"
  else ret 0.

Definition setup_git_hooks : Script nat :=
  echo "Setting up Git hooks..." ;;
  repo <- gets (λ t, is_dir t ".git") ;;
  if repo : bool then
    sh (cat ".git/hooks/pre-commit") ;;
    sh (run (Chmod ["+x"; ".git/hooks/pre-commit"]) (λ t, t)) ;;
    echo "Git hooks configured"
  else echo "Not a git repository, skipping git hooks".

(** [case $PLATFORM_CHOICE in ... esac] *)
Definition platform_case (PLATFORM_CHOICE : string) : Script nat :=
  if String.eqb PLATFORM_CHOICE "1" then setup_github_actions
  else if String.eqb PLATFORM_CHOICE "2" then setup_gitlab_ci
  else if String.eqb PLATFORM_CHOICE "3" then setup_jenkins
  else if String.eqb PLATFORM_CHOICE "4" then setup_circleci
  else if String.eqb PLATFORM_CHOICE "5" then
    setup_github_actions ;; setup_gitlab_ci ;; setup_jenkins ;; setup_circleci
  else
    echo "Invalid choice" ;; exit 1.

Definition report : Script nat :=
  echo "" ;;
  echo "================================" ;;
  echo "Setup Complete!" ;;
  echo "================================" ;;
  echo "" ;;
  echo "Next steps:" ;;
  echo "1. Review and customize the generated CI/CD configurations" ;;
  echo "2. Set up required secrets in your CI/CD platform" ;;
  echo "3. Update deployment scripts with your infrastructure details" ;;
  echo "4. Configure your test commands in package.json" ;;
  echo "5. Commit and push to trigger your first pipeline" ;;
  echo "" ;;
  echo "Important:" ;;
  echo "- Add sensitive information to .env (not .env.example)" ;;
  echo "- Never commit secrets or .env files to version control" ;;
  echo "- Update the placeholder deployment commands" ;;
  echo "".

Definition main : Script nat :=
  PLATFORM_CHOICE <- detect_platform ;;
  create_directories ;;
  platform_case PLATFORM_CHOICE ;;
  setup_npm_scripts ;;
  create_deployment_scripts ;;
  setup_docker ;;
  create_env_templates ;;
  setup_git_hooks ;;
  report.

(** The whole script: the banner, then [main]. *)
Definition setup : Script nat := banner ;; main.
End Commands.

(** Weakest precondition, as for the other scripts. *)
Definition wp {A} (c : Script A) (Q : A → world → Prop) (E : nat → world → Prop)
    (w : world) : Prop :=
  match c w with
  | (Next a, w') => Q a w'
  | (Exit n, w') => E n w'
  | (OutOfFuel, _) => False
  end.

(** What the script can make of a tree: it creates directories, writes a
    here-document where no regular file is, and rewrites package.json and
    the pre-commit hook. *)
Inductive reach (t0 : tree) : tree → Prop :=
| reach_refl : reach t0 t0
| reach_mkdir t p : reach t0 t → reach t0 (mkdir_p p t)
| reach_cat t p :
    reach t0 t → is_file t p = false → writable p t = true →
    reach t0 (write p (Heredoc p) t)
| reach_hook t :
    reach t0 t → writable ".git/hooks/pre-commit" t = true →
    reach t0 (write ".git/hooks/pre-commit" (Heredoc ".git/hooks/pre-commit") t)
| reach_package t x :
    reach t0 t → is_dir t "package.json" = false →
    reach t0 (write "package.json" x t).

(** Every regular file of [t0] other than package.json and the pre-commit
    hook is in [t] with its text. *)
Definition kept (t0 t : tree) : Prop :=
  ∀ p x, t0 !! p = Some (File x) →
         p ≠ "package.json" → p ≠ ".git/hooks/pre-commit" →
         t !! p = Some (File x).

(** No regular file and no directory of [t0] has gone or changed its
    kind. *)
Definition grown (t0 t : tree) : Prop :=
  (∀ p, is_file t0 p = true → is_file t p = true)
  ∧ (∀ p, is_dir t0 p = true → is_dir t p = true).

(** No regular file has been written or removed. *)
Definition same_files (t0 t : tree) : Prop :=
  ∀ p x, t !! p = Some (File x) ↔ t0 !! p = Some (File x).

Definition prepares (c : command) : bool :=
  match c with
  | Mkdir _ | ReadP _ => true
  | _ => false
  end.

(** The directories of [create_directories] and the files every completed
    run leaves behind. *)
Definition directories : list string :=
  [".github/workflows"; "scripts"; ".ci"; "tests/unit"; "tests/integration"; "tests/e2e"].

Definition common_files : list string :=
  ["package.json"; "Dockerfile"; ".dockerignore"; ".env.example"].

(** A part of the script, from [w]: wherever it ends it has only made of
    the tree what the script can make of it; where it stops the script, the
    status is not 0; where it hands over, the files [fs] and the
    directories [ds] are there. *)
Definition ensures (c : Script nat) (fs ds : list string) (w : world) : Prop :=
  wp c (λ _ w', reach (files w) (files w')
                ∧ Forall (λ p, is_file (files w') p = true) fs
                ∧ Forall (λ d, is_dir (files w') d = true) ds)
       (λ n w', n ≠ 0 ∧ reach (files w) (files w'))
       w.

(** The configuration file of each platform. *)
Definition platform_file (choice : string) : list string :=
  if String.eqb choice "1" then [".github/workflows/ci-cd.yml"]
  else if String.eqb choice "2" then [".gitlab-ci.yml"]
  else if String.eqb choice "3" then ["Jenkinsfile"]
  else if String.eqb choice "4" then [".circleci/config.yml"]
  else if String.eqb choice "5" then
    [".github/workflows/ci-cd.yml"; ".gitlab-ci.yml"; "Jenkinsfile"; ".circleci/config.yml"]
  else [].

(** An empty project directory, and one that has a Jenkinsfile and a
    package.json of its own. *)
Definition empty_project : world := World ∅ [] [].

Definition project : world :=
  World (list_to_map [("Jenkinsfile", File (Given "pipeline { agent any }"));
                      ("package.json", File (Given "{}"));
                      (".git", Dir); (".git/hooks", Dir)])
        [] [].

(** Every command succeeds; the caller types [choice]. *)
Definition obliging (choice : string) : oracle := Oracle (λ _, 0) (Some choice).
End Setup.

Arguments curl_f : simpl never.
Arguments pretty : simpl never.
Arguments rm_rf : simpl never.
Arguments tail_from : simpl never.

(* ===================================================================== *)
(** * Paths                                                               *)
(* ===================================================================== *)

Lemma app_cons a s t : String a s +:+ t = String a (s +:+ t).
Proof. reflexivity. Qed.

Lemma app_assoc_s (a b c : string) : (a +:+ b) +:+ c = a +:+ (b +:+ c).
Proof. induction a as [|x a IH]; [done|]. rewrite !app_cons. by rewrite IH. Qed.

Lemma strip_prefix_app p s : strip_prefix p (p +:+ s) = Some s.
Proof.
  induction p as [|a p IH]; [done|].
  rewrite app_cons. simpl. by rewrite Ascii.eqb_refl.
Qed.

Lemma locate_current root : locate root (root +:+ "/current") = Some Current.
Proof.
  unfold locate.
  replace (root +:+ "/current") with ((root +:+ "/") +:+ "current")
    by (by rewrite app_assoc_s).
  by rewrite strip_prefix_app.
Qed.

Lemma locate_release root id :
  locate root (root +:+ "/releases/" +:+ id) = Some (InReleases id).
Proof.
  unfold locate.
  replace (root +:+ "/releases/" +:+ id) with ((root +:+ "/") +:+ "releases/" +:+ id)
    by (by rewrite app_assoc_s).
  rewrite strip_prefix_app. simpl. reflexivity.
Qed.

Lemma locate_backup root ts :
  locate root (root +:+ "/backup_" +:+ ts) = Some (AtRoot ("backup_" +:+ ts)).
Proof.
  unfold locate.
  replace (root +:+ "/backup_" +:+ ts)
    with ((root +:+ "/") +:+ "backup_" +:+ ts) by (by rewrite app_assoc_s).
  rewrite strip_prefix_app. simpl. reflexivity.
Qed.

Lemma locate_snapshot root ts :
  locate root (root +:+ "/rollback_backup_" +:+ ts)
  = Some (AtRoot ("rollback_backup_" +:+ ts)).
Proof.
  unfold locate.
  replace (root +:+ "/rollback_backup_" +:+ ts)
    with ((root +:+ "/") +:+ "rollback_backup_" +:+ ts) by (by rewrite app_assoc_s).
  rewrite strip_prefix_app. simpl. reflexivity.
Qed.

(* ===================================================================== *)
(** * Reasoning about scripts                                             *)
(* ===================================================================== *)

Lemma wp_bind {A B} (c : Script A) (k : A → Script B) Q E w :
  wp c (λ a w', wp (k a) Q E w') E w → wp (x <- c ;; k x) Q E w.
Proof. unfold wp, bind. by destruct (c w) as [[a|n|] w']. Qed.

Lemma wp_wand {A} (c : Script A) (Q Q' : A → world → Prop) (E E' : nat → world → Prop) w :
  wp c Q E w →
  (∀ a w', Q a w' → Q' a w') →
  (∀ n w', E n w' → E' n w') →
  wp c Q' E' w.
Proof. unfold wp. destruct (c w) as [[a|n|] w']; auto. Qed.

Lemma wp_run {A} (c : Script A) Q E w :
  wp c Q E w →
  match (c w).1 with
  | Next a => Q a (c w).2
  | Exit n => E n (c w).2
  | OutOfFuel => False
  end.
Proof. unfold wp. by destruct (c w) as [[a|n|] w']. Qed.

(** A run is known by its outcome and the world it leaves. *)
Lemma run_next {A} (c : Script A) (w : world) (a : A) :
  (c w).1 = Next a → c w = (Next a, (c w).2).
Proof. destruct (c w) as [r w']. simpl. by intros ->. Qed.

(** [c] then the rest, through a lemma about [c]. *)
Ltac wp_use H :=
  eapply wp_wand; [eapply H; eauto | cbv beta; intros ? ? ? | cbv beta; intros ? ? ?].

Ltac wp_seq H := apply wp_bind; wp_use H.

(* ===================================================================== *)
(** * Facts about the tree                                                *)
(* ===================================================================== *)

Lemma test_d_release root r id :
  test_d root r (root +:+ "/releases/" +:+ id) = has (releases r) id.
Proof. unfold test_d, is_real_dir. by rewrite locate_release. Qed.

Lemma test_d_backup root r ts :
  test_d root r (root +:+ "/backup_" +:+ ts) = has (toplevel r) ("backup_" +:+ ts).
Proof. unfold test_d, is_real_dir. by rewrite locate_backup. Qed.

Lemma has_insert (d : dir) n t : has (<[n := t]> d) n = true.
Proof. unfold has. by rewrite lookup_insert_eq. Qed.

Lemma has_insert_mono (d : dir) n m t : has d m = true → has (<[n := t]> d) m = true.
Proof.
  unfold has. intros H. destruct (decide (n = m)) as [->|Hne].
  - by rewrite lookup_insert_eq.
  - by rewrite lookup_insert_ne.
Qed.

Lemma mkdir_p_release root id now r :
  mkdir_p root (root +:+ "/releases/" +:+ id) now r
  = if has (releases r) id then r
    else Remote (<[id := now]> (releases r)) (toplevel r) (current r).
Proof. unfold mkdir_p. by rewrite locate_release. Qed.

Lemma write_into_release root id now r :
  write_into root (root +:+ "/releases/" +:+ id) now r
  = if has (releases r) id
    then Remote (<[id := now]> (releases r)) (toplevel r) (current r)
    else r.
Proof. unfold write_into. by rewrite locate_release. Qed.

Lemma cp_r_backup root ts now r :
  cp_r root (root +:+ "/backup_" +:+ ts) now r
  = Remote (releases r) (<["backup_" +:+ ts := now]> (toplevel r)) (current r).
Proof. unfold cp_r. by rewrite locate_backup. Qed.

Lemma cp_r_snapshot root ts now r :
  cp_r root (root +:+ "/rollback_backup_" +:+ ts) now r
  = Remote (releases r) (<["rollback_backup_" +:+ ts := now]> (toplevel r)) (current r).
Proof. unfold cp_r. by rewrite locate_snapshot. Qed.

Lemma grows_refl r : grows r r.
Proof. by repeat split. Qed.

Lemma grows_test_d root r r' p :
  grows r r' → test_d root r p = true → test_d root r' p = true.
Proof.
  intros (Hrel & Htop & Hcur). unfold test_d, is_real_dir. rewrite Hcur.
  destruct (locate root p) as [[| |]|]; try done; auto.
  destruct (current r) as [t|]; [|done].
  destruct (locate root t) as [[| |]|]; try done; auto.
Qed.

Lemma grows_cp_r root dst now r : grows r (cp_r root dst now r).
Proof.
  unfold cp_r. destruct (locate root dst) as [[| |]|]; try apply grows_refl;
    repeat split; simpl; auto using has_insert_mono.
Qed.

(* ===================================================================== *)
(** * The health loop                                                     *)
(* ===================================================================== *)

Lemma trace_record a w fs' c' out' :
  trace (World fs' c' (record a w) out') = trace w ++ [a].
Proof. unfold trace, record. simpl. by rewrite fmap_app. Qed.

Section HealthLoop.
Variable o : oracle.
Variables url passed retry : string.
Variable exhausted : Script unit.

Lemma failed_attempt k :
  curl_f (probe o k) ≠ 0 → (curl_f (probe o k) =? 0) = false.
Proof. by intros ?%Nat.eqb_neq. Qed.

Lemma health_check_fifth w :
  (∀ k, 1 ≤ k ≤ 4 → curl_f (probe o k) ≠ 0) →
  curl_f (probe o 5) = 0 →
  ∃ w', health_check o url passed retry exhausted w = (Next tt, w')
        ∧ fs w' = fs w
        ∧ trace w' = trace w ++ five_attempts url
        ∧ last (stdout w') = Some ("[INFO] " +:+ passed).
Proof.
  intros Hfail Hok.
  unfold health_check. simpl. unfold bind. simpl.
  rewrite !failed_attempt by (apply Hfail; lia). simpl.
  rewrite Hok. simpl.
  eexists. split; [reflexivity|]. simpl. split; [done|]. split.
  - unfold trace, record, five_attempts. simpl.
    rewrite !fmap_app. simpl. by rewrite <- !app_assoc.
  - by rewrite last_snoc.
Qed.

Lemma health_check_exhausted w :
  (∀ k, 1 ≤ k ≤ 5 → curl_f (probe o k) ≠ 0) →
  ∃ w5, fs w5 = fs w
        ∧ trace w5 = trace w ++ five_attempts url
        ∧ health_check o url passed retry exhausted w
          = (exhausted ;; exit 1) w5.
Proof.
  intros Hfail.
  unfold health_check. simpl. unfold bind. simpl.
  rewrite !failed_attempt by (apply Hfail; lia). simpl.
  eexists. split; [|split; [|reflexivity]]; simpl; [done|].
  unfold trace, record, five_attempts. simpl.
  rewrite !fmap_app. simpl. by rewrite <- !app_assoc.
Qed.
End HealthLoop.

(** The loop keeps whatever its steps and its failure branch keep, and never
    runs out of fuel. *)
Lemma health_check_keeps (I : world → Prop) o url passed retry exhausted :
  (∀ w l, I w → I (World (fs w) (clock w) (timeline w) (stdout w ++ [l]))) →
  (∀ w a, is_attempt a = true → I w →
          I (World (fs w) (clock w) (record a w) (stdout w))) →
  (∀ w, I w → wp exhausted (λ _, I) (λ _, I) w) →
  ∀ w, I w → wp (health_check o url passed retry exhausted) (λ _, I) (λ _, I) w.
Proof.
  intros Hlog Hact Hex. unfold health_check.
  assert (∀ fuel k w, S (S MAX_ATTEMPTS) ≤ fuel + k → k ≤ S MAX_ATTEMPTS → I w →
            wp (health_loop o fuel k url passed retry exhausted)
               (λ _, I) (λ _, I) w) as Hloop.
  { induction fuel as [|fuel IH]; intros k w Hsum Hk HI.
    { unfold MAX_ATTEMPTS in *. lia. }
    simpl. destruct (k <=? MAX_ATTEMPTS) eqn:Hle; [|done].
    pose proof (Hlog w ("[INFO] " +:+ "Health check attempt " +:+ pretty k +:+ "/"
                         +:+ pretty MAX_ATTEMPTS +:+ "...") HI) as HI1.
    pose proof (Hact _ (ACurl url) eq_refl HI1) as HI2.
    apply wp_bind. unfold wp at 1, log_info, echo.
    apply wp_bind. unfold wp at 1, curl_health.
    destruct (curl_f (probe o k) =? 0).
    - apply wp_bind. unfold wp, log_info, echo, ret.
      exact (Hlog _ _ HI2).
    - destruct (k =? MAX_ATTEMPTS) eqn:Hlast.
      + apply wp_bind. eapply wp_wand; [apply Hex; exact HI2|done|done].
      + apply wp_bind. unfold wp at 1, log_warn, echo.
        apply wp_bind. unfold wp at 1, sleep.
        apply Nat.leb_le in Hle. apply Nat.eqb_neq in Hlast.
        apply IH; [lia|lia|].
        exact (Hact _ (ASleep 10) eq_refl (Hlog _ _ HI2)). }
  intros w HI. apply Hloop; [unfold MAX_ATTEMPTS; lia..|done].
Qed.

Ltac exec :=
  unfold sh, ssh, cp, log_info, log_warn, log_error;
  unfold echo, print, run, fails, gets, sleep, curl_health, read_p, no_effect,
    ret, exit, bind;
  simpl.

(** Case analysis on the innermost test the goal is stuck on. *)
Ltac case_inner :=
  match goal with
  | |- context [match ?x with _ => _ end] =>
      lazymatch x with
      | context [match _ with _ => _ end] => fail
      | _ => destruct x eqn:?
      end
  end; simpl; try discriminate.

Lemma trace_app_nil w w' :
  timeline w' = timeline w → trace w' = trace w ++ [].
Proof. intros H. unfold trace. by rewrite H, app_nil_r. Qed.

Section Handlers.
Variable i : input.
Variable o : oracle.
Variable s : settings.

Lemma revert_runs w :
  ∃ w' rest, Deploy.revert i o s w = (Next tt, w')
    ∧ trace w' = trace w ++ rest
    ∧ Forall (λ a, is_attempt a = false) rest
    ∧ "[ERROR] Health check failed after 5 attempts" ∈ stdout w'.
Proof.
  unfold Deploy.revert. exec.
  destruct (test_d (REMOTE_PATH s) (fs w) (Deploy.BACKUP i s)); simpl.
  - eexists _, [ALn (Deploy.BACKUP i s) (Deploy.CURRENT s); APm2 ["restart"; PM2_APP_NAME s]].
    split; [reflexivity|]. simpl.
    split; [|split; [by repeat constructor|set_solver]].
    unfold trace, record; simpl. rewrite !fmap_app. simpl. by rewrite <- !app_assoc.
  - eexists _, []. split; [reflexivity|]. simpl.
    split; [by apply trace_app_nil|]. split; [constructor|set_solver].
Qed.

Lemma alert_runs w :
  ∃ w' rest, Rollback.alert i o w = (Next tt, w')
    ∧ trace w' = trace w ++ rest
    ∧ Forall (λ a, is_attempt a = false) rest
    ∧ "[ERROR] Health check failed after rollback!" ∈ stdout w'.
Proof.
  unfold Rollback.alert. exec.
  destruct (negb (String.eqb (SLACK_WEBHOOK_URL i) "")); simpl.
  - eexists _, [APost (SLACK_WEBHOOK_URL i)
      ("CRITICAL: Rollback health check failed on *" +:+ Rollback.ENVIRONMENT i +:+ "*")].
    split; [reflexivity|]. simpl.
    split; [|split; [by repeat constructor|set_solver]].
    unfold trace, record; simpl. by rewrite !fmap_app.
  - eexists _, []. split; [reflexivity|]. simpl.
    split; [by apply trace_app_nil|]. split; [constructor|set_solver].
Qed.
End Handlers.

(** C3. In both scripts the health loop stops at the first success and at the
    fifth failure: four failures then a success give five requests, ten
    seconds apart, and a pass; five failures give five requests, then the
    failure branch (which issues no further request) and exit 1. *)
Theorem health_poll_five_attempts (i : input) (o : oracle) (s : settings) (w : world) :
  ((∀ k, 1 ≤ k ≤ 4 → curl_f (probe o k) ≠ 0) → curl_f (probe o 5) = 0 →
     (∃ w', Deploy.poll i o s w = (Next tt, w')
            ∧ trace w' = trace w ++ five_attempts (HEALTH_CHECK_URL s)
            ∧ last (stdout w') = Some "[INFO] Health check passed!")
     ∧ (∃ w', Rollback.poll i o s w = (Next tt, w')
            ∧ trace w' = trace w ++ five_attempts (HEALTH_CHECK_URL s)
            ∧ last (stdout w') = Some "[INFO] Health check passed!"))
  ∧ ((∀ k, 1 ≤ k ≤ 5 → curl_f (probe o k) ≠ 0) →
     (∃ w' rest, Deploy.poll i o s w = (Exit 1, w')
            ∧ trace w' = trace w ++ five_attempts (HEALTH_CHECK_URL s) ++ rest
            ∧ Forall (λ a, is_attempt a = false) rest
            ∧ "[ERROR] Health check failed after 5 attempts" ∈ stdout w')
     ∧ (∃ w' rest, Rollback.poll i o s w = (Exit 1, w')
            ∧ trace w' = trace w ++ five_attempts (HEALTH_CHECK_URL s) ++ rest
            ∧ Forall (λ a, is_attempt a = false) rest
            ∧ "[ERROR] Health check failed after rollback!" ∈ stdout w')).
Proof.
  split.
  - intros Hfail Hok. split.
    + unfold Deploy.poll.
      set (w1 := (log_info "Running health check..." w).2).
      destruct (health_check_fifth o (HEALTH_CHECK_URL s) "Health check passed!"
                  "Health check failed, retrying in 10 seconds..."
                  (Deploy.revert i o s) w1 Hfail Hok) as (w' & Hrun & _ & Htr & Hout).
      exists w'. split; [|split; [|done]].
      * unfold bind at 1. simpl. exact Hrun.
      * by rewrite Htr.
    + unfold Rollback.poll.
      set (w1 := (log_info "Running health check..." w).2).
      destruct (health_check_fifth o (HEALTH_CHECK_URL s) "Health check passed!"
                  "Health check failed, retrying..."
                  (Rollback.alert i o) w1 Hfail Hok) as (w' & Hrun & _ & Htr & Hout).
      exists w'. split; [|split; [|done]].
      * unfold bind at 1. simpl. exact Hrun.
      * by rewrite Htr.
  - intros Hfail. split.
    + unfold Deploy.poll.
      set (w1 := (log_info "Running health check..." w).2).
      destruct (health_check_exhausted o (HEALTH_CHECK_URL s) "Health check passed!"
                  "Health check failed, retrying in 10 seconds..."
                  (Deploy.revert i o s) w1 Hfail) as (w5 & _ & Htr & Hrun).
      destruct (revert_runs i o s w5) as (w' & rest & Hrev & Htr' & Hrest & Hout).
      exists w', rest. split; [|split; [|done]].
      * etransitivity; [exact Hrun|]. unfold bind. by rewrite Hrev.
      * rewrite Htr', Htr. by rewrite <- app_assoc.
    + unfold Rollback.poll.
      set (w1 := (log_info "Running health check..." w).2).
      destruct (health_check_exhausted o (HEALTH_CHECK_URL s) "Health check passed!"
                  "Health check failed, retrying..."
                  (Rollback.alert i o) w1 Hfail) as (w5 & _ & Htr & Hrun).
      destruct (alert_runs i o w5) as (w' & rest & Hrev & Htr' & Hrest & Hout).
      exists w', rest. split; [|split; [|done]].
      * etransitivity; [exact Hrun|]. unfold bind. by rewrite Hrev.
      * rewrite Htr', Htr. by rewrite <- app_assoc.
Qed.

Lemma extends_refl root t : extends root t t.
Proof. exists []. by rewrite app_nil_r. Qed.

Lemma extends_record root t0 a w :
  extends root t0 (timeline w) → link_ok root (a, fs w) → extends root t0 (record a w).
Proof.
  intros (new & Heq & Hnew) Ha. exists (new ++ [(a, fs w)]). unfold record.
  split; [by rewrite Heq, app_assoc|]. apply Forall_app. by repeat constructor.
Qed.

Lemma prefix_app p s : String.prefix p (p +:+ s) = true.
Proof.
  induction p as [|a p IH]; [by destruct s|].
  rewrite app_cons. simpl. by destruct (Ascii.ascii_dec a a).
Qed.

Lemma others_kept_refl r : others_kept r r.
Proof. done. Qed.

Lemma others_kept_releases r0 r rel cur :
  others_kept r0 r → others_kept r0 (Remote rel (toplevel r) cur).
Proof. done. Qed.

Lemma others_kept_ln r0 r t : others_kept r0 r → others_kept r0 (ln_sfn t r).
Proof. done. Qed.

Lemma others_kept_backup r0 r rel cur ts now :
  others_kept r0 r →
  others_kept r0 (Remote rel (<["backup_" +:+ ts := now]> (toplevel r)) cur).
Proof.
  intros H n Hn. simpl. rewrite lookup_insert_ne; [by apply H|].
  intros <-. by rewrite prefix_app in Hn.
Qed.

(* ===================================================================== *)
(** * Listings and pruning                                                *)
(* ===================================================================== *)

Lemma insert_newest_perm e l : insert_newest e l ≡ₚ e :: l.
Proof.
  induction l as [|x l IH]; [done|]. simpl.
  destruct (x.2 <=? e.2); [done|]. rewrite IH. apply Permutation_swap.
Qed.

Lemma sort_newest_perm l : sort_newest l ≡ₚ l.
Proof.
  induction l as [|x l IH]; [done|]. simpl.
  by rewrite insert_newest_perm, IH.
Qed.

Lemma elem_of_ls_t (d : dir) n : n ∈ ls_t d ↔ is_Some (d !! n).
Proof.
  unfold ls_t. rewrite sort_newest_perm. rewrite list_elem_of_fmap. split.
  - intros ([k t] & -> & Hin%elem_of_map_to_list). eauto.
  - intros [t Ht]. exists (n, t). split; [done|]. by apply elem_of_map_to_list.
Qed.

Lemma glob_backup_lookup (d : dir) n t :
  glob_backup d !! n = Some t ↔ d !! n = Some t ∧ String.prefix "backup_" n = true.
Proof. unfold glob_backup. by rewrite map_lookup_filter_Some. Qed.

Lemma elem_of_ls_dt_backup (d : dir) n :
  n ∈ ls_dt_backup d ↔ is_Some (d !! n) ∧ String.prefix "backup_" n = true.
Proof.
  unfold ls_dt_backup. rewrite elem_of_ls_t. split.
  - intros [t Hsome]. apply glob_backup_lookup in Hsome as [Hsome Hp]. eauto.
  - intros [[t Ht] Hp]. exists t. by apply glob_backup_lookup.
Qed.

Lemma elem_of_tail_from k (l : list string) n : n ∈ tail_from k l → n ∈ l.
Proof.
  unfold tail_from. intros H. rewrite <- (take_drop (k - 1) l).
  apply elem_of_app. by right.
Qed.

Lemma rm_rf_lookup (names : list string) (d : dir) n :
  rm_rf names d !! n = if decide (n ∈ names) then None else d !! n.
Proof.
  unfold rm_rf. induction names as [|m names IH].
  - done.
  - change (foldr delete d (m :: names)) with (delete m (foldr delete d names)).
    destruct (decide (m = n)) as [->|Hne].
    + rewrite lookup_delete_eq.
      destruct (decide (n ∈ n :: names)); [done|set_solver].
    + rewrite lookup_delete_ne by done. rewrite IH.
      destruct (decide (n ∈ names)) as [Hin|Hout],
        (decide (n ∈ m :: names)) as [Hin'|Hout']; try done.
      * destruct Hout'. by apply elem_of_cons; right.
      * apply elem_of_cons in Hin' as [->|Hin']; done.
Qed.

Lemma others_kept_prune r0 r rel cur k :
  others_kept r0 r →
  others_kept r0
    (Remote rel (rm_rf (tail_from k (ls_dt_backup (toplevel r))) (toplevel r)) cur).
Proof.
  intros H n Hn. simpl. rewrite rm_rf_lookup, decide_False; [by apply H|].
  intros Hin%elem_of_tail_from%elem_of_ls_dt_backup. destruct Hin. congruence.
Qed.

(* ===================================================================== *)
(** * deploy.sh, phase by phase                                           *)
(* ===================================================================== *)

Ltac paths :=
  unfold Deploy.BACKUP, Deploy.RELEASE_DIR, Deploy.CURRENT,
    Rollback.SNAPSHOT, Rollback.CURRENT in *.

Section DeployWalk.
Variable i : input.
Variable o : oracle.
Variable s : settings.
Variable w0 : world.

Lemma deploy_inv_refl : deploy_inv s w0 w0.
Proof. split; [apply extends_refl|apply others_kept_refl]. Qed.

Ltac solve_extends :=
  simpl;
  repeat (apply extends_record; simpl; [|unfold link_ok; simpl; try done]);
  try assumption.

Ltac solve_kept :=
  simpl; paths;
  rewrite ?cp_r_backup, ?mkdir_p_release, ?write_into_release;
  repeat case_inner;
  eauto using others_kept_backup, others_kept_releases, others_kept_ln.

Ltac solve_there :=
  unfold release_there in *; simpl; paths;
  repeat (rewrite ?write_into_release, ?mkdir_p_release; simpl;
          repeat match goal with
                 | H : has _ _ = true |- _ => rewrite H
                 end;
          rewrite ?has_insert; simpl);
  try done.

Ltac solve_inv :=
  lazymatch goal with
  | |- _ ∧ release_there i _ => split; [split; [solve_extends|solve_kept]|solve_there]
  | |- deploy_inv s w0 _ => split; [solve_extends|solve_kept]
  end.

Ltac walk := exec; repeat case_inner; solve_inv.

Lemma backup_current_inv w :
  deploy_inv s w0 w →
  wp (Deploy.backup_current i o s) (λ _, deploy_inv s w0) (λ _, deploy_inv s w0) w.
Proof. intros [Hext Hkeep]. unfold wp, Deploy.backup_current. walk. Qed.

Lemma create_release_inv w :
  deploy_inv s w0 w →
  wp (Deploy.create_release i o s)
     (λ _ w', deploy_inv s w0 w' ∧ release_there i w') (λ _, deploy_inv s w0) w.
Proof.
  intros [Hext Hkeep]. unfold wp, Deploy.create_release. walk.
  case_inner; [done|apply has_insert].
Qed.

Lemma upload_inv w :
  deploy_inv s w0 w ∧ release_there i w →
  wp (Deploy.upload i o s)
     (λ _ w', deploy_inv s w0 w' ∧ release_there i w') (λ _, deploy_inv s w0) w.
Proof. intros [[Hext Hkeep] Hrel]. unfold wp, Deploy.upload. walk. Qed.

Lemma install_inv w :
  deploy_inv s w0 w ∧ release_there i w →
  wp (Deploy.install i o s)
     (λ _ w', deploy_inv s w0 w' ∧ release_there i w') (λ _, deploy_inv s w0) w.
Proof. intros [[Hext Hkeep] Hrel]. unfold wp, Deploy.install. walk. Qed.

Lemma copy_env_inv w :
  deploy_inv s w0 w ∧ release_there i w →
  wp (Deploy.copy_env i o s)
     (λ _ w', deploy_inv s w0 w' ∧ release_there i w') (λ _, deploy_inv s w0) w.
Proof. intros [[Hext Hkeep] Hrel]. unfold wp, Deploy.copy_env. walk. Qed.

Lemma switch_inv w :
  deploy_inv s w0 w ∧ release_there i w →
  wp (Deploy.switch i o s) (λ _, deploy_inv s w0) (λ _, deploy_inv s w0) w.
Proof.
  intros [[Hext Hkeep] Hrel]. unfold wp, Deploy.switch. walk;
    paths; by rewrite test_d_release.
Qed.

Lemma restart_inv w :
  deploy_inv s w0 w →
  wp (Deploy.restart i o s) (λ _, deploy_inv s w0) (λ _, deploy_inv s w0) w.
Proof. intros [Hext Hkeep]. unfold wp, Deploy.restart. walk. Qed.

Lemma revert_inv w :
  deploy_inv s w0 w →
  wp (Deploy.revert i o s) (λ _, deploy_inv s w0) (λ _, deploy_inv s w0) w.
Proof. intros [Hext Hkeep]. unfold wp, Deploy.revert. walk. Qed.

Lemma poll_inv w :
  deploy_inv s w0 w →
  wp (Deploy.poll i o s) (λ _, deploy_inv s w0) (λ _, deploy_inv s w0) w.
Proof.
  intros HI. unfold Deploy.poll. apply wp_bind. unfold wp at 1, log_info, echo.
  apply health_check_keeps.
  - by intros w1 l [??].
  - intros w1 a Ha [Hext Hkeep]. split; [|done]. simpl.
    apply extends_record; [done|]. by destruct a.
  - apply revert_inv.
  - by destruct HI.
Qed.

Lemma cleanup_releases_inv w :
  deploy_inv s w0 w →
  wp (Deploy.cleanup_releases o s) (λ _, deploy_inv s w0) (λ _, deploy_inv s w0) w.
Proof. intros [Hext Hkeep]. unfold wp, Deploy.cleanup_releases. walk. Qed.

Lemma cleanup_backups_inv w :
  deploy_inv s w0 w →
  wp (Deploy.cleanup_backups o s) (λ _, deploy_inv s w0) (λ _, deploy_inv s w0) w.
Proof.
  intros [Hext Hkeep]. unfold wp, Deploy.cleanup_backups. exec.
  destruct (status o (ACd (REMOTE_PATH s)) =? 0); simpl; [|solve_inv].
  destruct (tail_from 4 (ls_dt_backup (toplevel (fs w)))) eqn:Hold; simpl;
    [solve_inv|].
  rewrite <- Hold.
  destruct (status o _ =? 0); simpl; (split; [solve_extends|]); simpl; [|done].
  by apply others_kept_prune.
Qed.

Lemma notify_inv w :
  deploy_inv s w0 w →
  wp (Deploy.notify i o s) (λ _, deploy_inv s w0) (λ _, deploy_inv s w0) w.
Proof. intros [Hext Hkeep]. unfold wp, Deploy.notify. walk. Qed.

Lemma log_inv {A} (c : Script A) l Q E w :
  wp c Q E (World (fs w) (clock w) (timeline w) (stdout w ++ ["[INFO] " +:+ l])) →
  wp (log_info l ;; c) Q E w.
Proof. intros H. by apply wp_bind. Qed.

(** From the first remote command to the health loop. *)
Lemma deploy_body_inv w :
  deploy_inv s w0 w →
  wp (Deploy.backup_current i o s ;; Deploy.create_release i o s ;;
      Deploy.upload i o s ;; Deploy.install i o s ;; Deploy.copy_env i o s ;;
      Deploy.switch i o s ;; Deploy.restart i o s ;;
      log_info "Waiting for application to start..." ;;
      sh (sleep 10) ;; ret s)
     (λ a w', a = s ∧ deploy_inv s w0 w') (λ _, deploy_inv s w0) w.
Proof.
  intros HI.
  wp_seq backup_current_inv; [|done].
  wp_seq create_release_inv; [|done].
  wp_seq upload_inv; [|done].
  wp_seq install_inv; [|done].
  wp_seq copy_env_inv; [|done].
  wp_seq switch_inv; [|done].
  wp_seq restart_inv; [|done].
  apply log_inv. apply wp_bind. unfold wp, sh, sleep, bind, ret. simpl.
  match goal with H : deploy_inv s w0 _ |- _ => destruct H as [Hext Hkeep] end.
  split; [done|]. split; [|done]. simpl. apply extends_record; by simpl.
Qed.

Lemma deploy_tail_inv w :
  deploy_inv s w0 w →
  wp (Deploy.poll i o s ;; ret s)
     (λ a w', a = s ∧ deploy_inv s w0 w') (λ _, deploy_inv s w0) w
  ∧ wp (Deploy.cleanup o s ;; Deploy.notify i o s ;; exit 0)
       (λ (_ : unit) _, False) (λ _, deploy_inv s w0) w.
Proof.
  intros HI. split; [wp_seq poll_inv; done|]. unfold Deploy.cleanup.
  apply wp_bind. wp_seq cleanup_releases_inv; [|done].
  wp_use cleanup_backups_inv; [|done].
  wp_seq notify_inv; done.
Qed.
End DeployWalk.

Lemma validate_quiet i w :
  match Deploy.validate i w with
  | (Next s, w') =>
      environment_case i (Deploy.ENVIRONMENT i) = Some s
      ∧ REMOTE_HOST s ≠ "" ∧ build_dir_present i = true
      ∧ fs w' = fs w ∧ timeline w' = timeline w ∧ stdout w' = stdout w
  | (Exit n, w') => n = 1 ∧ fs w' = fs w ∧ timeline w' = timeline w
  | (OutOfFuel, _) => False
  end.
Proof.
  unfold Deploy.validate.
  destruct (environment_case i (Deploy.ENVIRONMENT i)) as [s|]; [|by exec].
  destruct (String.eqb_spec (REMOTE_HOST s) ""); [by exec|].
  destruct (build_dir_present i); by exec.
Qed.

Lemma deploy_keeps i o w s :
  environment_case i (Deploy.ENVIRONMENT i) = Some s →
  deploy_inv s w (Deploy.deploy i o w).2.
Proof.
  intros Hs.
  assert (wp (Deploy.deploy i o) (λ _ _, False) (λ _, deploy_inv s w) w) as H.
  { unfold Deploy.deploy, Deploy.release, Deploy.stage.
    apply wp_bind, wp_bind, wp_bind. unfold wp at 1.
    pose proof (validate_quiet i w) as Hv.
    destruct (Deploy.validate i w) as [[s'|n|] w1]; [| |done].
    - destruct Hv as (Hs' & _ & _ & Hfs & Htl & _).
      assert (s' = s) as -> by congruence.
      assert (deploy_inv s w w1) as H1.
      { split; [rewrite Htl; apply extends_refl|rewrite Hfs; apply others_kept_refl]. }
      do 3 apply log_inv.
      eapply wp_wand; [apply (deploy_body_inv i o s w); by destruct H1| |].
      + cbv beta. intros ? w2 [-> H2].
        eapply wp_wand; [by apply deploy_tail_inv| |done].
        cbv beta. intros ? w3 [-> H3]. by apply deploy_tail_inv.
      + cbv beta. auto.
    - destruct Hv as (_ & Hfs & Htl).
      split; [rewrite Htl; apply extends_refl|rewrite Hfs; apply others_kept_refl]. }
  apply wp_run in H. by destruct (Deploy.deploy i o w) as [[[]|n|] w'].
Qed.

(* ===================================================================== *)
(** * rollback.sh, phase by phase                                         *)
(* ===================================================================== *)

Lemma rollback_validate_quiet i w :
  match Rollback.validate i w with
  | (Next s, w') =>
      environment_case i (Rollback.ENVIRONMENT i) = Some s
      ∧ REMOTE_HOST s ≠ ""
      ∧ fs w' = fs w ∧ timeline w' = timeline w ∧ stdout w' = stdout w
  | (Exit n, w') => n = 1 ∧ fs w' = fs w ∧ timeline w' = timeline w
  | (OutOfFuel, _) => False
  end.
Proof.
  unfold Rollback.validate.
  destruct (environment_case i (Rollback.ENVIRONMENT i)) as [s|]; [|by exec].
  destruct (String.eqb_spec (REMOTE_HOST s) ""); by exec.
Qed.

Lemma discover_quiet i o s w :
  match Rollback.discover i o s w with
  | (Exit n, w') =>
      n = 1 ∧ fs w' = fs w
      ∧ ∃ new, timeline w' = timeline w ++ new
               ∧ Forall (λ e, mutates e.1 = false) new
  | _ => False
  end.
Proof.
  unfold Rollback.discover. exec.
  repeat case_inner; (split; [done|split; [done|]]);
    unfold record; simpl; rewrite <- !app_assoc;
    eexists; (split; [reflexivity|]); by repeat constructor.
Qed.

Lemma preflight_quiet i o w :
  match Rollback.preflight i o w with
  | (Next s, w') =>
      environment_case i (Rollback.ENVIRONMENT i) = Some s
      ∧ REMOTE_HOST s ≠ ""
      ∧ Rollback.RELEASE_VERSION i ≠ ""
      ∧ test_d (REMOTE_PATH s) (fs w) (Rollback.ROLLBACK_PATH i s) = true
      ∧ fs w' = fs w ∧ timeline w' = timeline w
  | (Exit n, w') =>
      n = 1 ∧ fs w' = fs w
      ∧ ∃ new, timeline w' = timeline w ++ new
               ∧ Forall (λ e, mutates e.1 = false) new
  | (OutOfFuel, _) => False
  end.
Proof.
  unfold Rollback.preflight. unfold bind at 1.
  pose proof (rollback_validate_quiet i w) as Hv.
  destruct (Rollback.validate i w) as [[s|n|] w1]; [| |done].
  2:{ destruct Hv as (Hn & Hfs & Htl). split; [done|split; [done|]].
      exists []. split; [|done]. rewrite Htl. by rewrite app_nil_r. }
  destruct Hv as (Hs & Hhost & Hfs & Htl & _).
  do 3 (unfold bind at 1; unfold log_warn at 1, echo at 1).
  unfold bind at 1.
  destruct (String.eqb_spec (Rollback.RELEASE_VERSION i) "") as [Hrv|Hrv].
  - match goal with |- context [Rollback.discover i o s ?w2] =>
      pose proof (discover_quiet i o s w2) as Hd;
      destruct (Rollback.discover i o s w2) as [[[]|n|] w3]; try done
    end.
    destruct Hd as (-> & Hfs' & new & Htr & Hnew). simpl in *.
    split; [done|split; [congruence|]]. exists new. split; [|done].
    rewrite Htr. by rewrite Htl.
  - unfold ret at 1. unfold Rollback.resolve, Rollback.verify. exec.
    repeat case_inner;
      match goal with
      | H : negb _ = true |- _ =>
          split; [done|split; [done|]];
          exists []; split; [|done]; simpl; rewrite Htl; by rewrite app_nil_r
      | H : negb _ = false |- _ =>
          apply negb_false_iff in H; rewrite Hfs in H; by repeat split
      end.
Qed.

Lemma read_value_yes : read_value "yes" = Some "yes".
Proof. by vm_compute. Qed.

(** What [read] makes of a few lines: blanks around the line and a backslash
    go, blanks inside stay, an empty line gives the empty word. *)
Lemma read_value_examples :
  read_value " yes " = Some "yes"
  ∧ read_value "ye\s" = Some "yes"
  ∧ read_value "y es" = Some "y es"
  ∧ read_value "no" = Some "no"
  ∧ read_value "" = Some "".
Proof. repeat split; by vm_compute. Qed.

Lemma confirm_spec i o w :
  match Rollback.confirm i o w with
  | (Next _, w') => answer o ≫= read_value = Some "yes" ∧ fs w' = fs w
  | (Exit n, w') =>
      fs w' = fs w
      ∧ (answer o ≫= read_value = None ∧ n = 1
         ∨ (∃ v, answer o ≫= read_value = Some v ∧ v ≠ "yes") ∧ n = 0
           ∧ "[INFO] Rollback cancelled" ∈ stdout w')
  | (OutOfFuel, _) => False
  end
  ∧ trace (Rollback.confirm i o w).2
    = trace w ++ [ARead "Are you sure you want to continue? (yes/no): "]
  ∧ (timeline (Rollback.confirm i o w).2).*2 = (timeline w).*2 ++ [fs w].
Proof.
  unfold Rollback.confirm. exec.
  destruct (answer o ≫= read_value) as [v|]; simpl.
  - destruct (String.eqb_spec v "yes") as [->|Hne]; simpl.
    + split; [done|]. unfold trace, record. simpl. by rewrite !fmap_app.
    + split; [|unfold trace, record; simpl; by rewrite !fmap_app].
      split; [done|]. right. split; [eauto|]. split; [done|]. set_solver.
  - split; [|unfold trace, record; simpl; by rewrite !fmap_app].
    split; [done|]. by left.
Qed.

Section RollbackWalk.
Variable i : input.
Variable o : oracle.
Variable s : settings.
Variable w0 : world.

Ltac solve_extends :=
  simpl;
  repeat (apply extends_record; simpl; [|unfold link_ok; simpl; try done]);
  try assumption.

Lemma confirm_inv w :
  rollback_inv s w0 w ∧ target_there i s w →
  wp (Rollback.confirm i o)
     (λ _ w', rollback_inv s w0 w' ∧ target_there i s w') (λ _, rollback_inv s w0) w.
Proof.
  intros [Hext Hthere]. unfold wp, Rollback.confirm, rollback_inv, target_there in *.
  exec. repeat case_inner; try split; solve_extends.
Qed.

Lemma snapshot_current_inv w :
  rollback_inv s w0 w ∧ target_there i s w →
  wp (Rollback.snapshot_current i o s)
     (λ _ w', rollback_inv s w0 w' ∧ target_there i s w') (λ _, rollback_inv s w0) w.
Proof.
  intros [Hext Hthere].
  unfold wp, Rollback.snapshot_current, rollback_inv, target_there in *.
  exec. repeat case_inner; try split; solve_extends.
  eapply grows_test_d; [apply grows_cp_r|done].
Qed.

Lemma rollback_switch_inv w :
  rollback_inv s w0 w ∧ target_there i s w →
  wp (Rollback.switch i o s) (λ _, rollback_inv s w0) (λ _, rollback_inv s w0) w.
Proof.
  intros [Hext Hthere]. unfold wp, Rollback.switch, rollback_inv, target_there in *.
  exec. repeat case_inner; solve_extends.
Qed.

Lemma rollback_restart_inv w :
  rollback_inv s w0 w →
  wp (Rollback.restart o s) (λ _, rollback_inv s w0) (λ _, rollback_inv s w0) w.
Proof.
  intros Hext. unfold wp, Rollback.restart, rollback_inv in *.
  exec. repeat case_inner; solve_extends.
Qed.

Lemma alert_inv w :
  rollback_inv s w0 w →
  wp (Rollback.alert i o) (λ _, rollback_inv s w0) (λ _, rollback_inv s w0) w.
Proof.
  intros Hext. unfold wp, Rollback.alert, rollback_inv in *.
  exec. repeat case_inner; solve_extends.
Qed.

Lemma rollback_poll_inv w :
  rollback_inv s w0 w →
  wp (Rollback.poll i o s) (λ _, rollback_inv s w0) (λ _, rollback_inv s w0) w.
Proof.
  intros HI. unfold Rollback.poll. apply wp_bind. unfold wp at 1, log_info, echo.
  apply health_check_keeps.
  - by intros w1 l ?.
  - intros w1 a Ha Hext. unfold rollback_inv in *. simpl.
    apply extends_record; [done|]. by destruct a.
  - apply alert_inv.
  - done.
Qed.

Lemma succeed_inv w :
  rollback_inv s w0 w →
  wp (Rollback.succeed i o s) (λ _, rollback_inv s w0) (λ _, rollback_inv s w0) w.
Proof.
  intros Hext. unfold wp, Rollback.succeed, rollback_inv in *.
  exec. repeat case_inner; solve_extends.
Qed.

Lemma execute_inv w :
  rollback_inv s w0 w ∧ target_there i s w →
  wp (Rollback.execute i o s) (λ _, rollback_inv s w0) (λ _, rollback_inv s w0) w.
Proof.
  intros HI. unfold Rollback.execute.
  wp_seq snapshot_current_inv; [|done].
  wp_seq rollback_switch_inv; [|done].
  wp_seq rollback_restart_inv; [|done].
  apply wp_bind. unfold wp at 1, log_info, echo.
  apply wp_bind. unfold wp at 1, sh, sleep, bind, ret. simpl.
  wp_seq rollback_poll_inv; [|by apply succeed_inv|done].
  unfold rollback_inv in *. simpl. apply extends_record; by simpl.
Qed.
End RollbackWalk.

Lemma rollback_keeps i o w s :
  environment_case i (Rollback.ENVIRONMENT i) = Some s →
  extends (REMOTE_PATH s) (timeline w) (timeline (Rollback.rollback i o w).2).
Proof.
  intros Hs.
  assert (wp (Rollback.rollback i o) (λ _, rollback_inv s w) (λ _, rollback_inv s w) w)
    as H.
  { unfold Rollback.rollback. apply wp_bind. unfold wp at 1.
    pose proof (preflight_quiet i o w) as Hp.
    destruct (Rollback.preflight i o w) as [[s'|n|] w1]; [| |done].
    - destruct Hp as (Hs' & _ & _ & Hthere & Hfs & Htl).
      assert (s' = s) as -> by congruence.
      wp_seq confirm_inv; [|by apply (execute_inv i o s w)|done].
      split; [unfold rollback_inv; rewrite Htl; apply extends_refl|].
      unfold target_there. by rewrite Hfs.
    - destruct Hp as (_ & Hfs & new & Htl & Hnew).
      exists new. split; [done|]. eapply Forall_impl; [exact Hnew|].
      intros [a r] Ha. unfold link_ok. by destruct a. }
  apply wp_run in H. by destruct (Rollback.rollback i o w) as [[[]|n|] w'].
Qed.

(* ===================================================================== *)
(** * The claims                                                          *)
(* ===================================================================== *)

Lemma preflight_passes i o w s :
  environment_case i (Rollback.ENVIRONMENT i) = Some s →
  REMOTE_HOST s ≠ "" →
  Rollback.RELEASE_VERSION i ≠ "" →
  test_d (REMOTE_PATH s) (fs w) (Rollback.ROLLBACK_PATH i s) = true →
  ∃ w1, Rollback.preflight i o w = (Next s, w1)
        ∧ fs w1 = fs w ∧ timeline w1 = timeline w.
Proof.
  intros Hs Hhost Hrv Hthere.
  unfold Rollback.preflight, Rollback.validate, Rollback.resolve, Rollback.verify.
  rewrite Hs.
  apply String.eqb_neq in Hhost, Hrv. rewrite Hhost, Hrv.
  destruct (Rollback.is_backup_id (Rollback.RELEASE_VERSION i));
    exec; rewrite Hthere; simpl; eauto.
Qed.

Lemma preflight_rejects i o w :
  Rollback.RELEASE_VERSION i ≠ "" →
  (∀ s, environment_case i (Rollback.ENVIRONMENT i) = Some s →
        test_d (REMOTE_PATH s) (fs w) (Rollback.ROLLBACK_PATH i s) = false) →
  ∃ w', Rollback.rollback i o w = (Exit 1, w')
        ∧ fs w' = fs w ∧ timeline w' = timeline w.
Proof.
  intros Hrv Hgone.
  unfold Rollback.rollback, Rollback.preflight, Rollback.validate,
    Rollback.resolve, Rollback.verify.
  apply String.eqb_neq in Hrv. rewrite Hrv.
  destruct (environment_case i (Rollback.ENVIRONMENT i)) as [s|]; [|exec; eauto].
  specialize (Hgone s eq_refl).
  destruct (String.eqb (REMOTE_HOST s) ""); [exec; eauto|].
  destruct (Rollback.is_backup_id (Rollback.RELEASE_VERSION i));
    exec; rewrite Hgone; simpl; eauto.
Qed.

(** C5. A target id that starts with [backup_] resolves to <root>/<env>/<id>,
    any other id to <root>/<env>/releases/<id>; when the resolved directory is
    absent on the host the script exits 1 and the remote tree, [current]
    included, is as it was. *)
Theorem rollback_target_resolution (i : input) (o : oracle) (w : world) :
  (∀ s, Rollback.is_backup_id (arg2 i) = true →
        Rollback.ROLLBACK_PATH i s = REMOTE_PATH s +:+ "/" +:+ arg2 i)
  ∧ (∀ s, Rollback.is_backup_id (arg2 i) = false →
        Rollback.ROLLBACK_PATH i s = REMOTE_PATH s +:+ "/releases/" +:+ arg2 i)
  ∧ (arg2 i ≠ "" →
     (∀ s, environment_case i (Rollback.ENVIRONMENT i) = Some s →
           test_d (REMOTE_PATH s) (fs w) (Rollback.ROLLBACK_PATH i s) = false) →
     ∃ w', Rollback.rollback i o w = (Exit 1, w')
           ∧ fs w' = fs w ∧ timeline w' = timeline w).
Proof.
  split; [|split].
  - intros s H. unfold Rollback.ROLLBACK_PATH, Rollback.RELEASE_VERSION. by rewrite H.
  - intros s H. unfold Rollback.ROLLBACK_PATH, Rollback.RELEASE_VERSION. by rewrite H.
  - apply preflight_rejects.
Qed.

(** What a rollback without target prints: fixed lines and the two listings. *)
Lemma discover_prints i o s w line :
  line ∈ drop (length (stdout w)) (stdout (Rollback.discover i o s w).2) →
  line ∈ ls_t (releases (fs w))
  ∨ line ∈ ls_dt_backup (toplevel (fs w))
  ∨ line ∈ ["[INFO] Available releases:"; "No releases found"; "[INFO] ";
            "[INFO] Available backups:"; "No backups found"; "";
            "[ERROR] Please specify a release version or backup to rollback to:";
            "Usage: $0 " +:+ Rollback.ENVIRONMENT i
              +:+ " <release_version|backup_YYYYMMDD_HHMMSS>"].
Proof.
  unfold Rollback.discover. exec.
  destruct (status o (ACd (REMOTE_PATH s +:+ "/releases")) =? 0);
    destruct (status o (ACd (REMOTE_PATH s)) =? 0); simpl;
    try (destruct (ls_dt_backup (toplevel (fs w))) as [|b bs] eqn:Hb; simpl);
    rewrite <- ?app_assoc, drop_app_length; set_solver.
Qed.

(** C8. With a valid target, no command has run and the remote tree is as it
    was when the confirmation prompt appears; every answer that [read] hands
    to the script as something other than "yes" ends the script with exit 0,
    the prompt being the only command of the run and the remote tree
    unchanged. *)
Theorem rollback_confirmation_gate (i : input) (o : oracle) (w : world) (s : settings) :
  environment_case i (Rollback.ENVIRONMENT i) = Some s →
  REMOTE_HOST s ≠ "" →
  Rollback.RELEASE_VERSION i ≠ "" →
  test_d (REMOTE_PATH s) (fs w) (Rollback.ROLLBACK_PATH i s) = true →
  (∃ w1, Rollback.preflight i o w = (Next s, w1)
         ∧ fs w1 = fs w ∧ timeline w1 = timeline w
         ∧ timeline (Rollback.confirm i o w1).2
           = timeline w ++ [(ARead "Are you sure you want to continue? (yes/no): ", fs w)])
  ∧ (∀ a CONFIRM, answer o = Some a → read_value a = Some CONFIRM → CONFIRM ≠ "yes" →
       ∃ w', Rollback.rollback i o w = (Exit 0, w')
             ∧ fs w' = fs w
             ∧ trace w' = trace w ++ [ARead "Are you sure you want to continue? (yes/no): "]
             ∧ Forall (λ e, e.2 = fs w) (drop (length (timeline w)) (timeline w'))
             ∧ "[INFO] Rollback cancelled" ∈ stdout w').
Proof.
  intros Hs Hhost Hrv Hthere.
  destruct (preflight_passes i o w s Hs Hhost Hrv Hthere) as (w1 & Hpre & Hfs & Htl).
  split.
  - exists w1. repeat (split; [done|]).
    unfold Rollback.confirm. exec. destruct (answer o ≫= read_value) as [v|]; simpl.
    + destruct (String.eqb v "yes"); simpl; unfold record; simpl; by rewrite Htl, Hfs.
    + unfold record; simpl. by rewrite Htl, Hfs.
  - intros a v Ha Hv Hno. unfold Rollback.rollback. unfold bind at 1. rewrite Hpre.
    unfold Rollback.confirm. exec. rewrite Ha. simpl. rewrite Hv. simpl.
    apply String.eqb_neq in Hno. rewrite Hno. simpl.
    eexists. split; [reflexivity|]. simpl. split; [done|]. split; [|split].
    + unfold trace, record. simpl. rewrite fmap_app. simpl. by rewrite Htl.
    + unfold record. simpl. rewrite Htl, drop_app_length. by repeat constructor.
    + set_solver.
Qed.

Lemma not_backup_name n :
  String.prefix "rollback_backup_" n = true → String.prefix "backup_" n = false.
Proof. destruct n as [|a n]; [done|]. simpl. by repeat case_match. Qed.

(** C10. A directory named rollback_backup_... is not in the listing of
    backups, nor (no release bearing that name) among the lines that a rollback
    without target prints; it survives every run of the deployment script with
    its modification time; and, given as a target id, it is looked for under
    releases/ and not at the top level, where the snapshots of rollback.sh
    lie. *)
Theorem rollback_snapshots_out_of_reach (i : input) (o : oracle) (w : world) (n : string) :
  String.prefix "rollback_backup_" n = true →
  (n ∉ ls_dt_backup (toplevel (fs w)))
  ∧ (∀ s, has (releases (fs w)) n = false →
          n ∉ drop (length (stdout w)) (stdout (Rollback.discover i o s w).2))
  ∧ toplevel (fs (Deploy.deploy i o w).2) !! n = toplevel (fs w) !! n
  ∧ (arg2 i = n → ∀ s,
       Rollback.is_backup_id (arg2 i) = false
       ∧ Rollback.ROLLBACK_PATH i s = REMOTE_PATH s +:+ "/releases/" +:+ n
       ∧ locate (REMOTE_PATH s) (Rollback.ROLLBACK_PATH i s) = Some (InReleases n)
       ∧ test_d (REMOTE_PATH s) (fs w) (Rollback.ROLLBACK_PATH i s) = has (releases (fs w)) n)
  ∧ (∀ s, locate (REMOTE_PATH s) (Rollback.SNAPSHOT i s)
          = Some (AtRoot ("rollback_backup_" +:+ Rollback.TIMESTAMP i))).
Proof.
  intros Hn. pose proof (not_backup_name n Hn) as Hnb.
  assert (n ∉ ls_dt_backup (toplevel (fs w))) as Hlist.
  { intros Hin%elem_of_ls_dt_backup. destruct Hin. congruence. }
  split; [done|]. split; [|split; [|split]].
  - intros s Hrel Hin. apply discover_prints in Hin as [Hin|[Hin|Hin]]; [|done|].
    + apply elem_of_ls_t in Hin as [t Ht]. unfold has in Hrel. by rewrite Ht in Hrel.
    + rewrite !elem_of_cons, elem_of_nil in Hin.
      destruct Hin as [->|[->|[->|[->|[->|[->|[->|[->|[]]]]]]]]]; discriminate.
  - destruct (environment_case i (Deploy.ENVIRONMENT i)) as [s|] eqn:Hs.
    + by apply (deploy_keeps i o w s Hs).
    + unfold Deploy.deploy, Deploy.release, Deploy.stage, Deploy.validate.
      rewrite Hs. by exec.
  - intros Harg s. unfold Rollback.ROLLBACK_PATH, Rollback.RELEASE_VERSION, Rollback.is_backup_id.
    rewrite Harg, Hnb. split; [done|]. split; [done|].
    by rewrite locate_release, test_d_release.
  - intros s. apply locate_snapshot.
Qed.

(* ===================================================================== *)
(** * Retention                                                           *)
(* ===================================================================== *)

Lemma insert_newest_sorted e l :
  StronglySorted newer_first l → StronglySorted newer_first (insert_newest e l).
Proof.
  induction 1 as [|x l Hl IH Hx]; simpl; [by repeat constructor|].
  destruct (Nat.leb_spec x.2 e.2) as [Hle|Hlt].
  - constructor; [by constructor|]. constructor; [done|].
    eapply Forall_impl; [exact Hx|]. unfold newer_first. intros y ?. lia.
  - constructor; [done|]. rewrite insert_newest_perm. constructor; [|done].
    unfold newer_first. lia.
Qed.

Lemma sort_newest_sorted l : StronglySorted newer_first (sort_newest l).
Proof.
  induction l as [|x l IH]; simpl; [constructor|]. by apply insert_newest_sorted.
Qed.

Lemma retention k (d : dir) :
  kept_newest k d (rm_rf (tail_from (S k) (ls_t d)) d).
Proof.
  unfold tail_from, ls_t. replace (S k - 1) with k by lia.
  pose proof (sort_newest_perm (map_to_list d)) as HL.
  pose proof (sort_newest_sorted (map_to_list d)) as Hsorted.
  revert HL Hsorted. generalize (sort_newest (map_to_list d)). intros L HL Hsorted.
  assert (NoDup L.*1) as Hnd.
  { rewrite HL. apply NoDup_fst_map_to_list. }
  assert (d = list_to_map L) as Hd.
  { rewrite <- (list_to_map_to_list d) at 1. symmetry. by apply list_to_map_proper. }
  rewrite <- fmap_drop.
  pose proof (take_drop k L) as Hsplit.
  set (T := take k L) in *. set (D := drop k L) in *.
  pose proof Hnd as HndL.
  rewrite <- Hsplit in Hnd, Hsorted. rewrite fmap_app in Hnd.
  apply NoDup_app in Hnd as (HndT & Hdisj & HndD).
  assert (rm_rf D.*1 d = list_to_map T) as ->.
  { apply map_eq. intros n. rewrite rm_rf_lookup.
    destruct (decide (n ∈ D.*1)) as [Hin|Hout].
    - symmetry. apply not_elem_of_list_to_map_1. intros HT. by apply (Hdisj n).
    - rewrite Hd, <- Hsplit, list_to_map_app.
      rewrite lookup_union_l; [done|]. by apply not_elem_of_list_to_map_1. }
  split; [|split].
  - rewrite map_size_list_to_map by done. unfold T. rewrite length_take.
    by rewrite <- length_map_to_list, <- HL.
  - apply map_subseteq_spec. intros n t Hn.
    apply elem_of_list_to_map in Hn; [|done].
    rewrite Hd. apply elem_of_list_to_map_1; [done|]. rewrite <- Hsplit. set_solver.
  - intros n m tn tm Hn Hm Hgone.
    apply elem_of_list_to_map in Hn; [|done].
    assert ((m, tm) ∈ D) as HmD.
    { rewrite Hd in Hm. apply elem_of_list_to_map_2 in Hm.
      rewrite <- Hsplit in Hm. apply elem_of_app in Hm as [HmT|HmD]; [|done].
      apply not_elem_of_list_to_map in Hgone. destruct Hgone.
      apply list_elem_of_fmap. by exists (m, tm). }
    by apply (StronglySorted_app_1_elem_of _ _ _ _ _ Hsorted Hn HmD).
Qed.

Lemma glob_backup_rm_rf names (d : dir) :
  glob_backup (rm_rf names d) = rm_rf names (glob_backup d).
Proof.
  unfold rm_rf, glob_backup. induction names as [|n names IH]; simpl; [done|].
  by rewrite map_filter_delete, IH.
Qed.

Section Cleanup.
Variable i : input.
Variable o : oracle.
Variable s : settings.

(** Whatever its commands report, the cleanup goes on. *)
Lemma cleanup_continues w : ∃ w', Deploy.cleanup o s w = (Next 0, w').
Proof.
  unfold Deploy.cleanup, Deploy.cleanup_releases, Deploy.cleanup_backups. exec.
  repeat case_inner; eauto.
Qed.

Lemma cleanup_effect w :
  status o (ACd (REMOTE_PATH s +:+ "/releases")) = 0 →
  status o (ACd (REMOTE_PATH s)) = 0 →
  (∀ cwd names, status o (ARm cwd names) = 0) →
  fs (Deploy.cleanup o s w).2
  = Remote (rm_rf (tail_from 6 (ls_t (releases (fs w)))) (releases (fs w)))
           (rm_rf (tail_from 4 (ls_dt_backup (toplevel (fs w)))) (toplevel (fs w)))
           (current (fs w)).
Proof.
  intros Hcd1 Hcd2 Hrm.
  unfold Deploy.cleanup, Deploy.cleanup_releases, Deploy.cleanup_backups. exec.
  rewrite Hcd1, Hcd2. simpl.
  destruct (tail_from 6 (ls_t (releases (fs w)))) as [|n1 old1] eqn:H1; simpl.
  - destruct (tail_from 4 (ls_dt_backup (toplevel (fs w)))) as [|n2 old2] eqn:H2; simpl.
    + by destruct (fs w).
    + by rewrite Hrm.
  - rewrite Hrm. simpl.
    destruct (tail_from 4 (ls_dt_backup (toplevel (fs w)))) as [|n2 old2] eqn:H2; simpl.
    + done.
    + by rewrite Hrm.
Qed.

Lemma notify_spec w :
  SLACK_WEBHOOK_URL i = ""
  ∨ status o (APost (SLACK_WEBHOOK_URL i)
                ("Deployment to *" +:+ Deploy.ENVIRONMENT i +:+ "* completed successfully!"))
    = 0 →
  ∃ w', Deploy.notify i o s w = (Next 0, w')
        ∧ fs w' = fs w
        ∧ ("[INFO] Deployment to " +:+ Deploy.ENVIRONMENT i +:+ " completed successfully!")
          ∈ stdout w'.
Proof.
  intros Hslack. unfold Deploy.notify. exec.
  destruct (String.eqb_spec (SLACK_WEBHOOK_URL i) "") as [He|Hne]; simpl.
  - eexists. split; [reflexivity|]. simpl. split; [done|].
    rewrite !elem_of_app, !list_elem_of_singleton. auto.
  - destruct Hslack as [?|Hok]; [done|]. rewrite Hok. simpl.
    eexists. split; [reflexivity|]. simpl. split; [done|].
    rewrite !elem_of_app, !list_elem_of_singleton. auto 6.
Qed.

Lemma notify_reports w :
  ("[INFO] Deployment to " +:+ Deploy.ENVIRONMENT i +:+ " completed successfully!")
  ∈ stdout (Deploy.notify i o s w).2.
Proof.
  unfold Deploy.notify. exec.
  repeat case_inner; rewrite !elem_of_app, !list_elem_of_singleton; auto 6.
Qed.

Lemma notify_quiet w : fs (Deploy.notify i o s w).2 = fs w.
Proof. unfold Deploy.notify. exec. by repeat case_inner. Qed.
End Cleanup.

Lemma deploy_after_release i o w s w1 :
  Deploy.release i o w = (Next s, w1) →
  Deploy.deploy i o w = (Deploy.cleanup o s ;; Deploy.notify i o s ;; exit 0) w1.
Proof. intros H. unfold Deploy.deploy. unfold bind at 1. by rewrite H. Qed.

(** C7. Once the health check has passed, no exit status of the commands that
    prune old releases and old backups stops the deployment: whatever cd, ls
    and rm report, the cleanup hands over to the final report, which logs the
    success of the deployment; the script then exits 0, the one proviso being
    the optional Slack call that follows the report. *)
Theorem cleanup_failures_swallowed (i : input) (o : oracle) (w : world)
    (s : settings) (w1 : world) :
  Deploy.release i o w = (Next s, w1) →
  ∃ w2, Deploy.cleanup o s w1 = (Next 0, w2)
        ∧ Deploy.deploy i o w = (Deploy.notify i o s ;; exit 0) w2
        ∧ ("[INFO] Deployment to " +:+ Deploy.ENVIRONMENT i +:+ " completed successfully!")
          ∈ stdout (Deploy.deploy i o w).2
        ∧ (SLACK_WEBHOOK_URL i = ""
           ∨ status o (APost (SLACK_WEBHOOK_URL i)
                         ("Deployment to *" +:+ Deploy.ENVIRONMENT i
                          +:+ "* completed successfully!")) = 0 →
           (Deploy.deploy i o w).1 = Exit 0).
Proof.
  intros Hrel.
  destruct (cleanup_continues o s w1) as (w2 & Hc). exists w2. split; [done|].
  assert (Deploy.deploy i o w = (Deploy.notify i o s;; exit 0) w2) as Hrun.
  { rewrite (deploy_after_release i o w s w1 Hrel). unfold bind at 1. by rewrite Hc. }
  split; [done|]. rewrite Hrun. split.
  - pose proof (notify_reports i o s w2) as Hout. unfold bind.
    by destruct (Deploy.notify i o s w2) as [[?|?|] ?].
  - intros Hslack. destruct (notify_spec i o s w2 Hslack) as (w3 & Hn & _).
    unfold bind. by rewrite Hn.
Qed.

(** C4, as amended. After a deployment whose health check passed, with the
    pruning commands succeeding, releases/ holds its five most recently
    modified entries and the backup_* directories are the three most recently
    modified of them, all of them where there are fewer; what went was
    modified no later than what stayed, and nothing else at the top level is
    touched. *)
Theorem retention_keeps_newest (i : input) (o : oracle) (w : world)
    (s : settings) (w1 : world) :
  Deploy.release i o w = (Next s, w1) →
  status o (ACd (REMOTE_PATH s +:+ "/releases")) = 0 →
  status o (ACd (REMOTE_PATH s)) = 0 →
  (∀ cwd names, status o (ARm cwd names) = 0) →
  kept_newest 5 (releases (fs w1)) (releases (fs (Deploy.deploy i o w).2))
  ∧ kept_newest 3 (glob_backup (toplevel (fs w1)))
                  (glob_backup (toplevel (fs (Deploy.deploy i o w).2)))
  ∧ others_kept (fs w1) (fs (Deploy.deploy i o w).2).
Proof.
  intros Hrel Hcd1 Hcd2 Hrm.
  rewrite (deploy_after_release i o w s w1 Hrel).
  pose proof (cleanup_effect o s w1 Hcd1 Hcd2 Hrm) as Hfs.
  destruct (cleanup_continues o s w1) as (w2 & Hc). rewrite Hc in Hfs. simpl in Hfs.
  assert (fs ((Deploy.cleanup o s;; Deploy.notify i o s;; exit 0) w1).2 = fs w2) as ->.
  { unfold bind at 1. rewrite Hc. unfold bind at 1.
    pose proof (notify_quiet i o s w2) as Hq.
    by destruct (Deploy.notify i o s w2) as [[?|?|] ?]. }
  rewrite Hfs. simpl. split; [apply retention|]. split.
  - rewrite glob_backup_rm_rf. apply retention.
  - by apply others_kept_prune.
Qed.

(* ===================================================================== *)
(** * The backup survives the staging of a release                        *)
(* ===================================================================== *)

Section Staging.
Variable i : input.
Variable o : oracle.
Variable s : settings.

Ltac solve_backup :=
  unfold backup_there in *; paths;
  repeat progress
    (simpl; rewrite ?cp_r_backup, ?mkdir_p_release, ?write_into_release, ?has_insert;
     try case_inner);
  try done.

Ltac walk_backup := exec; repeat case_inner; try exact I; solve_backup.

Lemma backup_current_creates w :
  test_d (REMOTE_PATH s) (fs w) (Deploy.CURRENT s) = true →
  status o (ACp (Deploy.CURRENT s) (Deploy.BACKUP i s)) = 0 →
  wp (Deploy.backup_current i o s) (λ _, backup_there i) (λ _ _, True) w.
Proof.
  intros Hcur Hcp. unfold wp, Deploy.backup_current. exec.
  rewrite Hcur. simpl. rewrite Hcp. simpl. solve_backup.
Qed.

Lemma create_release_backup w :
  backup_there i w →
  wp (Deploy.create_release i o s) (λ _, backup_there i) (λ _ _, True) w.
Proof. intros H. unfold wp, Deploy.create_release. walk_backup. Qed.

Lemma upload_backup w :
  backup_there i w → wp (Deploy.upload i o s) (λ _, backup_there i) (λ _ _, True) w.
Proof. intros H. unfold wp, Deploy.upload. walk_backup. Qed.

Lemma install_backup w :
  backup_there i w → wp (Deploy.install i o s) (λ _, backup_there i) (λ _ _, True) w.
Proof. intros H. unfold wp, Deploy.install. walk_backup. Qed.

Lemma copy_env_backup w :
  backup_there i w → wp (Deploy.copy_env i o s) (λ _, backup_there i) (λ _ _, True) w.
Proof. intros H. unfold wp, Deploy.copy_env. walk_backup. Qed.

Lemma switch_backup w :
  backup_there i w → wp (Deploy.switch i o s) (λ _, backup_there i) (λ _ _, True) w.
Proof. intros H. unfold wp, Deploy.switch. walk_backup. Qed.

Lemma restart_backup w :
  backup_there i w → wp (Deploy.restart i o s) (λ _, backup_there i) (λ _ _, True) w.
Proof. intros H. unfold wp, Deploy.restart. walk_backup. Qed.

Lemma stage_body_backup w :
  test_d (REMOTE_PATH s) (fs w) (Deploy.CURRENT s) = true →
  status o (ACp (Deploy.CURRENT s) (Deploy.BACKUP i s)) = 0 →
  wp (Deploy.backup_current i o s ;; Deploy.create_release i o s ;;
      Deploy.upload i o s ;; Deploy.install i o s ;; Deploy.copy_env i o s ;;
      Deploy.switch i o s ;; Deploy.restart i o s ;;
      log_info "Waiting for application to start..." ;;
      sh (sleep 10) ;; ret s)
     (λ a w', a = s ∧ backup_there i w') (λ _ _, True) w.
Proof.
  intros Hcur Hcp.
  wp_seq backup_current_creates; [|done].
  wp_seq create_release_backup; [|done].
  wp_seq upload_backup; [|done].
  wp_seq install_backup; [|done].
  wp_seq copy_env_backup; [|done].
  wp_seq switch_backup; [|done].
  wp_seq restart_backup; [|done].
  apply wp_bind. unfold wp at 1, log_info, echo.
  apply wp_bind. unfold wp, sh, sleep, bind, ret. simpl. done.
Qed.
End Staging.

Lemma stage_returns i o w s w1 :
  Deploy.stage i o w = (Next s, w1) →
  environment_case i (Deploy.ENVIRONMENT i) = Some s.
Proof.
  intros Hstage.
  assert (wp (Deploy.stage i o)
             (λ a _, environment_case i (Deploy.ENVIRONMENT i) = Some a)
             (λ _ _, True) w) as H.
  { unfold Deploy.stage. apply wp_bind. unfold wp at 1.
    pose proof (validate_quiet i w) as Hv.
    destruct (Deploy.validate i w) as [[s'|n|] w0]; [|done|done].
    destruct Hv as (Hs' & _).
    do 3 apply log_inv.
    eapply wp_wand; [apply (deploy_body_inv i o s'), deploy_inv_refl| |done].
    cbv beta. by intros a w' [-> _]. }
  apply wp_run in H. by rewrite Hstage in H.
Qed.

Lemma stage_keeps_backup i o w s w1 :
  Deploy.stage i o w = (Next s, w1) →
  test_d (REMOTE_PATH s) (fs w) (Deploy.CURRENT s) = true →
  status o (ACp (Deploy.CURRENT s) (Deploy.BACKUP i s)) = 0 →
  test_d (REMOTE_PATH s) (fs w1) (Deploy.BACKUP i s) = true.
Proof.
  intros Hstage Hcur Hcp.
  pose proof (stage_returns i o w s w1 Hstage) as Hs.
  assert (wp (Deploy.stage i o) (λ _, backup_there i) (λ _ _, True) w) as H.
  { unfold Deploy.stage. apply wp_bind. unfold wp at 1.
    pose proof (validate_quiet i w) as Hv.
    destruct (Deploy.validate i w) as [[s'|n|] w0]; [|done|done].
    destruct Hv as (Hs' & _ & _ & Hfs & _).
    assert (s' = s) as -> by congruence.
    do 3 apply log_inv.
    eapply wp_wand; [apply (stage_body_backup i o s); [|done]| |done].
    { change (test_d (REMOTE_PATH s) (fs w0) (Deploy.CURRENT s) = true).
      by rewrite Hfs. }
    cbv beta. by intros a w' [_ ?]. }
  apply wp_run in H. rewrite Hstage in H. simpl in H.
  unfold Deploy.BACKUP. by rewrite test_d_backup.
Qed.

(** C2. When a deployment existed at the first step and its copy succeeded,
    the release was staged, and all five health requests fail, the script
    links [current] to that backup, not to the new release, restarts the
    process once and exits 1: after the fifth request the run issues exactly
    the [ln -sfn] and one [pm2 restart], and no further request. *)
Theorem failed_publish_reverts_to_backup (i : input) (o : oracle) (w : world)
    (s : settings) (w1 : world) :
  Deploy.stage i o w = (Next s, w1) →
  test_d (REMOTE_PATH s) (fs w) (Deploy.CURRENT s) = true →
  status o (ACp (Deploy.CURRENT s) (Deploy.BACKUP i s)) = 0 →
  (∀ k, 1 ≤ k ≤ 5 → curl_f (probe o k) ≠ 0) →
  status o (ALn (Deploy.BACKUP i s) (Deploy.CURRENT s)) = 0 →
  ∃ w', Deploy.deploy i o w = (Exit 1, w')
        ∧ current (fs w') = Some (Deploy.BACKUP i s)
        ∧ Deploy.BACKUP i s ≠ Deploy.RELEASE_DIR i s
        ∧ trace w' = trace w1 ++ five_attempts (HEALTH_CHECK_URL s)
                     ++ [ALn (Deploy.BACKUP i s) (Deploy.CURRENT s);
                         APm2 ["restart"; PM2_APP_NAME s]].
Proof.
  intros Hstage Hcur Hcp Hfail Hln.
  pose proof (stage_keeps_backup i o w s w1 Hstage Hcur Hcp) as Hbackup.
  unfold Deploy.deploy, Deploy.release. unfold bind at 1 2. rewrite Hstage.
  unfold bind at 1. unfold Deploy.poll. unfold bind at 1.
  set (w2 := (log_info "Running health check..." w1).2).
  change (log_info "Running health check..." w1) with (Next 0, w2).
  destruct (health_check_exhausted o (HEALTH_CHECK_URL s) "Health check passed!"
              "Health check failed, retrying in 10 seconds..."
              (Deploy.revert i o s) w2 Hfail) as (w5 & Hfs & Htr & Hrun).
  rewrite Hrun. unfold Deploy.revert. exec.
  rewrite Hfs. simpl. rewrite Hbackup. simpl. rewrite Hln. simpl.
  destruct (status o (APm2 ["restart"; PM2_APP_NAME s]) =? 0);
    (eexists; split; [reflexivity|]; simpl; split; [done|]; split;
     [unfold Deploy.BACKUP, Deploy.RELEASE_DIR; intros Heq;
      apply (inj (String.app (REMOTE_PATH s))) in Heq; discriminate
     |unfold trace, record in *; simpl in *; rewrite !fmap_app; simpl;
      rewrite Htr; by rewrite <- !app_assoc]).
Qed.

(** C6, as stated, fails: a redirect passes the health attempt. *)
Lemma redirect_passes_health_attempt :
  (curl_health redirected (HEALTH_CHECK_URL staging) 1 fresh).1 = Next 0
  ∧ ¬ two_xx (probe redirected 1)
  ∧ (Deploy.poll (invoke "") redirected staging fresh).1 = Next tt.
Proof. split; [reflexivity|]. split; [simpl; lia|reflexivity]. Qed.

(** C6, as amended. One attempt of the health loop succeeds exactly when curl
    receives, within its ten seconds, a final response whose status is below
    400. *)
Theorem health_attempt_succeeds_below_400 (o : oracle) (url : string) (k : nat) (w : world) :
  (curl_health o url k w).1 = Next 0
  ↔ ∃ code, probe o k = Responded code ∧ code < 400.
Proof.
  unfold curl_health. cbn [fst]. unfold curl_f. split.
  - intros H. destruct (probe o k) as [| |code]; try discriminate.
    exists code. split; [done|].
    destruct (Nat.leb_spec 400 code) as [Hge|Hlt]; [discriminate|done].
  - intros (code & -> & Hcode).
    destruct (Nat.leb_spec 400 code) as [Hge|Hlt]; [lia|done].
Qed.

(** C9. The handler of GET /health answers 200 with status "OK" whatever the
    request and the state of the process, so an attempt of the health loop
    that reaches it succeeds: an attempt that fails was unreachable or timed
    out. *)
Theorem health_route_always_ok (req : Health.request) (p : Health.process) :
  Health.statusCode (Health.health req p) = 200
  ∧ Health.get "status" (Health.body (Health.health req p)) = Some (Health.JString "OK")
  ∧ (Health.method req = Health.GET → Health.path req = "/" →
     Health.router req p = Some (Health.health req p))
  ∧ ∀ (o : oracle) (k : nat),
      probe o k = Unreachable ∨ probe o k = TimedOut
      ∨ probe o k = Responded (Health.statusCode (Health.health req p)) →
      curl_f (probe o k) ≠ 0 →
      probe o k = Unreachable ∨ probe o k = TimedOut.
Proof.
  split; [done|]. split; [done|]. split.
  - intros Hm Hp. unfold Health.router. by rewrite Hm, Hp.
  - intros o k [H|[H|H]] Hfail; [by left|by right|].
    rewrite H in Hfail. by destruct Hfail.
Qed.

Lemma health_route_always_ok_witness :
  Health.router curl_get node = Some (Health.health curl_get node)
  ∧ (curl_f (probe down 1) ≠ 0 → probe down 1 = Unreachable ∨ probe down 1 = TimedOut).
Proof.
  destruct (health_route_always_ok curl_get node) as (_ & _ & Hroute & Hfail).
  split.
  - apply Hroute; reflexivity.
  - apply Hfail. left. reflexivity.
Defined.

(* ===================================================================== *)
(** * The claims on concrete runs                                         *)
(* ===================================================================== *)

Lemma health_poll_five_attempts_witness :
  (∃ w', Deploy.poll (invoke "") slow_start staging live = (Next tt, w')
         ∧ trace w' = trace live ++ five_attempts (HEALTH_CHECK_URL staging)
         ∧ last (stdout w') = Some "[INFO] Health check passed!")
  ∧ (∃ w' rest, Rollback.poll (invoke "") down staging live = (Exit 1, w')
         ∧ trace w' = trace live ++ five_attempts (HEALTH_CHECK_URL staging) ++ rest
         ∧ Forall (λ a, is_attempt a = false) rest
         ∧ "[ERROR] Health check failed after rollback!" ∈ stdout w').
Proof.
  split.
  - apply (proj1 (health_poll_five_attempts (invoke "") slow_start staging live)).
    + intros k Hk. destruct k as [|[|[|[|[|k]]]]]; [lia|by vm_compute..|lia].
    + reflexivity.
  - apply (proj2 (health_poll_five_attempts (invoke "") down staging live)).
    intros k _. by vm_compute.
Defined.

Lemma failed_publish_reverts_to_backup_witness :
  ∃ w', Deploy.deploy (invoke "") down live = (Exit 1, w')
        ∧ current (fs w') = Some "/var/www/my-app/staging/backup_20240107_120000"
        ∧ Deploy.BACKUP (invoke "") staging ≠ Deploy.RELEASE_DIR (invoke "") staging
        ∧ trace w' = trace (Deploy.stage (invoke "") down live).2
                     ++ five_attempts (HEALTH_CHECK_URL staging)
                     ++ [ALn (Deploy.BACKUP (invoke "") staging) (Deploy.CURRENT staging);
                         APm2 ["restart"; PM2_APP_NAME staging]].
Proof.
  apply (failed_publish_reverts_to_backup (invoke "") down live staging
           (Deploy.stage (invoke "") down live).2).
  - apply run_next. by vm_compute.
  - by vm_compute.
  - reflexivity.
  - intros k _. by vm_compute.
  - reflexivity.
Defined.

Lemma retention_keeps_newest_witness :
  kept_newest 5 (releases (fs (Deploy.release (invoke "") healthy live).2))
                (releases (fs (Deploy.deploy (invoke "") healthy live).2))
  ∧ kept_newest 3
      (glob_backup (toplevel (fs (Deploy.release (invoke "") healthy live).2)))
      (glob_backup (toplevel (fs (Deploy.deploy (invoke "") healthy live).2)))
  ∧ others_kept (fs (Deploy.release (invoke "") healthy live).2)
                (fs (Deploy.deploy (invoke "") healthy live).2).
Proof.
  apply (retention_keeps_newest (invoke "") healthy live staging).
  - apply run_next. by vm_compute.
  - reflexivity.
  - reflexivity.
  - reflexivity.
Defined.

Lemma rollback_target_resolution_witness :
  Rollback.ROLLBACK_PATH (invoke "backup_20240101_000000") staging
  = "/var/www/my-app/staging/backup_20240101_000000"
  ∧ Rollback.ROLLBACK_PATH (invoke "20240101_000000") staging
    = "/var/www/my-app/staging/releases/20240101_000000"
  ∧ ∃ w', Rollback.rollback (invoke "20231231_000000") healthy live = (Exit 1, w')
          ∧ fs w' = fs live ∧ timeline w' = timeline live.
Proof.
  split; [|split].
  - apply (proj1 (rollback_target_resolution (invoke "backup_20240101_000000")
                    healthy live) staging). reflexivity.
  - apply (proj1 (proj2 (rollback_target_resolution (invoke "20240101_000000")
                           healthy live)) staging). reflexivity.
  - apply (proj2 (proj2 (rollback_target_resolution (invoke "20231231_000000")
                           healthy live))).
    + discriminate.
    + intros s Hs. vm_compute in Hs. injection Hs as <-. by vm_compute.
Defined.

Lemma cleanup_failures_swallowed_witness :
  ∃ w2, Deploy.cleanup rm_fails staging (Deploy.release (invoke "") rm_fails live).2
        = (Next 0, w2)
        ∧ "[INFO] Deployment to staging completed successfully!"
          ∈ stdout (Deploy.deploy (invoke "") rm_fails live).2
        ∧ (Deploy.deploy (invoke "") rm_fails live).1 = Exit 0
        ∧ size (releases (fs (Deploy.deploy (invoke "") rm_fails live).2)) = 7.
Proof.
  destruct (cleanup_failures_swallowed (invoke "") rm_fails live staging
              (Deploy.release (invoke "") rm_fails live).2
              ltac:(apply run_next; by vm_compute))
    as (w2 & Hc & _ & Hout & Hexit).
  exists w2. split; [exact Hc|]. split; [exact Hout|]. split.
  - apply Hexit. left. reflexivity.
  - by vm_compute.
Defined.

Lemma rollback_confirmation_gate_witness :
  ∃ w', Rollback.rollback (invoke "20240101_000000") healthy live = (Exit 0, w')
        ∧ fs w' = fs live
        ∧ trace w' = trace live ++ [ARead "Are you sure you want to continue? (yes/no): "]
        ∧ Forall (λ e, e.2 = fs live) (drop (length (timeline live)) (timeline w'))
        ∧ "[INFO] Rollback cancelled" ∈ stdout w'.
Proof.
  apply (proj2 (rollback_confirmation_gate (invoke "20240101_000000") healthy live staging
                  eq_refl ltac:(discriminate) ltac:(discriminate) ltac:(by vm_compute))
               "no" "no").
  - reflexivity.
  - by vm_compute.
  - discriminate.
Defined.

Lemma rollback_snapshots_out_of_reach_witness :
  ("rollback_backup_20240102_000000" ∉ ls_dt_backup (toplevel (fs live)))
  ∧ toplevel (fs (Deploy.deploy (invoke "") healthy live).2)
      !! "rollback_backup_20240102_000000" = Some 2
  ∧ Rollback.ROLLBACK_PATH (invoke "rollback_backup_20240102_000000") staging
    = "/var/www/my-app/staging/releases/rollback_backup_20240102_000000".
Proof.
  split; [|split].
  - apply (rollback_snapshots_out_of_reach (invoke "") healthy live). reflexivity.
  - rewrite (proj1 (proj2 (proj2 (rollback_snapshots_out_of_reach (invoke "") healthy live
                             "rollback_backup_20240102_000000" eq_refl)))).
    by vm_compute.
  - apply (proj1 (proj2 (proj2 (proj2 (rollback_snapshots_out_of_reach
             (invoke "rollback_backup_20240102_000000") healthy live
             "rollback_backup_20240102_000000" eq_refl)))) eq_refl staging).
Defined.

Lemma health_attempt_succeeds_below_400_witness :
  (curl_health healthy (HEALTH_CHECK_URL staging) 1 fresh).1 = Next 0.
Proof.
  apply (proj2 (health_attempt_succeeds_below_400 healthy (HEALTH_CHECK_URL staging) 1 fresh)).
  exists 200. split; [reflexivity|lia].
Defined.

(* ===================================================================== *)
(** * The health loop at every attempt                                    *)
(* ===================================================================== *)

Section HealthLoopAny.
Variable o : oracle.
Variables url passed retry : string.
Variable exhausted : Script unit.

Lemma health_check_first w k :
  1 ≤ k ≤ MAX_ATTEMPTS →
  (∀ j, 1 ≤ j < k → curl_f (probe o j) ≠ 0) →
  curl_f (probe o k) = 0 →
  ∃ w', health_check o url passed retry exhausted w = (Next tt, w')
        ∧ fs w' = fs w
        ∧ trace w' = trace w ++ attempts url k
        ∧ last (stdout w') = Some ("[INFO] " +:+ passed).
Proof.
  unfold MAX_ATTEMPTS. intros Hk Hfail Hok.
  assert (k = 1 ∨ k = 2 ∨ k = 3 ∨ k = 4 ∨ k = 5) as Hcase by lia.
  unfold health_check. simpl. unfold bind. simpl.
  destruct Hcase as [->|[->|[->|[->| ->]]]];
    rewrite ?failed_attempt by (apply Hfail; lia); simpl;
    rewrite Hok; simpl;
    (eexists; split; [reflexivity|]; simpl; split; [done|]; split;
     [unfold trace, record; simpl; rewrite ?fmap_app; simpl; by rewrite <- ?app_assoc
     |by rewrite last_snoc]).
Qed.

(** Either some attempt up to the fifth is the first to succeed, or all
    five fail. *)
Lemma first_success_or_none :
  (∃ k, 1 ≤ k ≤ MAX_ATTEMPTS
        ∧ (∀ j, 1 ≤ j < k → curl_f (probe o j) ≠ 0) ∧ curl_f (probe o k) = 0)
  ∨ (∀ k, 1 ≤ k ≤ MAX_ATTEMPTS → curl_f (probe o k) ≠ 0).
Proof.
  unfold MAX_ATTEMPTS.
  destruct (decide (curl_f (probe o 1) = 0)) as [H1|H1];
    [left; exists 1; split; [lia|]; split; [intros; lia|done]|].
  destruct (decide (curl_f (probe o 2) = 0)) as [H2|H2];
    [left; exists 2; split; [lia|]; split; [|done];
     intros j ?; assert (j = 1) as -> by lia; done|].
  destruct (decide (curl_f (probe o 3) = 0)) as [H3|H3];
    [left; exists 3; split; [lia|]; split; [|done];
     intros j ?; assert (j = 1 ∨ j = 2) as [-> | ->] by lia; done|].
  destruct (decide (curl_f (probe o 4) = 0)) as [H4|H4];
    [left; exists 4; split; [lia|]; split; [|done];
     intros j ?; assert (j = 1 ∨ j = 2 ∨ j = 3) as [-> |[-> | ->]] by lia; done|].
  destruct (decide (curl_f (probe o 5) = 0)) as [H5|H5];
    [left; exists 5; split; [lia|]; split; [|done];
     intros j ?; assert (j = 1 ∨ j = 2 ∨ j = 3 ∨ j = 4) as [-> |[-> |[-> | ->]]] by lia;
     done|].
  right. intros k ?.
  assert (k = 1 ∨ k = 2 ∨ k = 3 ∨ k = 4 ∨ k = 5) as [->|[->|[->|[->| ->]]]] by lia; done.
Qed.
End HealthLoopAny.

Lemma requests_app l1 l2 : requests (l1 ++ l2) = requests l1 + requests l2.
Proof. unfold requests. by rewrite filter_app, length_app. Qed.

Lemma requests_attempts url k : requests (attempts url k) = k.
Proof.
  induction k as [|k IH]; [done|].
  destruct k as [|k]; [done|].
  change (attempts url (S (S k))) with ([ACurl url; ASleep 10] ++ attempts url (S k)).
  rewrite requests_app, IH. done.
Qed.

Lemma requests_none l : Forall (λ a, is_attempt a = false) l → requests l = 0.
Proof.
  unfold requests. induction 1 as [|a l Ha _ IH]; [done|].
  rewrite filter_cons_False; [done|]. by destruct a.
Qed.

Lemma poll_passes i o s w k :
  1 ≤ k ≤ MAX_ATTEMPTS →
  (∀ j, 1 ≤ j < k → curl_f (probe o j) ≠ 0) →
  curl_f (probe o k) = 0 →
  (∃ w', Deploy.poll i o s w = (Next tt, w')
         ∧ fs w' = fs w
         ∧ trace w' = trace w ++ attempts (HEALTH_CHECK_URL s) k
         ∧ last (stdout w') = Some "[INFO] Health check passed!")
  ∧ (∃ w', Rollback.poll i o s w = (Next tt, w')
         ∧ fs w' = fs w
         ∧ trace w' = trace w ++ attempts (HEALTH_CHECK_URL s) k
         ∧ last (stdout w') = Some "[INFO] Health check passed!").
Proof.
  intros Hk Hfail Hok. split.
  - unfold Deploy.poll.
    set (w1 := (log_info "Running health check..." w).2).
    destruct (health_check_first o (HEALTH_CHECK_URL s) "Health check passed!"
                "Health check failed, retrying in 10 seconds..."
                (Deploy.revert i o s) w1 k Hk Hfail Hok) as (w' & Hrun & Hfs & Htr & Hout).
    exists w'. split; [|split; [done|split; [|done]]].
    + unfold bind at 1. simpl. exact Hrun.
    + by rewrite Htr.
  - unfold Rollback.poll.
    set (w1 := (log_info "Running health check..." w).2).
    destruct (health_check_first o (HEALTH_CHECK_URL s) "Health check passed!"
                "Health check failed, retrying..."
                (Rollback.alert i o) w1 k Hk Hfail Hok) as (w' & Hrun & Hfs & Htr & Hout).
    exists w'. split; [|split; [done|split; [|done]]].
    + unfold bind at 1. simpl. exact Hrun.
    + by rewrite Htr.
Qed.

Lemma poll_fails i o s w :
  (∀ k, 1 ≤ k ≤ MAX_ATTEMPTS → curl_f (probe o k) ≠ 0) →
  (∃ w5 w', Deploy.poll i o s w = (Exit 1, w')
         ∧ fs w5 = fs w
         ∧ trace w5 = trace w ++ five_attempts (HEALTH_CHECK_URL s)
         ∧ Deploy.revert i o s w5 = (Next tt, w'))
  ∧ (∃ w5 w', Rollback.poll i o s w = (Exit 1, w')
         ∧ fs w5 = fs w
         ∧ trace w5 = trace w ++ five_attempts (HEALTH_CHECK_URL s)
         ∧ Rollback.alert i o w5 = (Next tt, w')).
Proof.
  intros Hfail. split.
  - unfold Deploy.poll.
    set (w1 := (log_info "Running health check..." w).2).
    destruct (health_check_exhausted o (HEALTH_CHECK_URL s) "Health check passed!"
                "Health check failed, retrying in 10 seconds..."
                (Deploy.revert i o s) w1 Hfail) as (w5 & Hfs & Htr & Hrun).
    destruct (revert_runs i o s w5) as (w' & rest & Hrev & _).
    exists w5, w'. split; [|split; [done|split; [|done]]].
    + etransitivity; [exact Hrun|]. unfold bind. by rewrite Hrev.
    + by rewrite Htr.
  - unfold Rollback.poll.
    set (w1 := (log_info "Running health check..." w).2).
    destruct (health_check_exhausted o (HEALTH_CHECK_URL s) "Health check passed!"
                "Health check failed, retrying..."
                (Rollback.alert i o) w1 Hfail) as (w5 & Hfs & Htr & Hrun).
    destruct (alert_runs i o w5) as (w' & rest & Hrev & _).
    exists w5, w'. split; [|split; [done|split; [|done]]].
    + etransitivity; [exact Hrun|]. unfold bind. by rewrite Hrev.
    + by rewrite Htr.
Qed.

(** X4. In both scripts the health loop stops at the first request that
    succeeds: when request number [k], for [k] from 1 to 5, is the first to
    succeed, the loop issues exactly [k] requests with a ten-second sleep
    between two of them, reports a pass, goes on to the next step and leaves the
    remote tree as it was. *)
Theorem health_poll_stops_at_first_success (i : input) (o : oracle) (s : settings)
    (w : world) (k : nat) :
  1 ≤ k ≤ MAX_ATTEMPTS →
  (∀ j, 1 ≤ j < k → curl_f (probe o j) ≠ 0) →
  curl_f (probe o k) = 0 →
  (∃ w', Deploy.poll i o s w = (Next tt, w')
         ∧ fs w' = fs w
         ∧ trace w' = trace w ++ attempts (HEALTH_CHECK_URL s) k
         ∧ requests (attempts (HEALTH_CHECK_URL s) k) = k
         ∧ last (stdout w') = Some "[INFO] Health check passed!")
  ∧ (∃ w', Rollback.poll i o s w = (Next tt, w')
         ∧ fs w' = fs w
         ∧ trace w' = trace w ++ attempts (HEALTH_CHECK_URL s) k
         ∧ requests (attempts (HEALTH_CHECK_URL s) k) = k
         ∧ last (stdout w') = Some "[INFO] Health check passed!").
Proof.
  intros Hk Hfail Hok.
  destruct (poll_passes i o s w k Hk Hfail Hok)
    as [(w1 & H1 & Hfs1 & Htr1 & Hout1) (w2 & H2 & Hfs2 & Htr2 & Hout2)].
  split; eexists; (split; [eassumption|]);
    (split; [done|]); (split; [done|]); (split; [apply requests_attempts|done]).
Qed.

(** X5. Whatever the application and the commands answer, a health loop ends
    (it passes or exits 1) after at least one and at most five health
    requests. *)
Theorem health_poll_bounded (i : input) (o : oracle) (s : settings) (w : world) :
  (∃ r w' new, Deploy.poll i o s w = (r, w')
       ∧ (r = Next tt ∨ r = Exit 1)
       ∧ trace w' = trace w ++ new
       ∧ 1 ≤ requests new ≤ MAX_ATTEMPTS)
  ∧ (∃ r w' new, Rollback.poll i o s w = (r, w')
       ∧ (r = Next tt ∨ r = Exit 1)
       ∧ trace w' = trace w ++ new
       ∧ 1 ≤ requests new ≤ MAX_ATTEMPTS).
Proof.
  destruct (first_success_or_none o) as [(k & Hk & Hfail & Hok)|Hfail].
  - destruct (poll_passes i o s w k Hk Hfail Hok)
      as [(w1 & H1 & _ & Htr1 & _) (w2 & H2 & _ & Htr2 & _)].
    split; eexists _, _, _; (split; [eassumption|]); (split; [by left|]);
      (split; [eassumption|]); rewrite requests_attempts; lia.
  - destruct (poll_fails i o s w Hfail)
      as [(w5 & w1 & H1 & _ & Htr1 & Hrev) (w5' & w2 & H2 & _ & Htr2 & Hal)].
    destruct (revert_runs i o s w5) as (w1' & rest & Hrev' & Htr1' & Hrest & _).
    destruct (alert_runs i o w5') as (w2' & rest' & Hal' & Htr2' & Hrest' & _).
    assert (w1' = w1) as -> by congruence.
    assert (w2' = w2) as -> by congruence.
    split.
    + exists (Exit 1), w1, (five_attempts (HEALTH_CHECK_URL s) ++ rest).
      split; [done|]. split; [by right|]. split.
      * by rewrite Htr1', Htr1, <- app_assoc.
      * rewrite requests_app, (requests_none rest) by done.
        change (five_attempts (HEALTH_CHECK_URL s)) with (attempts (HEALTH_CHECK_URL s) 5).
        rewrite requests_attempts. unfold MAX_ATTEMPTS. lia.
    + exists (Exit 1), w2, (five_attempts (HEALTH_CHECK_URL s) ++ rest').
      split; [done|]. split; [by right|]. split.
      * by rewrite Htr2', Htr2, <- app_assoc.
      * rewrite requests_app, (requests_none rest') by done.
        change (five_attempts (HEALTH_CHECK_URL s)) with (attempts (HEALTH_CHECK_URL s) 5).
        rewrite requests_attempts. unfold MAX_ATTEMPTS. lia.
Qed.

(* ===================================================================== *)
(** * Validation of the arguments                                         *)
(* ===================================================================== *)

Lemma deploy_stops_in_validate i o w n w' :
  Deploy.validate i w = (Exit n, w') → Deploy.deploy i o w = (Exit n, w').
Proof.
  intros H. unfold Deploy.deploy, Deploy.release, Deploy.stage, bind. by rewrite H.
Qed.

Lemma rollback_stops_in_validate i o w n w' :
  Rollback.validate i w = (Exit n, w') → Rollback.rollback i o w = (Exit n, w').
Proof.
  intros H. unfold Rollback.rollback, Rollback.preflight, bind. by rewrite H.
Qed.

Lemma environment_case_none i e :
  e ≠ "staging" → e ≠ "production" → environment_case i e = None.
Proof.
  intros H1 H2. unfold environment_case.
  destruct (String.eqb_spec e "staging"); [done|].
  by destruct (String.eqb_spec e "production").
Qed.

Lemma environment_case_some i e s :
  environment_case i e = Some s →
  e = "staging" ∧ s = Settings (STAGING_SERVER i) "/var/www/my-app/staging"
                               "my-app-staging" "https://staging.example.com/health"
  ∨ e = "production" ∧ s = Settings (PRODUCTION_SERVER i) "/var/www/my-app/production"
                                    "my-app-production" "https://example.com/health".
Proof.
  unfold environment_case.
  destruct (String.eqb_spec e "staging"); [intros [= <-]; by left|].
  destruct (String.eqb_spec e "production"); [intros [= <-]; by right|done].
Qed.

(** X1. An environment other than staging and production is rejected by both
    scripts: they print the invalid-environment error and exit 1, with no
    command run and the remote tree as it was.  An absent first argument
    stands for staging and is not rejected on this account. *)
Theorem unknown_environment_rejected (i : input) (o : oracle) (w : world) :
  (arg1 i ≠ "" → arg1 i ≠ "staging" → arg1 i ≠ "production" →
     (∃ w', Deploy.deploy i o w = (Exit 1, w')
            ∧ fs w' = fs w ∧ timeline w' = timeline w
            ∧ stdout w' = stdout w ++ ["[ERROR] Invalid environment: " +:+ arg1 i;
                                       "Usage: $0 {staging|production}"])
     ∧ (∃ w', Rollback.rollback i o w = (Exit 1, w')
            ∧ fs w' = fs w ∧ timeline w' = timeline w
            ∧ stdout w' = stdout w ++ ["[ERROR] Invalid environment: " +:+ arg1 i;
                                       "Usage: $0 {staging|production} [release_version]"]))
  ∧ (arg1 i = "" →
     environment_case i (Deploy.ENVIRONMENT i) = environment_case i "staging"
     ∧ environment_case i (Rollback.ENVIRONMENT i) = environment_case i "staging").
Proof.
  split.
  - intros H0 H1 H2.
    assert (or_default (arg1 i) "staging" = arg1 i) as He.
    { unfold or_default. by destruct (String.eqb_spec (arg1 i) ""). }
    split.
    + eexists. split.
      * apply deploy_stops_in_validate. unfold Deploy.validate, Deploy.ENVIRONMENT.
        rewrite He, environment_case_none by done. reflexivity.
      * simpl. by rewrite <- app_assoc.
    + eexists. split.
      * apply rollback_stops_in_validate. unfold Rollback.validate, Rollback.ENVIRONMENT.
        rewrite He, environment_case_none by done. reflexivity.
      * simpl. by rewrite <- app_assoc.
  - intros H0. unfold Deploy.ENVIRONMENT, Rollback.ENVIRONMENT, or_default.
    by rewrite H0.
Qed.

(** X2. When the server variable of the selected environment is empty, both
    scripts report that REMOTE_HOST is not set and exit 1 before any command
    is run; the deployment script does so even when the build directory is
    missing as well. *)
Theorem missing_host_rejected (i : input) (o : oracle) (w : world) (s : settings) :
  environment_case i (Deploy.ENVIRONMENT i) = Some s →
  REMOTE_HOST s = "" →
  (∃ w', Deploy.deploy i o w = (Exit 1, w')
         ∧ fs w' = fs w ∧ timeline w' = timeline w
         ∧ stdout w' = stdout w ++ ["[ERROR] REMOTE_HOST is not set for environment: "
                                    +:+ Deploy.ENVIRONMENT i])
  ∧ (∃ w', Rollback.rollback i o w = (Exit 1, w')
         ∧ fs w' = fs w ∧ timeline w' = timeline w
         ∧ stdout w' = stdout w ++ ["[ERROR] REMOTE_HOST is not set"]).
Proof.
  intros Hs Hhost. split.
  - eexists. split.
    + apply deploy_stops_in_validate. unfold Deploy.validate.
      rewrite Hs, Hhost. reflexivity.
    + done.
  - eexists. split.
    + apply rollback_stops_in_validate. unfold Rollback.validate.
      change (Rollback.ENVIRONMENT i) with (Deploy.ENVIRONMENT i).
      rewrite Hs, Hhost. reflexivity.
    + done.
Qed.

(* ===================================================================== *)
(** * rollback.sh without a target                                        *)
(* ===================================================================== *)

Lemma StronglySorted_lookup {A} (R : relation A) (l : list A) j k a b :
  StronglySorted R l → j < k → l !! j = Some a → l !! k = Some b → R a b.
Proof.
  intros Hs. revert j k. induction Hs as [|x l Hs IH Hall]; intros j k Hjk Hj Hk.
  - done.
  - destruct k as [|k]; [lia|]. destruct j as [|j].
    + simpl in Hj, Hk. injection Hj as ->.
      rewrite Forall_forall in Hall. apply Hall. by eapply list_elem_of_lookup_2.
    + simpl in Hj, Hk. apply (IH j k); [lia|done..].
Qed.

Lemma ls_t_listing (d : dir) : newest_first_listing d (ls_t d).
Proof.
  split; [|split].
  - unfold ls_t. rewrite sort_newest_perm. apply NoDup_fst_map_to_list.
  - apply elem_of_ls_t.
  - unfold ls_t. intros j k a b ta tb Hjk Hj Hk Ha Hb.
    apply list_lookup_fmap_Some in Hj as ([a' ta'] & -> & Hj).
    apply list_lookup_fmap_Some in Hk as ([b' tb'] & -> & Hk).
    simpl in Ha, Hb.
    pose proof (StronglySorted_lookup _ _ _ _ _ _
                  (sort_newest_sorted (map_to_list d)) Hjk Hj Hk) as Hle.
    unfold newer_first in Hle. simpl in Hle.
    apply list_elem_of_lookup_2 in Hj, Hk.
    rewrite sort_newest_perm in Hj, Hk.
    apply elem_of_map_to_list in Hj, Hk. simpl in *. congruence.
Qed.

Lemma rollback_validate_passes i w s :
  environment_case i (Rollback.ENVIRONMENT i) = Some s →
  REMOTE_HOST s ≠ "" →
  Rollback.validate i w = (Next s, w).
Proof.
  intros Hs Hhost. unfold Rollback.validate. rewrite Hs.
  by destruct (String.eqb_spec (REMOTE_HOST s) "").
Qed.

(** X3. Called without a target, rollback.sh is a listing and nothing else: it
    runs two [cd] commands and no other, leaves the remote tree as it was,
    prints the releases and then the [backup_*] directories, each listing
    complete, free of duplicates and newest first (or the fallback line when
    the directory cannot be entered or no backup exists), and exits 1. *)
Theorem rollback_without_target_lists (i : input) (o : oracle) (w : world)
    (s : settings) :
  environment_case i (Rollback.ENVIRONMENT i) = Some s →
  REMOTE_HOST s ≠ "" →
  arg2 i = "" →
  (∃ w', Rollback.rollback i o w = (Exit 1, w')
         ∧ fs w' = fs w
         ∧ trace w' = trace w ++ [ACd (REMOTE_PATH s +:+ "/releases"); ACd (REMOTE_PATH s)]
         ∧ stdout w'
           = stdout w
             ++ ["[WARN] =========================================";
                 "[WARN] ROLLBACK INITIATED FOR: " +:+ Rollback.ENVIRONMENT i;
                 "[WARN] =========================================";
                 "[INFO] Available releases:"]
             ++ releases_report o s (fs w)
             ++ ["[INFO] "; "[INFO] Available backups:"]
             ++ backups_report o s (fs w)
             ++ [""; "[ERROR] Please specify a release version or backup to rollback to:";
                 "Usage: $0 " +:+ Rollback.ENVIRONMENT i
                   +:+ " <release_version|backup_YYYYMMDD_HHMMSS>"])
  ∧ newest_first_listing (releases (fs w)) (ls_t (releases (fs w)))
  ∧ newest_first_listing (glob_backup (toplevel (fs w))) (ls_dt_backup (toplevel (fs w))).
Proof.
  intros Hs Hhost Harg. split; [|split; apply ls_t_listing].
  unfold Rollback.rollback, Rollback.preflight.
  unfold bind at 1. unfold bind at 1.
  rewrite (rollback_validate_passes i w s Hs Hhost).
  unfold Rollback.RELEASE_VERSION. rewrite Harg. simpl.
  unfold Rollback.discover, releases_report, backups_report. exec.
  destruct (status o (ACd (REMOTE_PATH s +:+ "/releases")) =? 0);
    destruct (status o (ACd (REMOTE_PATH s)) =? 0); simpl;
    try destruct (ls_dt_backup (toplevel (fs w))) eqn:Hb; simpl;
    (eexists; split; [reflexivity|]; simpl; split; [done|]; split;
     [unfold trace, record; simpl; rewrite !fmap_app; simpl; by rewrite <- !app_assoc
     |rewrite <- ?app_assoc; simpl; try done]).
Qed.

(* ===================================================================== *)
(** * rollback.sh after the confirmation                                  *)
(* ===================================================================== *)

Lemma if_same {A} (b : bool) (x : A) : (if b then x else x) = x.
Proof. by destruct b. Qed.

Section RollbackRun.
Variable i : input.
Variable o : oracle.
Variable s : settings.

(** From the snapshot to the pause before the health loop. *)
Lemma rollback_steps_run {A} (k : Script A) w :
  status o (ALn (Rollback.ROLLBACK_PATH i s) (Rollback.CURRENT s)) = 0 →
  status o (APm2 ["save"]) = 0 →
  ∃ w1 pre,
    (Rollback.snapshot_current i o s ;; Rollback.switch i o s ;; Rollback.restart o s ;;
     log_info "Waiting for application to restart..." ;; sh (sleep 10) ;; k) w = k w1
    ∧ current (fs w1) = Some (Rollback.ROLLBACK_PATH i s)
    ∧ releases (fs w1) = releases (fs w)
    ∧ (∀ n, n ≠ ("rollback_backup_" +:+ Rollback.TIMESTAMP i) → toplevel (fs w1) !! n = toplevel (fs w) !! n)
    ∧ (∀ n, has (toplevel (fs w)) n = true → has (toplevel (fs w1)) n = true)
    ∧ (∀ t, current (fs w) = Some t → test_d (REMOTE_PATH s) (fs w) t = true →
            status o (ACp t (Rollback.SNAPSHOT i s)) = 0 →
            has (toplevel (fs w1)) ("rollback_backup_" +:+ Rollback.TIMESTAMP i) = true)
    ∧ trace w1 = trace w ++ pre
                 ++ [ALn (Rollback.ROLLBACK_PATH i s) (Rollback.CURRENT s);
                     ACd (Rollback.CURRENT s);
                     APm2 ["restart"; PM2_APP_NAME s]; APm2 ["save"]; ASleep 10]
    ∧ (pre = [] ∨ ∃ t, current (fs w) = Some t ∧ pre = [ACp t (Rollback.SNAPSHOT i s)]).
Proof.
  intros Hln Hsave.
  unfold Rollback.snapshot_current, Rollback.switch, Rollback.restart.
  exec. unfold test_L. rewrite locate_current.
  destruct (current (fs w)) as [t|] eqn:Hcur; simpl.
  - rewrite ?Hcur. simpl.
    destruct (test_d (REMOTE_PATH s) (fs w) t) eqn:Ht; simpl.
    + destruct (status o (ACp t (Rollback.SNAPSHOT i s)) =? 0) eqn:Hcp; simpl;
        rewrite Hln; simpl; rewrite Hsave; simpl.
      * eexists _, [ACp t (Rollback.SNAPSHOT i s)]. split; [reflexivity|]. simpl.
        rewrite !if_same. unfold Rollback.SNAPSHOT. rewrite cp_r_snapshot. simpl.
        split; [done|]. split; [done|]. split; [|split; [|split; [|split]]].
        -- intros n Hn. by rewrite lookup_insert_ne.
        -- intros n Hn. by apply has_insert_mono.
        -- intros. apply has_insert.
        -- unfold trace, record; simpl. rewrite !fmap_app. simpl.
           by rewrite <- !app_assoc.
        -- right. eauto.
      * eexists _, [ACp t (Rollback.SNAPSHOT i s)]. split; [reflexivity|]. simpl.
        rewrite !if_same. simpl.
        split; [done|]. split; [done|]. split; [done|]. split; [done|].
        split; [|split].
        -- intros t' [= <-] _ Hok. rewrite Hok in Hcp. done.
        -- unfold trace, record; simpl. rewrite !fmap_app. simpl.
           by rewrite <- !app_assoc.
        -- right. eauto.
    + rewrite Hln; simpl; rewrite Hsave; simpl.
      eexists _, [ACp t (Rollback.SNAPSHOT i s)]. split; [reflexivity|]. simpl.
      rewrite !if_same. simpl.
      split; [done|]. split; [done|]. split; [done|]. split; [done|].
      split; [|split].
      * intros t' [= <-] Ht'. congruence.
      * unfold trace, record; simpl. rewrite !fmap_app. simpl.
        by rewrite <- !app_assoc.
      * right. eauto.
  - rewrite Hln; simpl; rewrite Hsave; simpl.
    eexists _, []. split; [reflexivity|]. simpl. rewrite !if_same. simpl.
    split; [done|]. split; [done|]. split; [done|]. split; [done|].
    split; [done|]. split; [|by left].
    unfold trace, record; simpl. rewrite !fmap_app. simpl.
    by rewrite <- !app_assoc.
Qed.

Lemma succeed_runs w :
  ∃ w' post, Rollback.succeed i o s w = (Exit 0, w')
    ∧ fs w' = fs w
    ∧ trace w' = trace w ++ post
    ∧ (post = [] ∧ SLACK_WEBHOOK_URL i = ""
       ∨ SLACK_WEBHOOK_URL i ≠ ""
         ∧ post = [APost (SLACK_WEBHOOK_URL i)
                     ("Rollback completed on *" +:+ Rollback.ENVIRONMENT i +:+ "*")])
    ∧ "[INFO] Rollback completed successfully!" ∈ stdout w'.
Proof.
  unfold Rollback.succeed. exec.
  destruct (String.eqb_spec (SLACK_WEBHOOK_URL i) "") as [He|Hne]; simpl.
  - eexists _, []. split; [reflexivity|]. simpl. split; [done|].
    split; [by apply trace_app_nil|]. split; [by left|].
    rewrite !elem_of_app, !list_elem_of_singleton. auto 8.
  - eexists _, [_]. split; [reflexivity|]. simpl. split; [by destruct (_ =? _)|].
    split; [by rewrite trace_record|]. split; [by right|].
    rewrite !elem_of_app, !list_elem_of_singleton. auto 8.
Qed.

Lemma alert_shape w :
  ∃ w' post, Rollback.alert i o w = (Next tt, w')
    ∧ fs w' = fs w
    ∧ trace w' = trace w ++ post
    ∧ (post = [] ∧ SLACK_WEBHOOK_URL i = ""
       ∨ SLACK_WEBHOOK_URL i ≠ ""
         ∧ post = [APost (SLACK_WEBHOOK_URL i)
                     ("CRITICAL: Rollback health check failed on *"
                      +:+ Rollback.ENVIRONMENT i +:+ "*")])
    ∧ "[ERROR] Manual intervention required" ∈ stdout w'.
Proof.
  unfold Rollback.alert. exec.
  destruct (String.eqb_spec (SLACK_WEBHOOK_URL i) "") as [He|Hne]; simpl.
  - eexists _, []. split; [reflexivity|]. simpl. split; [done|].
    split; [by apply trace_app_nil|]. split; [by left|].
    rewrite !elem_of_app, !list_elem_of_singleton. auto 8.
  - eexists _, [_]. split; [reflexivity|]. simpl. split; [by destruct (_ =? _)|].
    split; [by rewrite trace_record|]. split; [by right|].
    rewrite !elem_of_app, !list_elem_of_singleton. auto 8.
Qed.
End RollbackRun.

Lemma prefix_inv p s : String.prefix p s = true → ∃ r, s = p +:+ r.
Proof.
  revert s. induction p as [|a p IH]; intros s H.
  - by exists s.
  - destruct s as [|b s]; [done|]. simpl in H.
    destruct (Ascii.ascii_dec a b) as [->|]; [|done].
    destruct (IH s H) as (r & ->). by exists r.
Qed.

(** The rollback target is never the link itself. *)
Lemma rollback_path_real i s r :
  test_d (REMOTE_PATH s) r (Rollback.ROLLBACK_PATH i s)
  = is_real_dir (REMOTE_PATH s) r (Rollback.ROLLBACK_PATH i s)
  ∧ ((∃ id, locate (REMOTE_PATH s) (Rollback.ROLLBACK_PATH i s) = Some (InReleases id))
     ∨ (∃ n, locate (REMOTE_PATH s) (Rollback.ROLLBACK_PATH i s) = Some (AtRoot n))).
Proof.
  unfold Rollback.ROLLBACK_PATH, test_d, is_real_dir.
  destruct (Rollback.is_backup_id (Rollback.RELEASE_VERSION i)) eqn:Hb.
  - apply prefix_inv in Hb as (ts & ->).
    change (REMOTE_PATH s +:+ "/" +:+ "backup_" +:+ ts)
      with (REMOTE_PATH s +:+ "/backup_" +:+ ts).
    rewrite locate_backup. eauto.
  - rewrite locate_release. eauto.
Qed.

Lemma confirm_yes i o w :
  answer o = Some "yes" →
  ∃ w', Rollback.confirm i o w = (Next tt, w')
        ∧ fs w' = fs w
        ∧ trace w' = trace w ++ [ARead "Are you sure you want to continue? (yes/no): "].
Proof.
  intros Hyes. unfold Rollback.confirm. exec. rewrite Hyes. simpl.
  rewrite ?read_value_yes. simpl.
  eexists. split; [reflexivity|]. split; [done|]. by rewrite trace_record.
Qed.

Section RollbackOutcome.
Variable i : input.
Variable o : oracle.
Variable s : settings.
Variable w : world.
Hypothesis Hs : environment_case i (Rollback.ENVIRONMENT i) = Some s.
Hypothesis Hhost : REMOTE_HOST s ≠ "".
Hypothesis Harg : arg2 i ≠ "".
Hypothesis Htarget : test_d (REMOTE_PATH s) (fs w) (Rollback.ROLLBACK_PATH i s) = true.
Hypothesis Hyes : answer o = Some "yes".
Hypothesis Hln : status o (ALn (Rollback.ROLLBACK_PATH i s) (Rollback.CURRENT s)) = 0.
Hypothesis Hsave : status o (APm2 ["save"]) = 0.

(** A confirmed rollback whose [ln] and [pm2 save] succeed gets to the
    health loop with [current] on the target. *)
Lemma rollback_reaches_poll :
  ∃ w3 pre,
    Rollback.rollback i o w = (Rollback.poll i o s ;; Rollback.succeed i o s) w3
    ∧ current (fs w3) = Some (Rollback.ROLLBACK_PATH i s)
    ∧ current_resolves (REMOTE_PATH s) (fs w3) = true
    ∧ snapshot_only i w w3
    ∧ (∀ t, current (fs w) = Some t → test_d (REMOTE_PATH s) (fs w) t = true →
            status o (ACp t (Rollback.SNAPSHOT i s)) = 0 →
            has (toplevel (fs w3)) ("rollback_backup_" +:+ Rollback.TIMESTAMP i) = true)
    ∧ trace w3 = trace w ++ [ARead "Are you sure you want to continue? (yes/no): "]
                 ++ pre ++ switch_commands i s
    ∧ (pre = [] ∨ ∃ t, current (fs w) = Some t ∧ pre = [ACp t (Rollback.SNAPSHOT i s)]).
Proof.
  destruct (preflight_passes i o w s Hs Hhost Harg Htarget) as (w1 & Hpre & Hfs1 & Htl1).
  destruct (confirm_yes i o w1 Hyes) as (w2 & Hconf & Hfs2 & Htr2).
  destruct (rollback_steps_run i o s (Rollback.poll i o s ;; Rollback.succeed i o s)
              w2 Hln Hsave)
    as (w3 & pre & Hrun & Hcur & Hrel & Htop & Hmono & Hsnap & Htr3 & Hshape).
  exists w3, pre. split; [|split; [done|split; [|split; [|split; [|split]]]]].
  - unfold Rollback.rollback. unfold bind at 1. rewrite Hpre.
    unfold bind at 1. rewrite Hconf. exact Hrun.
  - unfold current_resolves, test_d. rewrite locate_current, Hcur.
    destruct (rollback_path_real i s (fs w)) as [Hreal Hloc].
    rewrite Hreal in Htarget. unfold is_real_dir in *.
    destruct Hloc as [(id & Hloc)|(n & Hloc)]; rewrite Hloc in *.
    + by rewrite Hrel, Hfs2, Hfs1.
    + apply Hmono. by rewrite Hfs2, Hfs1.
  - split; [by rewrite Hrel, Hfs2, Hfs1|].
    intros n Hn. rewrite (Htop n Hn). by rewrite Hfs2, Hfs1.
  - intros t Ht Hd Hcp. apply (Hsnap t); rewrite ?Hfs2, ?Hfs1; done.
  - rewrite Htr3, Htr2. unfold trace. rewrite Htl1. unfold switch_commands.
    by rewrite <- !app_assoc.
  - destruct Hshape as [->|(t & Ht & ->)]; [by left|right].
    exists t. split; [|done]. by rewrite <- Hfs1, <- Hfs2.
Qed.
End RollbackOutcome.

(** X6. A confirmed rollback to an existing target whose [ln] and [pm2 save]
    succeed and whose health loop passes (at any of the five attempts) exits
    0 with [current] on the target, which is still a directory; no release is
    touched and nothing at the top level but the snapshot
    [rollback_backup_<TIMESTAMP>], which exists when [current] named a
    directory and the [cp] succeeded.  Neither a failed [cp] nor a failed
    Slack call changes the outcome. *)
Theorem rollback_switches_to_target (i : input) (o : oracle) (s : settings)
    (w : world) (k : nat) :
  environment_case i (Rollback.ENVIRONMENT i) = Some s →
  REMOTE_HOST s ≠ "" →
  arg2 i ≠ "" →
  test_d (REMOTE_PATH s) (fs w) (Rollback.ROLLBACK_PATH i s) = true →
  answer o = Some "yes" →
  status o (ALn (Rollback.ROLLBACK_PATH i s) (Rollback.CURRENT s)) = 0 →
  status o (APm2 ["save"]) = 0 →
  1 ≤ k ≤ MAX_ATTEMPTS →
  (∀ j, 1 ≤ j < k → curl_f (probe o j) ≠ 0) →
  curl_f (probe o k) = 0 →
  ∃ w', Rollback.rollback i o w = (Exit 0, w')
        ∧ current (fs w') = Some (Rollback.ROLLBACK_PATH i s)
        ∧ current_resolves (REMOTE_PATH s) (fs w') = true
        ∧ snapshot_only i w w'
        ∧ (∀ t, current (fs w) = Some t → test_d (REMOTE_PATH s) (fs w) t = true →
                status o (ACp t (Rollback.SNAPSHOT i s)) = 0 →
                has (toplevel (fs w')) ("rollback_backup_" +:+ Rollback.TIMESTAMP i) = true)
        ∧ "[INFO] Rollback completed successfully!" ∈ stdout w'.
Proof.
  intros Hs Hhost Harg Htarget Hyes Hln Hsave Hk Hfail Hok.
  destruct (rollback_reaches_poll i o s w Hs Hhost Harg Htarget Hyes Hln Hsave)
    as (w3 & pre & Hrun & Hcur & Hres & Honly & Hsnap & _).
  destruct (poll_passes i o s w3 k Hk Hfail Hok) as [_ (w4 & Hpoll & Hfs4 & _)].
  destruct (succeed_runs i o s w4) as (w5 & post & Hsucc & Hfs5 & _ & _ & Hout).
  exists w5. split.
  { rewrite Hrun. unfold bind at 1. rewrite Hpoll. exact Hsucc. }
  unfold snapshot_only in *. rewrite Hfs5, Hfs4. done.
Qed.

(** X7. When the health loop of a rollback is exhausted the script exits 1 and
    leaves [current] on the target: after the five requests it runs no
    command but the optional Slack alert, whose failure is ignored.  The one
    [ln] of the run is the switch to the target. *)
Theorem rollback_failure_is_terminal (i : input) (o : oracle) (s : settings)
    (w : world) :
  environment_case i (Rollback.ENVIRONMENT i) = Some s →
  REMOTE_HOST s ≠ "" →
  arg2 i ≠ "" →
  test_d (REMOTE_PATH s) (fs w) (Rollback.ROLLBACK_PATH i s) = true →
  answer o = Some "yes" →
  status o (ALn (Rollback.ROLLBACK_PATH i s) (Rollback.CURRENT s)) = 0 →
  status o (APm2 ["save"]) = 0 →
  (∀ k, 1 ≤ k ≤ MAX_ATTEMPTS → curl_f (probe o k) ≠ 0) →
  ∃ w' pre post,
    Rollback.rollback i o w = (Exit 1, w')
    ∧ current (fs w') = Some (Rollback.ROLLBACK_PATH i s)
    ∧ trace w' = trace w ++ [ARead "Are you sure you want to continue? (yes/no): "]
                 ++ pre ++ switch_commands i s
                 ++ five_attempts (HEALTH_CHECK_URL s) ++ post
    ∧ (pre = [] ∨ ∃ t, current (fs w) = Some t ∧ pre = [ACp t (Rollback.SNAPSHOT i s)])
    ∧ (post = [] ∧ SLACK_WEBHOOK_URL i = ""
       ∨ SLACK_WEBHOOK_URL i ≠ ""
         ∧ post = [APost (SLACK_WEBHOOK_URL i)
                     ("CRITICAL: Rollback health check failed on *"
                      +:+ Rollback.ENVIRONMENT i +:+ "*")])
    ∧ "[ERROR] Manual intervention required" ∈ stdout w'.
Proof.
  intros Hs Hhost Harg Htarget Hyes Hln Hsave Hfail.
  destruct (rollback_reaches_poll i o s w Hs Hhost Harg Htarget Hyes Hln Hsave)
    as (w3 & pre & Hrun & Hcur & Hres & Honly & Hsnap & Htr3 & Hpre).
  destruct (poll_fails i o s w3 Hfail) as [_ (w5 & w6 & Hpoll & Hfs5 & Htr5 & Hal)].
  destruct (alert_shape i o w5) as (w6' & post & Hal' & Hfs6 & Htr6 & Hpost & Hout).
  assert (w6' = w6) as -> by congruence.
  exists w6, pre, post. split.
  { rewrite Hrun. unfold bind at 1. by rewrite Hpoll. }
  split; [by rewrite Hfs6, Hfs5|]. split; [|done].
  rewrite Htr6, Htr5, Htr3. by rewrite <- !app_assoc.
Qed.

(** X8. When the confirmation prompt meets the end of the input, [read] fails
    and rollback.sh exits 1 under [set -e]: the prompt is the only command
    run and the remote tree is as it was. *)
Theorem rollback_unattended_aborts (i : input) (o : oracle) (s : settings) (w : world) :
  environment_case i (Rollback.ENVIRONMENT i) = Some s →
  REMOTE_HOST s ≠ "" →
  arg2 i ≠ "" →
  test_d (REMOTE_PATH s) (fs w) (Rollback.ROLLBACK_PATH i s) = true →
  answer o = None →
  ∃ w', Rollback.rollback i o w = (Exit 1, w')
        ∧ fs w' = fs w
        ∧ trace w' = trace w ++ [ARead "Are you sure you want to continue? (yes/no): "].
Proof.
  intros Hs Hhost Harg Htarget Hnone.
  destruct (preflight_passes i o w s Hs Hhost Harg Htarget) as (w1 & Hpre & Hfs1 & Htl1).
  unfold Rollback.rollback. unfold bind at 1. rewrite Hpre.
  unfold bind at 1. unfold Rollback.confirm. exec. rewrite Hnone. simpl.
  eexists. split; [reflexivity|]. simpl. split; [done|].
  rewrite trace_record. unfold trace. by rewrite Htl1.
Qed.

(* ===================================================================== *)
(** * What a rollback leaves alone                                        *)
(* ===================================================================== *)

Section SnapshotOnly.
Variable i : input.
Variable o : oracle.
Variable s : settings.
Variable w0 : world.

Local Abbreviation kept := (rollback_kept i s w0).

Ltac solve_kept :=
  unfold rollback_kept, snapshot_only in *; simpl; paths; rewrite ?cp_r_snapshot; simpl;
  repeat match goal with H : _ ∧ _ |- _ => destruct H end;
  repeat split; try done; auto;
  try (intros n Hn; rewrite lookup_insert_ne by done; auto).

Ltac walk := unfold wp; exec; repeat case_inner; solve_kept.

Lemma snapshot_current_kept w :
  kept w → wp (Rollback.snapshot_current i o s) (λ _, kept) (λ _, kept) w.
Proof. intros H. unfold Rollback.snapshot_current. walk. Qed.

Lemma switch_kept w :
  kept w → wp (Rollback.switch i o s) (λ _, kept) (λ _, kept) w.
Proof. intros H. unfold Rollback.switch. walk. Qed.

Lemma restart_kept w :
  kept w → wp (Rollback.restart o s) (λ _, kept) (λ _, kept) w.
Proof. intros H. unfold Rollback.restart. walk. Qed.

Lemma alert_kept w :
  kept w → wp (Rollback.alert i o) (λ _, kept) (λ _, kept) w.
Proof. intros H. unfold Rollback.alert. walk. Qed.

Lemma succeed_kept w :
  kept w → wp (Rollback.succeed i o s) (λ _, kept) (λ _, kept) w.
Proof. intros H. unfold Rollback.succeed. walk. Qed.

Lemma poll_kept w :
  kept w → wp (Rollback.poll i o s) (λ _, kept) (λ _, kept) w.
Proof.
  intros HI. unfold Rollback.poll. apply wp_bind. unfold wp at 1, log_info, echo.
  apply health_check_keeps; try done. apply alert_kept.
Qed.

Lemma execute_kept w :
  kept w → wp (Rollback.execute i o s) (λ _, kept) (λ _, kept) w.
Proof.
  intros HI. unfold Rollback.execute.
  wp_seq snapshot_current_kept; [|done].
  wp_seq switch_kept; [|done].
  wp_seq restart_kept; [|done].
  apply wp_bind. unfold wp at 1, log_info, echo.
  apply wp_bind. unfold wp at 1, sh, sleep, bind, ret. simpl.
  apply wp_bind.
  eapply wp_wand; [apply poll_kept; exact H1| |done].
  cbv beta. intros _ w4 H4. by apply succeed_kept.
Qed.

Lemma execute_keeps w :
  fs w = fs w0 →
  snapshot_only i w0 (Rollback.execute i o s w).2
  ∧ (current (fs (Rollback.execute i o s w).2) = current (fs w0)
     ∨ current (fs (Rollback.execute i o s w).2) = Some (Rollback.ROLLBACK_PATH i s)).
Proof.
  intros Hfs.
  assert (kept w) as HI.
  { unfold rollback_kept, snapshot_only. rewrite Hfs. auto. }
  apply execute_kept, wp_run in HI.
  by destruct (Rollback.execute i o s w) as [[[]|n|] w'].
Qed.
End SnapshotOnly.

(** X9. Whatever its arguments, the answers of its commands and the state of
    the application, rollback.sh removes and re-stamps nothing: every release
    and every top-level directory other than its own snapshot
    [rollback_backup_<TIMESTAMP>] is as before, and [current] is either
    untouched or names the target, which the script has seen as a
    directory. *)
Theorem rollback_only_adds_snapshot (i : input) (o : oracle) (w : world) :
  snapshot_only i w (Rollback.rollback i o w).2
  ∧ (current (fs (Rollback.rollback i o w).2) = current (fs w)
     ∨ ∃ s, environment_case i (Rollback.ENVIRONMENT i) = Some s
            ∧ test_d (REMOTE_PATH s) (fs w) (Rollback.ROLLBACK_PATH i s) = true
            ∧ current (fs (Rollback.rollback i o w).2)
              = Some (Rollback.ROLLBACK_PATH i s)).
Proof.
  unfold Rollback.rollback, bind.
  pose proof (preflight_quiet i o w) as Hp.
  destruct (Rollback.preflight i o w) as [[s|n|] w1]; [| |done].
  - destruct Hp as (Hs & _ & _ & Hthere & Hfs1 & _).
    pose proof (confirm_spec i o w1) as [Hc _].
    destruct (Rollback.confirm i o w1) as [[[]|n|] w2]; [| |done].
    + destruct Hc as [_ Hfs2].
      destruct (execute_keeps i o s w w2) as [Honly Hcur]; [congruence|].
      split; [done|]. destruct Hcur as [Hcur|Hcur]; [left; exact Hcur|right].
      eauto.
    + destruct Hc as [Hfs2 _]. simpl. unfold snapshot_only.
      rewrite Hfs2, Hfs1. auto.
  - destruct Hp as (_ & Hfs1 & _). simpl. unfold snapshot_only. rewrite Hfs1. auto.
Qed.

(* ===================================================================== *)
(** * What the staging of a release changes                               *)
(* ===================================================================== *)

Lemma has_lookup (d : dir) n : has d n = true ↔ is_Some (d !! n).
Proof.
  unfold has. destruct (d !! n); split; try done; eauto.
Qed.

Section StageWalk.
Variable i : input.
Variable o : oracle.
Variable s : settings.
Variable w0 : world.

Ltac open_goal :=
  unfold staged, release_stamped, release_linked, release_there in *; simpl; paths;
  rewrite ?cp_r_backup, ?mkdir_p_release, ?write_into_release;
  repeat case_inner;
  repeat match goal with
         | H : _ ∧ _ |- _ => destruct H
         | H : ∃ _, _ |- _ => destruct H
         end.

Ltac solve_lookup :=
  simpl; try done; try lia; auto;
  try (intros n Hn; simpl; rewrite ?lookup_insert_ne by done; by auto);
  try (eexists; split; [apply lookup_insert_eq|simpl; lia]);
  try (eexists; split; [eassumption|simpl; lia]).

Ltac walk := unfold wp; exec; repeat case_inner; try exact I; open_goal;
             repeat split; solve_lookup.

Lemma backup_current_staged w :
  fs w = fs w0 → clock w0 ≤ clock w →
  wp (Deploy.backup_current i o s) (λ _, staged i s w0) (λ _ _, True) w.
Proof.
  intros Hfs Hclock. unfold Deploy.backup_current. walk;
    rewrite ?Hfs in *; try done; try congruence;
    try (intros n Hn; simpl; rewrite ?lookup_insert_ne by done; by auto).
Qed.

Lemma create_release_staged w :
  staged i s w0 w →
  wp (Deploy.create_release i o s)
     (λ _ w', staged i s w0 w' ∧ release_there i w') (λ _ _, True) w.
Proof.
  intros H. unfold Deploy.create_release. walk.
  apply has_insert.
Qed.

Lemma upload_staged w :
  staged i s w0 w ∧ release_there i w →
  wp (Deploy.upload i o s)
     (λ _ w', staged i s w0 w' ∧ release_there i w') (λ _ _, True) w.
Proof. intros H. unfold Deploy.upload. walk. Qed.

Lemma install_staged w :
  staged i s w0 w ∧ release_there i w →
  wp (Deploy.install i o s)
     (λ _ w', staged i s w0 w' ∧ release_stamped i w0 w') (λ _ _, True) w.
Proof. intros H. unfold Deploy.install. walk. Qed.

Lemma copy_env_staged w :
  staged i s w0 w ∧ release_stamped i w0 w →
  wp (Deploy.copy_env i o s)
     (λ _ w', staged i s w0 w' ∧ release_stamped i w0 w') (λ _ _, True) w.
Proof. intros H. unfold Deploy.copy_env. walk. Qed.

Lemma switch_staged w :
  staged i s w0 w ∧ release_stamped i w0 w →
  wp (Deploy.switch i o s)
     (λ _ w', staged i s w0 w' ∧ release_stamped i w0 w' ∧ release_linked i o s w')
     (λ _ _, True) w.
Proof.
  intros H. unfold Deploy.switch. walk.
  intros Hok. rewrite Hok in *. done.
Qed.

Lemma restart_staged w :
  staged i s w0 w ∧ release_stamped i w0 w ∧ release_linked i o s w →
  wp (Deploy.restart i o s)
     (λ _ w', staged i s w0 w' ∧ release_stamped i w0 w' ∧ release_linked i o s w')
     (λ _ _, True) w.
Proof. intros H. unfold Deploy.restart. walk. Qed.
End StageWalk.

Lemma stage_body_staged i o s w0 w :
  fs w = fs w0 → clock w0 ≤ clock w →
  wp (Deploy.backup_current i o s ;; Deploy.create_release i o s ;;
      Deploy.upload i o s ;; Deploy.install i o s ;; Deploy.copy_env i o s ;;
      Deploy.switch i o s ;; Deploy.restart i o s ;;
      log_info "Waiting for application to start..." ;;
      sh (sleep 10) ;; ret s)
     (λ _ w', staged i s w0 w' ∧ release_stamped i w0 w' ∧ release_linked i o s w')
     (λ _ _, True) w.
Proof.
  intros Hfs Hclock.
  wp_seq backup_current_staged; [|done].
  wp_seq create_release_staged; [|done].
  wp_seq upload_staged; [|done].
  wp_seq install_staged; [|done].
  wp_seq copy_env_staged; [|done].
  wp_seq switch_staged; [|done].
  wp_seq restart_staged; [|done].
  apply wp_bind. unfold wp at 1, log_info, echo.
  apply wp_bind. unfold wp, sh, sleep, bind, ret. simpl. done.
Qed.

Lemma validate_clock i w : clock (Deploy.validate i w).2 = clock w.
Proof.
  unfold Deploy.validate.
  destruct (environment_case i (Deploy.ENVIRONMENT i)) as [s|]; [|by exec].
  destruct (String.eqb (REMOTE_HOST s) ""); [by exec|].
  destruct (build_dir_present i); by exec.
Qed.

(** What a staged release looks like. *)
Lemma stage_facts i o w s w1 :
  Deploy.stage i o w = (Next s, w1) →
  staged i s w w1 ∧ release_stamped i w w1 ∧ release_linked i o s w1.
Proof.
  intros Hstage.
  pose proof (stage_returns i o w s w1 Hstage) as Hs.
  assert (wp (Deploy.stage i o)
             (λ _ w', staged i s w w' ∧ release_stamped i w w' ∧ release_linked i o s w')
             (λ _ _, True) w) as H.
  { unfold Deploy.stage. apply wp_bind. unfold wp at 1.
    pose proof (validate_quiet i w) as Hv.
    pose proof (validate_clock i w) as Hc.
    destruct (Deploy.validate i w) as [[s'|n|] w0]; [|done|done].
    destruct Hv as (Hs' & _ & _ & Hfs & _).
    assert (s' = s) as -> by congruence.
    do 3 apply log_inv.
    eapply wp_wand; [apply (stage_body_staged i o s w); simpl| |done].
    - done.
    - simpl in Hc. lia.
    - cbv beta. by intros a w' ?. }
  apply wp_run in H. by rewrite Hstage in H.
Qed.

(* ===================================================================== *)
(** * The outcome of a deployment                                         *)
(* ===================================================================== *)

Lemma release_after_stage i o w s w1 :
  Deploy.stage i o w = (Next s, w1) →
  Deploy.release i o w = (Deploy.poll i o s ;; ret s) w1.
Proof. intros H. unfold Deploy.release. unfold bind at 1. by rewrite H. Qed.

Lemma revert_without_backup i o s w :
  test_d (REMOTE_PATH s) (fs w) (Deploy.BACKUP i s) = false →
  ∃ w', Deploy.revert i o s w = (Next tt, w')
        ∧ fs w' = fs w ∧ timeline w' = timeline w.
Proof.
  intros Hno. unfold Deploy.revert. exec. rewrite Hno. simpl. eauto.
Qed.

(** The newest entry of a directory heads its listing. *)
Lemma ls_t_head (d : dir) n t :
  d !! n = Some t →
  (∀ m tm, m ≠ n → d !! m = Some tm → tm < t) →
  ∃ rest, ls_t d = n :: rest ∧ n ∉ rest.
Proof.
  intros Hn Hmax. destruct (ls_t_listing d) as (Hnd & Hin & Hsorted).
  assert (n ∈ ls_t d) as Hel by (apply Hin; eauto).
  destruct (ls_t d) as [|a rest] eqn:Hl; [by apply elem_of_nil in Hel|].
  destruct (decide (a = n)) as [->|Hne].
  - exists rest. split; [done|]. by apply NoDup_cons in Hnd as [? _].
  - apply elem_of_cons in Hel as [->|Hel]; [done|].
    apply list_elem_of_lookup in Hel as [k Hk].
    assert (is_Some (d !! a)) as [ta Ha] by (apply Hin; left).
    pose proof (Hsorted 0 (S k) a n ta t) as Hle.
    specialize (Hle ltac:(lia) eq_refl Hk Ha Hn).
    specialize (Hmax a ta Hne Ha). lia.
Qed.

Lemma head_not_pruned (l : list string) n rest k :
  l = n :: rest → n ∉ rest → n ∉ tail_from (S (S k)) l.
Proof.
  intros -> Hout. unfold tail_from. simpl.
  intros Hin. apply Hout. rewrite <- (take_drop k rest). apply elem_of_app. by right.
Qed.

Lemma cleanup_keeps o s w :
  ∃ w', Deploy.cleanup o s w = (Next 0, w')
        ∧ current (fs w') = current (fs w)
        ∧ ∀ n, n ∉ tail_from 6 (ls_t (releases (fs w))) →
               releases (fs w') !! n = releases (fs w) !! n.
Proof.
  unfold Deploy.cleanup, Deploy.cleanup_releases, Deploy.cleanup_backups. exec.
  destruct (status o (ACd (REMOTE_PATH s +:+ "/releases")) =? 0); simpl;
    [destruct (tail_from 6 (ls_t (releases (fs w)))) as [|n1 old1] eqn:H1; simpl;
     [|destruct (status o (ARm (REMOTE_PATH s +:+ "/releases") (n1 :: old1)) =? 0);
       simpl]|];
    (destruct (status o (ACd (REMOTE_PATH s)) =? 0); simpl;
     [destruct (tail_from 4 (ls_dt_backup (toplevel (fs w)))) as [|n2 old2]; simpl;
      [|destruct (status o (ARm (REMOTE_PATH s) (n2 :: old2)) =? 0); simpl]|]);
    (eexists; split; [reflexivity|]; simpl; split; [done|]; intros n Hn;
     rewrite ?rm_rf_lookup, ?decide_False by done; done).
Qed.

(** X10. On a host without a deployment to back up (no [current] directory,
    and no directory of the backup's name), a staged release whose five
    health requests fail stays live: the failure branch finds no backup and
    runs no command, [current] keeps naming the new release, and the script
    exits 1. *)
Theorem first_deploy_failure_stays_live (i : input) (o : oracle) (w : world)
    (s : settings) (w1 : world) :
  Deploy.stage i o w = (Next s, w1) →
  test_d (REMOTE_PATH s) (fs w) (Deploy.CURRENT s) = false →
  has (toplevel (fs w)) ("backup_" +:+ Deploy.TIMESTAMP i) = false →
  status o (ALn (Deploy.RELEASE_DIR i s) (Deploy.CURRENT s)) = 0 →
  (∀ k, 1 ≤ k ≤ MAX_ATTEMPTS → curl_f (probe o k) ≠ 0) →
  ∃ w', Deploy.deploy i o w = (Exit 1, w')
        ∧ fs w' = fs w1
        ∧ current (fs w') = Some (Deploy.RELEASE_DIR i s)
        ∧ toplevel (fs w') = toplevel (fs w)
        ∧ trace w' = trace w1 ++ five_attempts (HEALTH_CHECK_URL s)
        ∧ "[WARN] Initiating rollback..." ∈ stdout w'.
Proof.
  intros Hstage Hnocur Hnobak Hln Hfail.
  destruct (stage_facts i o w s w1 Hstage) as ((_ & _ & _ & Htop) & _ & Hlinked).
  specialize (Htop Hnocur). specialize (Hlinked Hln).
  destruct (poll_fails i o s w1 Hfail) as [(w5 & w6 & Hpoll & Hfs5 & Htr5 & Hrev) _].
  assert (test_d (REMOTE_PATH s) (fs w5) (Deploy.BACKUP i s) = false) as Hno.
  { unfold Deploy.BACKUP. rewrite test_d_backup, Hfs5, Htop. exact Hnobak. }
  destruct (revert_without_backup i o s w5 Hno) as (w6' & Hrev' & Hfs6 & Htl6).
  assert (w6' = w6) as -> by congruence.
  exists w6. split.
  { unfold Deploy.deploy. unfold bind at 1.
    rewrite (release_after_stage i o w s w1 Hstage).
    unfold bind at 1. by rewrite Hpoll. }
  rewrite Hfs6, Hfs5. split; [done|]. split; [done|]. split; [done|]. split.
  - unfold trace in *. by rewrite Htl6.
  - destruct (revert_runs i o s w5) as (w6' & rest & Hrev'' & _ & _ & Hout).
    assert (w6' = w6) as -> by congruence.
    clear -Hrev. revert Hrev. unfold Deploy.revert. exec.
    case_inner; intros [= <-]; simpl;
      rewrite !elem_of_app, !list_elem_of_singleton; auto 6.
Qed.

(** X11. A deployment whose release was staged, whose [ln] succeeds and whose
    health loop passes (at any of the five attempts) exits 0 with [current]
    on the release directory of the run, provided the Slack call, if
    configured, succeeds.  When every older release was last modified before
    the run began, the pruning keeps the new release, so that [current]
    names an existing directory. *)
Theorem deploy_publishes_release (i : input) (o : oracle) (w : world)
    (s : settings) (w1 : world) (k : nat) :
  Deploy.stage i o w = (Next s, w1) →
  status o (ALn (Deploy.RELEASE_DIR i s) (Deploy.CURRENT s)) = 0 →
  1 ≤ k ≤ MAX_ATTEMPTS →
  (∀ j, 1 ≤ j < k → curl_f (probe o j) ≠ 0) →
  curl_f (probe o k) = 0 →
  SLACK_WEBHOOK_URL i = ""
  ∨ status o (APost (SLACK_WEBHOOK_URL i)
                ("Deployment to *" +:+ Deploy.ENVIRONMENT i +:+ "* completed successfully!"))
    = 0 →
  ∃ w', Deploy.deploy i o w = (Exit 0, w')
        ∧ current (fs w') = Some (Deploy.RELEASE_DIR i s)
        ∧ ((∀ n t, releases (fs w) !! n = Some t → t < clock w) →
           has (releases (fs w')) (Deploy.TIMESTAMP i) = true
           ∧ current_resolves (REMOTE_PATH s) (fs w') = true).
Proof.
  intros Hstage Hln Hk Hfail Hok Hslack.
  destruct (stage_facts i o w s w1 Hstage)
    as ((_ & Hrel & _ & _) & (t & Ht & Hclock) & Hlinked).
  specialize (Hlinked Hln).
  destruct (poll_passes i o s w1 k Hk Hfail Hok) as [(w2 & Hpoll & Hfs2 & _) _].
  destruct (cleanup_keeps o s w2) as (w3 & Hclean & Hcur3 & Hkeep).
  destruct (notify_spec i o s w3 Hslack) as (w4 & Hnote & Hfs4 & _).
  exists w4. split.
  { unfold Deploy.deploy. unfold bind at 1.
    rewrite (release_after_stage i o w s w1 Hstage).
    unfold bind at 1. rewrite Hpoll. unfold ret.
    unfold bind at 1. rewrite Hclean.
    unfold bind at 1. by rewrite Hnote. }
  rewrite Hfs4, Hcur3, Hfs2. split; [done|].
  intros Hold.
  assert (has (releases (fs w3)) (Deploy.TIMESTAMP i) = true) as Hhas.
  { apply has_lookup. rewrite Hkeep; [rewrite Hfs2; eauto|].
    rewrite Hfs2.
    destruct (ls_t_head (releases (fs w1)) (Deploy.TIMESTAMP i) t Ht) as (rest & Hl & Hout).
    - intros m tm Hne Hm. rewrite (Hrel m Hne) in Hm. specialize (Hold m tm Hm). lia.
    - by eapply (head_not_pruned _ _ _ 4). }
  split; [done|].
  unfold current_resolves, test_d. rewrite locate_current, Hcur3, Hfs2, Hlinked.
  unfold is_real_dir, Deploy.RELEASE_DIR. by rewrite locate_release.
Qed.

(** X12. The Slack call of deploy.sh runs under [set -e]: when it fails, a
    deployment that has passed its health check, pruned and reported success
    exits with the status of that call instead of 0. *)
Theorem failed_notification_fails_deploy (i : input) (o : oracle) (w : world)
    (s : settings) (w1 : world) (c : nat) :
  Deploy.release i o w = (Next s, w1) →
  SLACK_WEBHOOK_URL i ≠ "" →
  status o (APost (SLACK_WEBHOOK_URL i)
              ("Deployment to *" +:+ Deploy.ENVIRONMENT i +:+ "* completed successfully!"))
  = c →
  c ≠ 0 →
  ∃ w', Deploy.deploy i o w = (Exit c, w')
        ∧ fs w' = fs (Deploy.cleanup o s w1).2
        ∧ ("[INFO] Deployment to " +:+ Deploy.ENVIRONMENT i +:+ " completed successfully!")
          ∈ stdout w'
        ∧ last (trace w')
          = Some (APost (SLACK_WEBHOOK_URL i)
                    ("Deployment to *" +:+ Deploy.ENVIRONMENT i
                     +:+ "* completed successfully!")).
Proof.
  intros Hrel Hurl Hc Hne.
  destruct (cleanup_continues o s w1) as (w2 & Hclean).
  rewrite (deploy_after_release i o w s w1 Hrel). rewrite Hclean. simpl.
  unfold bind at 1. rewrite Hclean.
  unfold Deploy.notify. exec.
  destruct (String.eqb_spec (SLACK_WEBHOOK_URL i) ""); [done|]. simpl.
  rewrite Hc. destruct (Nat.eqb_spec c 0); [done|]. simpl.
  eexists. split; [reflexivity|]. simpl. split; [done|]. split.
  - rewrite !elem_of_app, !list_elem_of_singleton. auto 6.
  - unfold trace, record. simpl. rewrite fmap_app. simpl. by rewrite last_snoc.
Qed.

(** X13. Restart-or-start: [pm2 start] is run exactly when [pm2 restart] has
    failed, and neither a failed [cd] nor a failed restart or start stops the
    deployment; the step ends with the status of [pm2 save], which alone
    decides whether the script goes on, and leaves the remote tree as it
    was. *)
Theorem restart_falls_back_to_start (i : input) (o : oracle) (s : settings) (w : world) :
  ∃ w', Deploy.restart i o s w
        = (if status o (APm2 ["save"]) =? 0 then Next 0
           else Exit (status o (APm2 ["save"])), w')
        ∧ fs w' = fs w
        ∧ trace w'
          = trace w
            ++ [ACd (Deploy.CURRENT s); APm2 ["restart"; PM2_APP_NAME s; "--update-env"]]
            ++ (if status o (APm2 ["restart"; PM2_APP_NAME s; "--update-env"]) =? 0
                then []
                else [APm2 ["start"; "ecosystem.config.js"; "--env"; Deploy.ENVIRONMENT i]])
            ++ [APm2 ["save"]].
Proof.
  unfold Deploy.restart. exec.
  destruct (status o (APm2 ["restart"; PM2_APP_NAME s; "--update-env"]) =? 0); simpl;
    (destruct (Nat.eqb_spec (status o (APm2 ["save"])) 0) as [He|Hne]; simpl;
     [rewrite ?He|]);
    (eexists; split; [reflexivity|]; simpl; rewrite ?if_same; split; [done|];
     unfold trace, record; simpl; rewrite !fmap_app; simpl; by rewrite <- !app_assoc).
Qed.

(* ===================================================================== *)
(** * What a deployment leaves alone                                      *)
(* ===================================================================== *)

Section OwnOnly.
Variable i : input.
Variable o : oracle.
Variable s : settings.
Variable w0 : world.

Local Abbreviation kept := (deploy_kept i s w0).

Ltac solve_kept :=
  unfold deploy_kept, own_only in *; simpl; paths;
  rewrite ?cp_r_backup, ?mkdir_p_release, ?write_into_release;
  repeat case_inner;
  repeat match goal with H : _ ∧ _ |- _ => destruct H end;
  repeat split; try done; auto;
  try (intros n Hn; simpl; rewrite ?lookup_insert_ne by done; by auto).

Ltac walk := unfold wp; exec; repeat case_inner; solve_kept.














End OwnOnly.


(* ===================================================================== *)
(** * No switch without an upload                                         *)
(* ===================================================================== *)

Lemma bind_assoc {A B C} (c : Script A) (f : A → Script B) (g : B → Script C) w :
  bind (bind c f) g w = bind c (λ a, bind (f a) g) w.
Proof. unfold bind. by destruct (c w) as [[?|?|] ?]. Qed.

Lemma current_write_into root p now r : current (write_into root p now r) = current r.
Proof. unfold write_into. by repeat case_match. Qed.

Lemma current_mkdir_p root p now r : current (mkdir_p root p now r) = current r.
Proof. unfold mkdir_p. by repeat case_match. Qed.

Lemma current_cp_r root p now r : current (cp_r root p now r) = current r.
Proof. unfold cp_r. by repeat case_match. Qed.

Section UploadGate.
Variable i : input.
Variable o : oracle.
Variable s : settings.

(** The steps before the switch either stop the script, with no [ln] run
    and [current] as it was, or hand over with the upload complete. *)
Lemma upload_gate {A} (k : Script A) w :
  (∃ n w' new,
      (Deploy.backup_current i o s ;; Deploy.create_release i o s ;;
       Deploy.upload i o s ;; Deploy.install i o s ;; Deploy.copy_env i o s ;; k) w
      = (Exit n, w')
      ∧ n ≠ 0
      ∧ trace w' = trace w ++ new
      ∧ Forall (λ a, is_ln a = false) new
      ∧ current (fs w') = current (fs w))
  ∨ (∃ w' new,
      (Deploy.backup_current i o s ;; Deploy.create_release i o s ;;
       Deploy.upload i o s ;; Deploy.install i o s ;; Deploy.copy_env i o s ;; k) w
      = k w'
      ∧ upload_ok i o s
      ∧ trace w' = trace w ++ new
      ∧ Forall (λ a, is_ln a = false) new
      ∧ current (fs w') = current (fs w)).
Proof.
  unfold Deploy.backup_current, Deploy.create_release, Deploy.upload, Deploy.install,
    Deploy.copy_env, upload_ok.
  exec.
  repeat case_inner.
  all: repeat match goal with
              | H : (_ =? 0) = true |- _ => apply Nat.eqb_eq in H
              | H : (_ =? 0) = false |- _ => apply Nat.eqb_neq in H
              end.
  all: first
    [ left; eexists _, _, _; split; [reflexivity|]; simpl; split; [assumption|]
    | right; eexists _, _; split; [reflexivity|]; simpl; split;
      [repeat split; try assumption;
       destruct (Nat.eqb_spec (status o (ACd (Deploy.RELEASE_DIR i s))) 0);
       by try assumption|] ].
  all: split;
    [unfold trace, record; simpl; rewrite ?fmap_app; simpl; rewrite <- ?app_assoc;
     reflexivity|].
  all: split; [by repeat constructor|].
  all: by rewrite ?current_write_into, ?current_mkdir_p, ?current_cp_r.
Qed.
End UploadGate.

Section UploadGuard.
Variable i : input.
Variable o : oracle.
Variable s : settings.

Lemma upload_gate_wp {A} (k : Script A) (Q : A → world → Prop) E w :
  (∀ n w' new, trace w' = trace w ++ new → Forall (λ a, is_ln a = false) new → E n w') →
  (∀ w', upload_ok i o s → wp k Q E w') →
  wp (Deploy.backup_current i o s ;; Deploy.create_release i o s ;;
      Deploy.upload i o s ;; Deploy.install i o s ;; Deploy.copy_env i o s ;; k) Q E w.
Proof.
  intros Hexit Hnext.
  destruct (upload_gate i o s k w)
    as [(n & w' & new & Hrun & _ & Htr & Hnew & _)|(w' & new & Hrun & Hok & _)];
    unfold wp at 1; rewrite Hrun.
  - by eapply Hexit.
  - by apply Hnext.
Qed.

(** Steps that end, whatever they meet. *)
Lemma switch_ends (P : Prop) w :
  P → wp (Deploy.switch i o s) (λ _ _, P) (λ _ _, P) w.
Proof. intros HP. unfold wp, Deploy.switch. exec. by repeat case_inner. Qed.

Lemma restart_ends (P : Prop) w :
  P → wp (Deploy.restart i o s) (λ _ _, P) (λ _ _, P) w.
Proof. intros HP. unfold wp, Deploy.restart. exec. by repeat case_inner. Qed.

Lemma deploy_tail_ends (P : Prop) w :
  P →
  wp (Deploy.poll i o s ;; ret s) (λ a _, a = s ∧ P) (λ _ _, P) w
  ∧ wp (Deploy.cleanup o s ;; Deploy.notify i o s ;; exit 0)
       (λ (_ : unit) _, False) (λ _ _, P) w.
Proof.
  intros HP. destruct (deploy_tail_inv i o s w w (deploy_inv_refl s w)) as [H1 H2].
  split; (eapply wp_wand; [eassumption|..]); cbv beta; try done.
  by intros a w' [-> _].
Qed.
End UploadGuard.

(** X15. deploy.sh never switches to a release whose upload failed: in every
    run, if the [ln] to the release directory of the run is among the
    commands issued, then [mkdir], [rsync], the [scp] of the package files
    and [npm ci] have all reported success. *)
Theorem no_switch_without_upload (i : input) (o : oracle) (w : world) (s : settings) :
  environment_case i (Deploy.ENVIRONMENT i) = Some s →
  ∃ new, trace (Deploy.deploy i o w).2 = trace w ++ new
         ∧ (ALn (Deploy.RELEASE_DIR i s) (Deploy.CURRENT s) ∈ new → upload_ok i o s).
Proof.
  intros Hs.
  set (R := λ w' : world,
         upload_ok i o s
         ∨ ∃ new, trace w' = trace w ++ new ∧ Forall (λ a, is_ln a = false) new).
  assert (wp (Deploy.deploy i o) (λ _ _, False) (λ _, R) w) as H.
  { unfold Deploy.deploy, Deploy.release, Deploy.stage.
    apply wp_bind, wp_bind, wp_bind. unfold wp at 1.
    pose proof (validate_quiet i w) as Hv.
    destruct (Deploy.validate i w) as [[s'|n|] w1]; [| |done].
    - destruct Hv as (Hs' & _ & _ & _ & Htl & _).
      assert (s' = s) as -> by congruence.
      do 3 apply log_inv.
      apply upload_gate_wp.
      + intros n w' new Htr Hnew. right. exists new. split; [|done].
        rewrite Htr. unfold trace. simpl. by rewrite Htl.
      + intros w2 Hok.
        apply wp_bind.
        eapply wp_wand; [apply (switch_ends i o s (upload_ok i o s)), Hok
                        |cbv beta; intros _ w3 _|cbv beta; intros; by left].
        apply wp_bind.
        eapply wp_wand; [apply (restart_ends i o s (upload_ok i o s)), Hok
                        |cbv beta; intros _ w4 _|cbv beta; intros; by left].
        apply log_inv. apply wp_bind. unfold wp at 1, sh, sleep, bind, ret. simpl.
        unfold wp at 1, ret.
        eapply wp_wand; [by apply (deploy_tail_ends i o s (upload_ok i o s))| |].
        * cbv beta. intros ? w5 [-> _].
          eapply wp_wand; [by apply (deploy_tail_ends i o s (upload_ok i o s))|done|].
          cbv beta. intros. by left.
        * cbv beta. intros. by left.
    - destruct Hv as (_ & _ & Htl). right. exists []. split; [|done].
      unfold trace. by rewrite Htl, app_nil_r. }
  apply wp_run in H.
  pose proof (deploy_keeps i o w s Hs) as [(new' & Htl & _) _].
  destruct (Deploy.deploy i o w) as [[[]|n|] w']; try done. simpl in *.
  destruct H as [Hok|(new & Htr & Hnew)].
  - exists new'.*1. split; [|done]. unfold trace. by rewrite Htl, fmap_app.
  - exists new. split; [done|]. intros Hin.
    rewrite Forall_forall in Hnew. by specialize (Hnew _ Hin).
Qed.

(* ===================================================================== *)
(** * formatUptime                                                        *)
(* ===================================================================== *)

Section Floor.
Local Open Scope Z_scope.

Lemma Qfloor_unique (x : Q) (z : Z) :
  (inject_Z z <= x)%Q → (x < inject_Z (z + 1))%Q → Qfloor x = z.
Proof.
  intros Hle Hlt.
  pose proof (Qfloor_le x) as H1. pose proof (Qlt_floor x) as H2.
  assert (z < Qfloor x + 1).
  { rewrite Zlt_Qlt. eapply Qle_lt_trans; eassumption. }
  assert (Qfloor x < z + 1).
  { rewrite Zlt_Qlt. eapply Qle_lt_trans; eassumption. }
  lia.
Qed.

Lemma Qfloor_minus_Z (x : Q) (z : Z) :
  Qfloor (x - inject_Z z)%Q = Qfloor x - z.
Proof.
  apply Qfloor_unique.
  - unfold Z.sub. rewrite inject_Z_plus, inject_Z_opp.
    pose proof (Qfloor_le x). lra.
  - replace (Qfloor x - z + 1) with ((Qfloor x + 1) + - z) by lia.
    rewrite inject_Z_plus, inject_Z_opp.
    pose proof (Qlt_floor x). lra.
Qed.

Lemma Qfloor_div (x : Q) (k : Z) :
  0 < k → Qfloor (x / inject_Z k)%Q = Qfloor x / k.
Proof.
  intros Hk.
  assert (0 < inject_Z k)%Q as Hk'.
  { change (inject_Z 0 < inject_Z k)%Q. by rewrite <- Zlt_Qlt. }
  pose proof (Z.mod_pos_bound (Qfloor x) k Hk) as Hr.
  pose proof (Z.div_mod (Qfloor x) k ltac:(lia)) as Hd.
  set (q := Qfloor x / k) in *. set (r := Qfloor x mod k) in *.
  apply Qfloor_unique.
  - apply Qle_shift_div_l; [done|].
    rewrite <- inject_Z_mult.
    eapply Qle_trans; [|apply Qfloor_le].
    rewrite <- Zle_Qle. nia.
  - apply Qlt_shift_div_r; [done|].
    rewrite <- inject_Z_mult.
    eapply Qlt_le_trans; [apply Qlt_floor|].
    rewrite <- Zle_Qle. nia.
Qed.

Lemma rem_nonneg (x : Q) (k : Z) :
  0 < k → (0 <= x)%Q →
  (0 <= Detailed.rem x k)%Q ∧ Qfloor (Detailed.rem x k) = Qfloor x mod k.
Proof.
  intros Hk Hx. unfold Detailed.rem.
  apply Qle_bool_iff in Hx as Hb. rewrite Hb.
  rewrite (Qfloor_div x k Hk).
  pose proof (Z.mod_pos_bound (Qfloor x) k Hk).
  pose proof (Z.div_mod (Qfloor x) k ltac:(lia)).
  split.
  - assert (inject_Z (k * (Qfloor x / k)) <= inject_Z (Qfloor x))%Q.
    { rewrite <- Zle_Qle. lia. }
    pose proof (Qfloor_le x). lra.
  - rewrite Qfloor_minus_Z. lia.
Qed.
End Floor.

(** X16. [formatUptime] splits an uptime that is not negative into whole days,
    hours below 24, minutes below 60 and seconds below 60, which add up to the
    whole seconds of the uptime, the [uptime.seconds] of the same report. *)
Theorem formatUptime_splits_whole_seconds (seconds : Q) :
  (0 <= seconds)%Q →
  let p := Detailed.split seconds in
  (0 ≤ Detailed.days p
   ∧ 0 ≤ Detailed.hours p < 24
   ∧ 0 ≤ Detailed.minutes p < 60
   ∧ 0 ≤ Detailed.secs p < 60
   ∧ Detailed.days p * 86400 + Detailed.hours p * 3600
     + Detailed.minutes p * 60 + Detailed.secs p
     = Detailed.Math_floor seconds)%Z.
Proof.
  intros Hx p. subst p. unfold Detailed.split, Detailed.Math_floor.
  cbn [Detailed.days Detailed.hours Detailed.minutes Detailed.secs].
  destruct (rem_nonneg seconds 86400 ltac:(lia) Hx) as [_ H1].
  destruct (rem_nonneg seconds 3600 ltac:(lia) Hx) as [_ H2].
  destruct (rem_nonneg seconds 60 ltac:(lia) Hx) as [_ H3].
  rewrite !Qfloor_div by lia. rewrite H1, H2, H3.
  assert (0 ≤ Qfloor seconds)%Z as Hn.
  { rewrite <- (Qfloor_Z 0). by apply Qfloor_resp_le. }
  Z.div_mod_to_equations. lia.
Qed.

(* ===================================================================== *)
(** * The probes of routes/health.js                                      *)
(* ===================================================================== *)

(** X17. Every answer of the health router to the health, readiness and
    liveness routes has status 200, whatever the request headers and the state
    of the process, so that a [curl -f] against any of them passes; the
    readiness probe in particular always answers [{ready: true}], its 503
    branch being out of reach. *)
Theorem health_probes_always_pass (req : Health.request) (p : Health.process)
    (r : Health.response) :
  Health.router req p = Some r →
  Health.statusCode r = 200
  ∧ curl_f (Responded (Health.statusCode r)) = 0
  ∧ (Health.path req = "/ready" →
     Health.body r = Health.JObject [("ready", Health.JBool true)])
  ∧ (Health.path req = "/live" →
     Health.body r = Health.JObject [("alive", Health.JBool true)]).
Proof.
  unfold Health.router. destruct (Health.method req); try done.
  destruct (String.eqb_spec (Health.path req) "/") as [H1|H1].
  { intros [= <-]. rewrite H1. by repeat split. }
  destruct (String.eqb_spec (Health.path req) "/ready") as [H2|H2].
  { intros [= <-]. rewrite H2. by repeat split. }
  destruct (String.eqb_spec (Health.path req) "/live") as [H3|H3]; [|done].
  intros [= <-]. rewrite H3. by repeat split.
Qed.

(* ===================================================================== *)
(** * setup-cicd.sh                                                       *)
(* ===================================================================== *)

Arguments Setup.mkdir_p : simpl never.
Arguments Setup.blocked : simpl never.
Arguments Setup.writable : simpl never.
Arguments Setup.write : simpl never.

Section SetupScript.
Import Setup.
Local Open Scope setup_scope.

Lemma setup_wp_bind {A B} (c : Script A) (k : A → Script B) Q E w :
  Setup.wp c (λ a w', Setup.wp (k a) Q E w') E w → Setup.wp (x <- c ;; k x) Q E w.
Proof. unfold Setup.wp, Setup.bind. by destruct (c w) as [[a|n|] w']. Qed.

Lemma setup_wp_wand {A} (c : Script A) (Q Q' : A → world → Prop)
    (E E' : nat → world → Prop) w :
  Setup.wp c Q E w →
  (∀ a w', Q a w' → Q' a w') →
  (∀ n w', E n w' → E' n w') →
  Setup.wp c Q' E' w.
Proof. unfold Setup.wp. destruct (c w) as [[a|n|] w']; auto. Qed.

Lemma setup_wp_run {A} (c : Script A) Q E w :
  Setup.wp c Q E w →
  match (c w).1 with
  | Next a => Q a (c w).2
  | Exit n => E n (c w).2
  | OutOfFuel => False
  end.
Proof. unfold Setup.wp. by destruct (c w) as [[a|n|] w']. Qed.

(** ** Trees *)

Lemma make_all_lookup_Some l (t : tree) q e :
  t !! q = Some e → foldl make t l !! q = Some e.
Proof.
  revert t. induction l as [|d l IH]; intros t Hq; [done|]. simpl. apply IH.
  unfold make. destruct (t !! d) eqn:Hd; [done|].
  destruct (decide (d = q)) as [->|Hne]; [congruence|].
  by rewrite lookup_insert_ne.
Qed.

Lemma make_all_lookup_File l (t : tree) q x :
  foldl make t l !! q = Some (File x) → t !! q = Some (File x).
Proof.
  revert t. induction l as [|d l IH]; intros t Hq; [done|]. simpl in Hq.
  apply IH in Hq. unfold make in Hq.
  destruct (t !! d) eqn:Hd; [done|].
  destruct (decide (d = q)) as [->|Hne].
  - by rewrite lookup_insert_eq in Hq.
  - by rewrite lookup_insert_ne in Hq.
Qed.

Lemma make_all_is_dir l (t : tree) d :
  d ∈ l → (∀ d', d' ∈ l → is_file t d' = false) →
  is_dir (foldl make t l) d = true.
Proof.
  revert t. induction l as [|a l IH]; intros t Hin Hfree.
  { by apply elem_of_nil in Hin. }
  simpl.
  assert (make t a !! a = Some Dir) as Ha.
  { unfold make. pose proof (Hfree a ltac:(left)) as Hf. unfold is_file in Hf.
    destruct (t !! a) as [[|x]|] eqn:Hta; [done|done|].
    by rewrite lookup_insert_eq. }
  apply elem_of_cons in Hin as [->|Hin].
  - unfold is_dir. by rewrite (make_all_lookup_Some l _ a Dir Ha).
  - apply IH; [done|]. intros d' Hd'. unfold is_file, make.
    pose proof (Hfree d' ltac:(by right)) as Hf. unfold is_file in Hf.
    destruct (t !! a) eqn:Hta; [done|].
    destruct (decide (a = d')) as [->|Hne].
    + by rewrite lookup_insert_eq.
    + by rewrite lookup_insert_ne.
Qed.

Lemma app_nil_s (s : string) : s +:+ "" = s.
Proof. induction s as [|c s IH]; [done|]. rewrite app_cons. by rewrite IH. Qed.

Lemma components_cons acc c p :
  components acc (String c p)
  = if String.eqb (String c "") "/" then acc :: components (acc +:+ "/") p
    else components (acc +:+ String c "") p.
Proof. reflexivity. Qed.

Lemma components_self acc p : (acc +:+ p) ∈ components acc p.
Proof.
  revert acc. induction p as [|c p IH]; intros acc.
  - rewrite app_nil_s. by left.
  - assert (acc +:+ String c p = (acc +:+ String c "") +:+ p) as ->.
    { rewrite app_assoc_s. by rewrite app_cons. }
    rewrite components_cons.
    destruct (String.eqb_spec (String c "") "/") as [He|Hne].
    + right. rewrite He. apply IH.
    + apply IH.
Qed.

Lemma mkdir_p_lookup_Some p (t : tree) q e :
  t !! q = Some e → mkdir_p p t !! q = Some e.
Proof. apply make_all_lookup_Some. Qed.

Lemma mkdir_p_lookup_File p (t : tree) q x :
  mkdir_p p t !! q = Some (File x) → t !! q = Some (File x).
Proof. apply make_all_lookup_File. Qed.

Lemma mkdir_p_is_dir p (t : tree) :
  blocked p t = false → is_dir (mkdir_p p t) p = true.
Proof.
  intros Hfree. apply make_all_is_dir.
  - apply (components_self "" p).
  - intros d Hd. unfold blocked in Hfree.
    destruct (is_file t d) eqn:Hf; [|done].
    assert (existsb (is_file t) (components "" p) = true) as Hex; [|congruence].
    apply existsb_exists. exists d. split; [|done]. by apply list_elem_of_In.
Qed.

Lemma same_files_refl t : same_files t t.
Proof. by intros p x. Qed.

Lemma same_files_mkdir_p t0 t p : same_files t0 t → same_files t0 (mkdir_p p t).
Proof.
  intros H q x. split.
  - intros Hq. apply mkdir_p_lookup_File in Hq. by apply H.
  - intros Hq. apply mkdir_p_lookup_Some. by apply H.
Qed.

Lemma reach_trans t0 t1 t2 : reach t0 t1 → reach t1 t2 → reach t0 t2.
Proof. intros H1 H2. induction H2; eauto using reach. Qed.


Lemma writable_not_dir p t : writable p t = true → is_dir t p = false.
Proof. unfold writable. by intros [?%negb_true_iff _]%andb_true_iff. Qed.

Lemma grown_write t p x :
  is_dir t p = false → grown t (write p x t).
Proof.
  intros Hp. unfold write. split; intros q Hq.
  - unfold is_file in *. destruct (decide (p = q)) as [->|Hne].
    + by rewrite lookup_insert_eq.
    + by rewrite lookup_insert_ne.
  - unfold is_dir in *. destruct (decide (p = q)) as [->|Hne].
    + congruence.
    + by rewrite lookup_insert_ne.
Qed.

Lemma grown_trans t0 t1 t2 : grown t0 t1 → grown t1 t2 → grown t0 t2.
Proof. intros [H1 H2] [H3 H4]. split; auto. Qed.

Lemma reach_grown t0 t : reach t0 t → grown t0 t.
Proof.
  induction 1 as [|t p _ IH|t p _ IH _ Hw|t _ IH Hw|t x _ IH Hd].
  - by split.
  - eapply grown_trans; [exact IH|]. split; intros q Hq.
    + unfold is_file in *. destruct (t !! q) as [[|y]|] eqn:Hl; try done.
      by rewrite (mkdir_p_lookup_Some p t q _ Hl).
    + unfold is_dir in *. destruct (t !! q) as [[|y]|] eqn:Hl; try done.
      by rewrite (mkdir_p_lookup_Some p t q _ Hl).
  - eapply grown_trans; [exact IH|]. by apply grown_write, writable_not_dir.
  - eapply grown_trans; [exact IH|]. by apply grown_write, writable_not_dir.
  - eapply grown_trans; [exact IH|]. by apply grown_write.
Qed.

Lemma is_file_write p x t : is_file (write p x t) p = true.
Proof. unfold is_file, write. by rewrite lookup_insert_eq. Qed.

Lemma is_file_write_mono p q x t :
  is_file t p = true → is_file (write q x t) p = true.
Proof.
  unfold is_file, write. intros H. destruct (decide (q = p)) as [->|Hne].
  - by rewrite lookup_insert_eq.
  - by rewrite lookup_insert_ne.
Qed.

(** ** Running the script *)

Ltac sexec :=
  unfold Setup.sh, Setup.mkdir, Setup.cat, Setup.npm_init;
  unfold Setup.echo, Setup.gets, Setup.run, Setup.fails, Setup.read_p,
    Setup.ret, Setup.exit, Setup.bind;
  simpl.

Ltac guards :=
  repeat match goal with
         | H : negb _ = true |- _ => apply negb_true_iff in H
         | H : negb _ = false |- _ => apply negb_false_iff in H
         | H : (_ =? 0) = true |- _ => apply Nat.eqb_eq in H
         | H : (_ =? 0) = false |- _ => apply Nat.eqb_neq in H
         end.

Lemma is_dir_mkdir_p p q t : is_dir t q = true → is_dir (mkdir_p p t) q = true.
Proof.
  unfold is_dir. intros H. destruct (t !! q) as [[|x]|] eqn:Hq; try done.
  by rewrite (mkdir_p_lookup_Some p t q _ Hq).
Qed.

Section Steps.
Variable o : oracle.

Lemma echo_next {A} (k : Script A) l Q E w :
  Setup.wp k Q E (World (files w) (ran w) (stdout w ++ [l])) →
  Setup.wp (echo l ;; k) Q E w.
Proof. intros H. by apply setup_wp_bind. Qed.

Lemma echo_skip {A} (k : Script A) l Q E w :
  (∀ w', files w = files w' → Setup.wp k Q E w') →
  Setup.wp (echo l ;; k) Q E w.
Proof. intros H. apply setup_wp_bind. unfold Setup.wp at 1, echo. by apply H. Qed.

Lemma mkdir_next {A} (k : Script A) p Q E w :
  (∀ n w', n ≠ 0 → files w' = files w → stdout w' = stdout w → E n w') →
  (∀ w', files w' = mkdir_p p (files w) → blocked p (files w) = false →
         stdout w' = stdout w → Setup.wp k Q E w') →
  Setup.wp (sh (mkdir o p) ;; k) Q E w.
Proof.
  intros Hexit Hnext. apply setup_wp_bind. unfold Setup.wp at 1. sexec.
  destruct (blocked p (files w)) eqn:Hb; simpl; [by apply Hexit|].
  destruct (status o (Mkdir p) =? 0) eqn:Hs; simpl; guards.
  - by apply Hnext.
  - by apply Hexit.
Qed.

(** [create_directories] writes no file; where it ends, its six
    directories are there. *)
Lemma create_directories_spec w :
  Setup.wp (create_directories o)
    (λ _ w', reach (files w) (files w') ∧ same_files (files w) (files w')
             ∧ Forall (λ d, is_dir (files w') d = true) directories
             ∧ stdout w' = stdout w ++ ["Creating directory structure...";
                                        "Directories created"])
    (λ n w', n ≠ 0 ∧ reach (files w) (files w') ∧ same_files (files w) (files w')
             ∧ stdout w' = stdout w ++ ["Creating directory structure..."])
    w.
Proof.
  unfold create_directories. apply echo_next.
  assert (∀ t p, reach (files w) t ∧ same_files (files w) t →
                 reach (files w) (mkdir_p p t) ∧ same_files (files w) (mkdir_p p t))
    as Hstep.
  { intros t p [??]. split; [by constructor|by apply same_files_mkdir_p]. }
  assert (reach (files w) (files w) ∧ same_files (files w) (files w)) as H0.
  { split; [constructor|apply same_files_refl]. }
  apply mkdir_next; simpl.
  { intros n w1 Hn -> ->. by destruct H0. }
  intros w1 Hf1 Hb1 Ho1. apply mkdir_next; simpl.
  { intros n w2 Hn -> ->. rewrite Hf1, Ho1. by destruct (Hstep _ ".github/workflows" H0). }
  intros w2 Hf2 Hb2 Ho2. apply mkdir_next; simpl.
  { intros n w3 Hn -> ->. rewrite Hf2, Hf1, Ho2, Ho1.
    by destruct (Hstep _ "scripts" (Hstep _ ".github/workflows" H0)). }
  intros w3 Hf3 Hb3 Ho3. apply mkdir_next; simpl.
  { intros n w4 Hn -> ->. rewrite Hf3, Hf2, Hf1, Ho3, Ho2, Ho1.
    by destruct (Hstep _ ".ci" (Hstep _ "scripts" (Hstep _ ".github/workflows" H0))). }
  intros w4 Hf4 Hb4 Ho4. apply mkdir_next; simpl.
  { intros n w5 Hn -> ->. rewrite Hf4, Hf3, Hf2, Hf1, Ho4, Ho3, Ho2, Ho1.
    by destruct (Hstep _ "tests/unit" (Hstep _ ".ci" (Hstep _ "scripts"
                   (Hstep _ ".github/workflows" H0)))). }
  intros w5 Hf5 Hb5 Ho5. apply mkdir_next; simpl.
  { intros n w6 Hn -> ->. rewrite Hf5, Hf4, Hf3, Hf2, Hf1, Ho5, Ho4, Ho3, Ho2, Ho1.
    by destruct (Hstep _ "tests/integration" (Hstep _ "tests/unit" (Hstep _ ".ci"
                   (Hstep _ "scripts" (Hstep _ ".github/workflows" H0))))). }
  intros w6 Hf6 Hb6 Ho6. unfold Setup.wp, echo. simpl.
  rewrite Ho6, Ho5, Ho4, Ho3, Ho2, Ho1. simpl. rewrite <- app_assoc. simpl.
  destruct (Hstep _ "tests/e2e" (Hstep _ "tests/integration" (Hstep _ "tests/unit"
              (Hstep _ ".ci" (Hstep _ "scripts" (Hstep _ ".github/workflows" H0))))))
    as [Hr Hs].
  rewrite <- Hf1, <- Hf2, <- Hf3, <- Hf4, <- Hf5, <- Hf6 in Hr, Hs.
  split; [done|]. split; [done|]. split; [|done].
  apply mkdir_p_is_dir in Hb1, Hb2, Hb3, Hb4, Hb5, Hb6.
  rewrite <- Hf1 in Hb1. rewrite <- Hf2 in Hb2. rewrite <- Hf3 in Hb3.
  rewrite <- Hf4 in Hb4. rewrite <- Hf5 in Hb5. rewrite <- Hf6 in Hb6.
  unfold directories. repeat constructor.
  - rewrite Hf6, Hf5, Hf4, Hf3, Hf2. by do 5 apply is_dir_mkdir_p.
  - rewrite Hf6, Hf5, Hf4, Hf3. by do 4 apply is_dir_mkdir_p.
  - rewrite Hf6, Hf5, Hf4. by do 3 apply is_dir_mkdir_p.
  - rewrite Hf6, Hf5. by do 2 apply is_dir_mkdir_p.
  - rewrite Hf6. by apply is_dir_mkdir_p.
  - done.
Qed.

Lemma ensures_seq (c k : Script nat) fs1 ds1 fs2 ds2 w :
  ensures c fs1 ds1 w →
  (∀ w', ensures k fs2 ds2 w') →
  ensures (c ;; k) (fs1 ++ fs2) (ds1 ++ ds2) w.
Proof.
  unfold ensures. intros Hc Hk. apply setup_wp_bind.
  eapply setup_wp_wand; [exact Hc| |done].
  cbv beta. intros _ w1 (Hr1 & Hf1 & Hd1).
  eapply setup_wp_wand; [apply Hk| |].
  - cbv beta. intros _ w2 (Hr2 & Hf2 & Hd2).
    destruct (reach_grown _ _ Hr2) as [Hgf Hgd].
    split; [by eapply reach_trans|]. split; apply Forall_app; split; try done.
    + eapply Forall_impl; [exact Hf1|]. cbv beta. auto.
    + eapply Forall_impl; [exact Hd1|]. cbv beta. auto.
  - cbv beta. intros n w2 [Hn Hr2]. split; [done|]. by eapply reach_trans.
Qed.

Lemma ensures_weaken (c : Script nat) fs ds fs' ds' w :
  ensures c fs ds w → fs' ⊆ fs → ds' ⊆ ds → ensures c fs' ds' w.
Proof.
  unfold ensures. intros Hc Hfs Hds.
  eapply setup_wp_wand; [exact Hc| |done].
  cbv beta. intros _ w1 (Hr & Hf & Hd). split; [done|].
  rewrite !Forall_forall in *. split; intros x Hx; auto.
Qed.

Ltac solve_reach :=
  repeat first
    [ apply reach_refl
    | apply reach_cat; [|assumption|assumption]
    | apply reach_hook; [|assumption]
    | apply reach_mkdir ].

Ltac solve_there :=
  repeat match goal with
         | |- Forall _ (_ :: _) => constructor
         | |- Forall _ [] => constructor
         end;
  rewrite ?is_file_write; try done; try assumption;
  try (apply is_file_write_mono; rewrite ?is_file_write; by try assumption).

Ltac brute f :=
  unfold ensures, Setup.wp, f; sexec; repeat case_inner; guards;
  repeat split; try done; try solve_reach; try solve_there.

Lemma create_directories_ensures w :
  ensures (create_directories o) [] directories w.
Proof.
  unfold ensures. eapply setup_wp_wand; [apply create_directories_spec|..];
    cbv beta.
  - intros _ w' (Hr & _ & Hd & _). by repeat split.
  - intros n w' (Hn & Hr & _). by split.
Qed.

Lemma setup_github_actions_ensures w :
  ensures (setup_github_actions o) [".github/workflows/ci-cd.yml"] [] w.
Proof. brute setup_github_actions. Qed.

Lemma setup_gitlab_ci_ensures w :
  ensures (setup_gitlab_ci o) [".gitlab-ci.yml"] [] w.
Proof. brute setup_gitlab_ci. Qed.

Lemma setup_jenkins_ensures w :
  ensures (setup_jenkins o) ["Jenkinsfile"] [] w.
Proof. brute setup_jenkins. Qed.

Lemma setup_circleci_ensures w :
  ensures (setup_circleci o) [".circleci/config.yml"] [] w.
Proof. brute setup_circleci. Qed.

Lemma create_deployment_scripts_ensures w :
  ensures (create_deployment_scripts o) [] [] w.
Proof. brute create_deployment_scripts. Qed.

Lemma create_env_templates_ensures w :
  ensures (create_env_templates o) [".env.example"] [] w.
Proof. brute create_env_templates. Qed.

Lemma setup_git_hooks_ensures w :
  ensures (setup_git_hooks o) [] [] w.
Proof. brute setup_git_hooks. Qed.

Lemma setup_docker_ensures w :
  ensures (setup_docker o) ["Dockerfile"; ".dockerignore"] [] w.
Proof. brute setup_docker. Qed.

Lemma setup_npm_scripts_ensures w :
  ensures (setup_npm_scripts o) ["package.json"] [] w.
Proof.
  brute setup_npm_scripts.
  all: try match goal with
           | H : _ !! "package.json" = Some (File _) |- reach _ _ =>
               apply reach_package; [|unfold is_dir; by rewrite H]
           end.
  all: try (apply reach_package; [|assumption]).
  all: try solve_reach.
  all: try (unfold write in *; rewrite lookup_insert_eq in *; done).
Qed.

Lemma report_ensures w : ensures report [] [] w.
Proof.
  unfold ensures, report.
  do 16 (apply echo_skip; intros ? ?).
  unfold Setup.wp, echo. simpl.
  repeat match goal with H : files _ = files _ |- _ => rewrite <- H; clear H end.
  repeat split; constructor.
Qed.

Lemma platform_case_ensures choice w :
  ensures (platform_case o choice) (platform_file choice) [] w.
Proof.
  unfold platform_case, platform_file.
  destruct (String.eqb choice "1"); [apply setup_github_actions_ensures|].
  destruct (String.eqb choice "2"); [apply setup_gitlab_ci_ensures|].
  destruct (String.eqb choice "3"); [apply setup_jenkins_ensures|].
  destruct (String.eqb choice "4"); [apply setup_circleci_ensures|].
  destruct (String.eqb choice "5").
  - apply (ensures_seq _ _ [_] [] [_; _; _] []);
      [apply setup_github_actions_ensures|intros w1].
    apply (ensures_seq _ _ [_] [] [_; _] []);
      [apply setup_gitlab_ci_ensures|intros w2].
    apply (ensures_seq _ _ [_] [] [_] []);
      [apply setup_jenkins_ensures|intros w3].
    apply setup_circleci_ensures.
  - unfold ensures, Setup.wp. sexec. split; [done|constructor].
Qed.

Lemma platform_case_invalid choice w :
  choice ∉ ["1"; "2"; "3"; "4"; "5"] →
  platform_case o choice w
  = (Exit 1, World (files w) (ran w) (stdout w ++ ["Invalid choice"])).
Proof.
  intros Hout. unfold platform_case.
  destruct (String.eqb_spec choice "1") as [->|_]; [set_solver|].
  destruct (String.eqb_spec choice "2") as [->|_]; [set_solver|].
  destruct (String.eqb_spec choice "3") as [->|_]; [set_solver|].
  destruct (String.eqb_spec choice "4") as [->|_]; [set_solver|].
  destruct (String.eqb_spec choice "5") as [->|_]; [set_solver|].
  reflexivity.
Qed.

Lemma platform_file_valid choice :
  choice ∈ ["1"; "2"; "3"; "4"; "5"] ∨ platform_file choice = [].
Proof.
  unfold platform_file.
  destruct (String.eqb_spec choice "1") as [->|_]; [left; set_solver|].
  destruct (String.eqb_spec choice "2") as [->|_]; [left; set_solver|].
  destruct (String.eqb_spec choice "3") as [->|_]; [left; set_solver|].
  destruct (String.eqb_spec choice "4") as [->|_]; [left; set_solver|].
  destruct (String.eqb_spec choice "5") as [->|_]; [left; set_solver|].
  by right.
Qed.

(** From [create_directories] to the end of [main]. *)
Lemma main_body_ensures choice w :
  ensures (create_directories o ;; platform_case o choice ;; setup_npm_scripts o ;;
           create_deployment_scripts o ;; setup_docker o ;;
           create_env_templates o ;; setup_git_hooks o ;; report)
          (platform_file choice ++ common_files) directories w.
Proof.
  eapply ensures_weaken.
  - apply ensures_seq; [apply create_directories_ensures|intros w1].
    apply ensures_seq; [apply platform_case_ensures|intros w2].
    apply ensures_seq; [apply setup_npm_scripts_ensures|intros w3].
    apply ensures_seq; [apply create_deployment_scripts_ensures|intros w4].
    apply ensures_seq; [apply setup_docker_ensures|intros w5].
    apply ensures_seq; [apply create_env_templates_ensures|intros w6].
    apply ensures_seq; [apply setup_git_hooks_ensures|intros w7].
    apply report_ensures.
  - simpl. unfold common_files. set_solver.
  - simpl. set_solver.
Qed.

(** The banner and the prompt change nothing. *)
Lemma setup_wp (Q : nat → world → Prop) E w :
  (answer o ≫= read_value = None → ∀ w1, files w = files w1 → E 1 w1) →
  (∀ choice w1, answer o ≫= read_value = Some choice → files w = files w1 →
     Setup.wp (create_directories o ;; platform_case o choice ;;
               setup_npm_scripts o ;; create_deployment_scripts o ;;
               setup_docker o ;; create_env_templates o ;;
               setup_git_hooks o ;; report) Q E w1) →
  Setup.wp (setup o) Q E w.
Proof.
  intros Hnone Hsome. unfold setup. apply setup_wp_bind. unfold banner.
  do 3 (apply echo_skip; intros ? ?).
  unfold Setup.wp at 1, echo. simpl.
  unfold main. apply setup_wp_bind. unfold detect_platform.
  do 6 (apply echo_skip; intros ? ?).
  unfold Setup.wp at 1, read_p, Setup.bind, Setup.ret, Setup.exit. simpl.
  destruct (answer o ≫= read_value) as [choice|].
  - apply Hsome; [done|]. simpl in *. congruence.
  - apply Hnone; [done|]. simpl in *. congruence.
Qed.
End Steps.
End SetupScript.


(** X19. A run of setup-cicd.sh that gets to its end has read a choice from 1
    to 5, the line typed at the prompt being taken as [read] hands it over
    (without the blanks around it and without its backslashes), and leaves
    behind the six directories of its layout, the configuration file of each
    platform chosen, package.json, Dockerfile, .dockerignore and
    .env.example, each either found or created. *)
Theorem setup_completed_leaves_configs (o : Setup.oracle) (w w' : Setup.world)
    (r : nat) :
  Setup.setup o w = (Next r, w') →
  ∃ line PLATFORM_CHOICE,
    Setup.answer o = Some line
    ∧ read_value line = Some PLATFORM_CHOICE
    ∧ PLATFORM_CHOICE ∈ ["1"; "2"; "3"; "4"; "5"]
    ∧ Forall (λ p, Setup.is_file (Setup.files w') p = true)
             (Setup.platform_file PLATFORM_CHOICE ++ Setup.common_files)
    ∧ Forall (λ d, Setup.is_dir (Setup.files w') d = true) Setup.directories.
Proof.
  intros Hrun.
  assert (Setup.wp (Setup.setup o)
            (λ _ w', ∃ choice, Setup.answer o ≫= read_value = Some choice
               ∧ choice ∈ ["1"; "2"; "3"; "4"; "5"]
               ∧ Forall (λ p, Setup.is_file (Setup.files w') p = true)
                        (Setup.platform_file choice ++ Setup.common_files)
               ∧ Forall (λ d, Setup.is_dir (Setup.files w') d = true) Setup.directories)
            (λ _ _, True) w) as H.
  { apply setup_wp; [done|].
    intros choice w1 Hans _.
    destruct (decide (choice ∈ ["1"; "2"; "3"; "4"; "5"])) as [Hin|Hout].
    - eapply setup_wp_wand; [apply (main_body_ensures o choice w1)|..]; cbv beta;
        [|done].
      intros _ w2 (_ & Hf & Hd). eauto.
    - apply setup_wp_bind.
      eapply setup_wp_wand; [apply (create_directories_spec o w1)|..]; cbv beta;
        [|done].
      intros _ w2 _. apply setup_wp_bind. unfold Setup.wp at 1.
      by rewrite (platform_case_invalid o choice w2 Hout). }
  apply setup_wp_run in H. rewrite Hrun in H. simpl in H.
  destruct H as (choice & Hans & Hrest).
  destruct (Setup.answer o) as [line|]; [|done].
  exists line, choice. by split.
Qed.

(** X20. A typed line that [read] hands over as something other than 1 to 5
    makes setup-cicd.sh exit with a status that is not 0 and without having
    written a file; the choice is checked only after the directories have
    been created, so that the script either stops at a failing [mkdir], or
    leaves its six directories behind, prints Invalid choice and exits 1. *)
Theorem setup_rejects_invalid_choice (o : Setup.oracle) (w : Setup.world)
    (line PLATFORM_CHOICE : string) :
  Setup.answer o = Some line →
  read_value line = Some PLATFORM_CHOICE →
  PLATFORM_CHOICE ∉ ["1"; "2"; "3"; "4"; "5"] →
  ∃ n w', Setup.setup o w = (Exit n, w')
    ∧ n ≠ 0
    ∧ Setup.same_files (Setup.files w) (Setup.files w')
    ∧ (n = 1 ∧ last (Setup.stdout w') = Some "Invalid choice"
       ∧ Forall (λ d, Setup.is_dir (Setup.files w') d = true) Setup.directories
       ∨ last (Setup.stdout w') = Some "Creating directory structure...").
Proof.
  intros Hline Hread Hout.
  assert (Setup.answer o ≫= read_value = Some PLATFORM_CHOICE) as Hans.
  { by rewrite Hline. }
  assert (Setup.wp (Setup.setup o) (λ _ _, False)
            (λ n w', n ≠ 0
               ∧ Setup.same_files (Setup.files w) (Setup.files w')
               ∧ (n = 1 ∧ last (Setup.stdout w') = Some "Invalid choice"
                  ∧ Forall (λ d, Setup.is_dir (Setup.files w') d = true)
                           Setup.directories
                  ∨ last (Setup.stdout w') = Some "Creating directory structure..."))
            w) as H.
  { apply setup_wp; [congruence|].
    intros choice' w1 Hans' Hfs.
    assert (choice' = PLATFORM_CHOICE) as -> by congruence.
    rewrite Hfs. apply setup_wp_bind.
    eapply setup_wp_wand; [apply (create_directories_spec o w1)|..]; cbv beta.
    - intros _ w2 (_ & Hsame & Hdirs & Hout2).
      apply setup_wp_bind. unfold Setup.wp at 1.
      rewrite (platform_case_invalid o PLATFORM_CHOICE w2 Hout). simpl.
      split; [done|]. split; [done|]. left. split; [done|]. split; [|done].
      by rewrite last_snoc.
    - intros n w2 (Hn & _ & Hsame & Hout2). split; [done|]. split; [done|]. right.
      rewrite Hout2. by rewrite last_snoc. }
  apply setup_wp_run in H.
  destruct (Setup.setup o w) as [[r|n|] w']; [done| |done].
  exists n, w'. by split.
Qed.

(* ===================================================================== *)
(** * [current] over a run                                                *)
(* ===================================================================== *)

Lemma steady_snoc root l r r' :
  steady root (l ++ [r]) →
  (current_resolves root r = true → current_resolves root r' = true) →
  steady root ((l ++ [r]) ++ [r']).
Proof.
  intros Hl Hstep j k a b Hjk Hj Hk Ha.
  apply lookup_snoc_Some in Hk as [[Hlt Hk]|[Hlen <-]].
  - apply lookup_snoc_Some in Hj as [[_ Hj]|[Hlen' _]].
    + by apply (Hl j k a b).
    + lia.
  - apply lookup_snoc_Some in Hj as [[Hlt Hj]|[_ <-]]; [|done].
    apply Hstep. apply (Hl j (length l) a r); [|done| |done].
    + rewrite length_app in Hlt. simpl in Hlt. lia.
    + by rewrite lookup_app_r, Nat.sub_diag.
Qed.

Lemma calm_refl root r t : calm root r t t r.
Proof.
  exists []. split; [by rewrite app_nil_r|]. simpl.
  intros j k a b _ Hj Hk Ha. by destruct j as [|[|j]], k as [|[|k]]; simplify_eq/=.
Qed.

Lemma calm_record root r0 t0 a w r' :
  calm root r0 t0 (timeline w) (fs w) →
  (current_resolves root (fs w) = true → current_resolves root r' = true) →
  calm root r0 t0 (record a w) r'.
Proof.
  intros (new & Heq & Hnew) Hstep. exists (new ++ [(a, fs w)]). unfold record.
  split; [by rewrite Heq, app_assoc|].
  rewrite fmap_app. simpl.
  replace (r0 :: (new.*2 ++ [fs w]) ++ [r']) with (((r0 :: new.*2) ++ [fs w]) ++ [r'])
    by (by rewrite <- !app_assoc).
  by apply steady_snoc.
Qed.

Lemma calm_trees root w0 w :
  calm root (fs w0) (timeline w0) (timeline w) (fs w) → steady root (trees_since w0 w).
Proof.
  intros (new & Heq & Hnew). unfold trees_since. by rewrite Heq, drop_app_length.
Qed.

Lemma resolves_grows root r r' :
  grows r r' → current_resolves root r = true → current_resolves root r' = true.
Proof. apply grows_test_d. Qed.

Lemma grows_mkdir_p root p now r : grows r (mkdir_p root p now r).
Proof.
  unfold mkdir_p. destruct (locate root p) as [[| |]|]; try apply grows_refl.
  - destruct (has (releases r) id); [apply grows_refl|].
    repeat split; simpl; auto using has_insert_mono.
  - destruct (has (toplevel r) name); [apply grows_refl|].
    repeat split; simpl; auto using has_insert_mono.
Qed.

Lemma grows_write_into root p now r : grows r (write_into root p now r).
Proof.
  unfold write_into. destruct (locate root p) as [[| |]|]; try apply grows_refl.
  - destruct (has (releases r) id); [|apply grows_refl].
    repeat split; simpl; auto using has_insert_mono.
  - destruct (has (toplevel r) name); [|apply grows_refl].
    repeat split; simpl; auto using has_insert_mono.
Qed.

(** An [ln -sfn] to a directory that is there leaves [current] resolving. *)
Lemma resolves_ln root r target :
  (∃ id, locate root target = Some (InReleases id))
  ∨ (∃ n, locate root target = Some (AtRoot n)) →
  test_d root r target = true →
  current_resolves root (ln_sfn target r) = true.
Proof.
  unfold current_resolves, test_d. rewrite locate_current. simpl.
  unfold is_real_dir.
  intros [[id H]|[n H]]; rewrite H; simpl; done.
Qed.

Lemma resolves_on_release root r id :
  current r = Some (root +:+ "/releases/" +:+ id) →
  current_resolves root r = has (releases r) id.
Proof.
  intros H. unfold current_resolves, test_d. rewrite locate_current, H.
  unfold is_real_dir. by rewrite locate_release.
Qed.

Ltac calm_side :=
  first
    [ done
    | let Hres := fresh "Hres" in
      intros Hres; eapply resolves_grows; [|exact Hres];
      by auto using grows_cp_r, grows_mkdir_p, grows_write_into, grows_refl ].

Ltac solve_calm :=
  simpl; repeat (apply calm_record; simpl; [|try calm_side]); try assumption.

(** ** deploy.sh *)

Section DeployCalm.
Variable i : input.
Variable o : oracle.
Variable s : settings.
Variable w0 : world.

Local Abbreviation inv :=
  (λ w : world, calm (REMOTE_PATH s) (fs w0) (timeline w0) (timeline w) (fs w)).

Ltac solve_there :=
  unfold release_there in *; simpl; paths;
  repeat (rewrite ?write_into_release, ?mkdir_p_release; simpl;
          repeat match goal with
                 | H : has _ _ = true |- _ => rewrite H
                 end;
          rewrite ?has_insert; simpl);
  try done.

Ltac solve_inv :=
  lazymatch goal with
  | |- _ ∧ release_there i _ => split; [solve_calm|solve_there]
  | |- calm _ _ _ _ _ => solve_calm
  end.

Ltac walk := unfold wp; exec; repeat case_inner; solve_inv.

Lemma backup_current_calm w :
  inv w → wp (Deploy.backup_current i o s) (λ _, inv) (λ _, inv) w.
Proof. intros H. unfold Deploy.backup_current. walk. Qed.

Lemma create_release_calm w :
  inv w →
  wp (Deploy.create_release i o s) (λ _ w', inv w' ∧ release_there i w') (λ _, inv) w.
Proof.
  intros H. unfold Deploy.create_release. walk.
  case_inner; [done|apply has_insert].
Qed.

Lemma upload_calm w :
  inv w ∧ release_there i w →
  wp (Deploy.upload i o s) (λ _ w', inv w' ∧ release_there i w') (λ _, inv) w.
Proof. intros [H Hrel]. unfold Deploy.upload. walk. Qed.

Lemma install_calm w :
  inv w ∧ release_there i w →
  wp (Deploy.install i o s) (λ _ w', inv w' ∧ release_there i w') (λ _, inv) w.
Proof. intros [H Hrel]. unfold Deploy.install. walk. Qed.

Lemma copy_env_calm w :
  inv w ∧ release_there i w →
  wp (Deploy.copy_env i o s) (λ _ w', inv w' ∧ release_there i w') (λ _, inv) w.
Proof. intros [H Hrel]. unfold Deploy.copy_env. walk. Qed.

Lemma switch_calm w :
  inv w ∧ release_there i w →
  wp (Deploy.switch i o s) (λ _, inv) (λ _, inv) w.
Proof.
  intros [H Hrel]. unfold Deploy.switch. walk;
    intros _; apply resolves_ln;
    paths; rewrite ?locate_release, ?test_d_release; eauto.
Qed.

Lemma restart_calm w :
  inv w → wp (Deploy.restart i o s) (λ _, inv) (λ _, inv) w.
Proof. intros H. unfold Deploy.restart. walk. Qed.

Lemma revert_calm w :
  inv w → wp (Deploy.revert i o s) (λ _, inv) (λ _, inv) w.
Proof.
  intros H. unfold Deploy.revert. walk;
    (intros _; apply resolves_ln; [|done];
     paths; rewrite locate_backup; eauto).
Qed.

Lemma poll_calm w :
  inv w → wp (Deploy.poll i o s) (λ _, inv) (λ _, inv) w.
Proof.
  intros HI. unfold Deploy.poll. apply wp_bind. unfold wp at 1, log_info, echo.
  apply health_check_keeps.
  - by intros w1 l ?.
  - intros w1 a Ha H1. simpl. by apply calm_record.
  - apply revert_calm.
  - done.
Qed.

Lemma notify_calm w :
  inv w → wp (Deploy.notify i o s) (λ _, inv) (λ _, inv) w.
Proof. intros H. unfold Deploy.notify. walk. Qed.

(** The pruning keeps [current] resolving when it names the release of the
    run and that release is not among the ones that go. *)
Lemma cleanup_calm w :
  inv w →
  current (fs w) = Some (Deploy.RELEASE_DIR i s) →
  Deploy.TIMESTAMP i ∉ tail_from 6 (ls_t (releases (fs w))) →
  wp (Deploy.cleanup o s) (λ _, inv) (λ _, inv) w.
Proof.
  intros H Hcur Hkeep.
  unfold wp, Deploy.cleanup, Deploy.cleanup_releases, Deploy.cleanup_backups. exec.
  destruct (status o (ACd (REMOTE_PATH s +:+ "/releases")) =? 0); simpl;
    [destruct (tail_from 6 (ls_t (releases (fs w)))) as [|n1 old1] eqn:H1; simpl;
     [|destruct (status o (ARm (REMOTE_PATH s +:+ "/releases") (n1 :: old1)) =? 0);
       simpl]|];
    (destruct (status o (ACd (REMOTE_PATH s)) =? 0); simpl;
     [destruct (tail_from 4 (ls_dt_backup (toplevel (fs w)))) as [|n2 old2]; simpl;
      [|destruct (status o (ARm (REMOTE_PATH s) (n2 :: old2)) =? 0); simpl]|]);
    solve_calm;
    paths; rewrite !(resolves_on_release _ _ (Deploy.TIMESTAMP i)) by done; simpl;
    unfold has; rewrite ?rm_rf_lookup, ?decide_False by done; done.
Qed.

Lemma stage_body_calm w :
  inv w →
  wp (Deploy.backup_current i o s ;; Deploy.create_release i o s ;;
      Deploy.upload i o s ;; Deploy.install i o s ;; Deploy.copy_env i o s ;;
      Deploy.switch i o s ;; Deploy.restart i o s ;;
      log_info "Waiting for application to start..." ;;
      sh (sleep 10) ;; ret s)
     (λ _, inv) (λ _, inv) w.
Proof.
  intros HI.
  wp_seq backup_current_calm; [|done].
  wp_seq create_release_calm; [|done].
  wp_seq upload_calm; [|done].
  wp_seq install_calm; [|done].
  wp_seq copy_env_calm; [|done].
  wp_seq switch_calm; [|done].
  wp_seq restart_calm; [|done].
  apply log_inv. apply wp_bind. unfold wp, sh, sleep, bind, ret. simpl.
  by apply calm_record.
Qed.
End DeployCalm.

Lemma stage_calm i o w s :
  environment_case i (Deploy.ENVIRONMENT i) = Some s →
  wp (Deploy.stage i o)
     (λ _ w', calm (REMOTE_PATH s) (fs w) (timeline w) (timeline w') (fs w'))
     (λ _ w', calm (REMOTE_PATH s) (fs w) (timeline w) (timeline w') (fs w'))
     w.
Proof.
  intros Hs. unfold Deploy.stage. apply wp_bind. unfold wp at 1.
  pose proof (validate_quiet i w) as Hv.
  destruct (Deploy.validate i w) as [[s'|n|] w1]; [| |done].
  - destruct Hv as (Hs' & _ & _ & Hfs & Htl & _).
    assert (s' = s) as -> by congruence.
    do 3 apply log_inv.
    eapply wp_wand; [apply (stage_body_calm i o s w); simpl| |].
    + rewrite Hfs, Htl. apply calm_refl.
    + cbv beta. by intros a w' ?.
    + cbv beta. by intros n w' ?.
  - destruct Hv as (_ & Hfs & Htl). rewrite Hfs, Htl. apply calm_refl.
Qed.

Lemma deploy_calm i o w s :
  environment_case i (Deploy.ENVIRONMENT i) = Some s →
  status o (ALn (Deploy.RELEASE_DIR i s) (Deploy.CURRENT s)) = 0 →
  (∀ n t, releases (fs w) !! n = Some t → t < clock w) →
  calm (REMOTE_PATH s) (fs w) (timeline w)
       (timeline (Deploy.deploy i o w).2) (fs (Deploy.deploy i o w).2).
Proof.
  intros Hs Hln Hold.
  assert (wp (Deploy.deploy i o) (λ _ _, False)
             (λ _ w', calm (REMOTE_PATH s) (fs w) (timeline w) (timeline w') (fs w'))
             w) as H.
  { unfold Deploy.deploy, Deploy.release. apply wp_bind, wp_bind.
    pose proof (stage_calm i o w s Hs) as Hst. unfold wp in Hst. unfold wp at 1.
    destruct (Deploy.stage i o w) as [[s'|n|] w1] eqn:Hstage; [|done|done].
    assert (s' = s) as -> by (pose proof (stage_returns i o w s' w1 Hstage); congruence).
    destruct (stage_facts i o w s w1 Hstage)
      as ((_ & Hrel & _ & _) & (t & Ht & Hclock) & Hlinked).
    specialize (Hlinked Hln).
    apply wp_bind.
    pose proof (poll_calm i o s w w1 Hst) as Hp. unfold wp in Hp. unfold wp at 1.
    destruct (first_success_or_none o) as [(k & Hk & Hfail & Hok)|Hnone].
    - destruct (poll_passes i o s w1 k Hk Hfail Hok) as [(w2 & Hpoll & Hfs2 & _) _].
      rewrite Hpoll in *. unfold wp at 1, ret.
      apply wp_bind.
      eapply wp_wand; [apply (cleanup_calm i o s w w2 Hp)| |done].
      + by rewrite Hfs2.
      + rewrite Hfs2.
        destruct (ls_t_head (releases (fs w1)) (Deploy.TIMESTAMP i) t Ht)
          as (rest & Hl & Hout).
        * intros m tm Hne Hm. rewrite (Hrel m Hne) in Hm.
          specialize (Hold m tm Hm). lia.
        * by eapply (head_not_pruned _ _ _ 4).
      + cbv beta. intros _ w3 H3. apply wp_bind.
        eapply wp_wand; [apply (notify_calm i o s w w3 H3)| |done].
        cbv beta. by intros _ w4 H4.
    - destruct (poll_fails i o s w1 Hnone) as [(w5 & w6 & Hpoll & _) _].
      by rewrite Hpoll in *. }
  apply wp_run in H. by destruct (Deploy.deploy i o w) as [[[]|n|] w'].
Qed.

(** ** rollback.sh *)

Section RollbackCalm.
Variable i : input.
Variable o : oracle.
Variable s : settings.
Variable w0 : world.

Local Abbreviation inv :=
  (λ w : world, calm (REMOTE_PATH s) (fs w0) (timeline w0) (timeline w) (fs w)).

Ltac walk := unfold wp, target_there in *; exec; repeat case_inner;
             try split; solve_calm.

Lemma discover_calm w :
  inv w → wp (Rollback.discover i o s) (λ _, inv) (λ _, inv) w.
Proof. intros H. unfold Rollback.discover. walk. Qed.

Lemma verify_calm w :
  inv w →
  wp (Rollback.verify i s) (λ _ w', inv w' ∧ target_there i s w') (λ _, inv) w.
Proof.
  intros H. unfold Rollback.verify. walk.
  by apply negb_false_iff.
Qed.

Lemma confirm_calm w :
  inv w ∧ target_there i s w →
  wp (Rollback.confirm i o) (λ _ w', inv w' ∧ target_there i s w') (λ _, inv) w.
Proof. intros [H Hthere]. unfold Rollback.confirm. walk. Qed.

Lemma snapshot_current_calm w :
  inv w ∧ target_there i s w →
  wp (Rollback.snapshot_current i o s)
     (λ _ w', inv w' ∧ target_there i s w') (λ _, inv) w.
Proof.
  intros [H Hthere]. unfold Rollback.snapshot_current. walk.
  eapply grows_test_d; [apply grows_cp_r|done].
Qed.

Lemma rollback_switch_calm w :
  inv w ∧ target_there i s w →
  wp (Rollback.switch i o s) (λ _, inv) (λ _, inv) w.
Proof.
  intros [H Hthere]. unfold Rollback.switch. walk;
    (intros _; apply resolves_ln; [|done];
     by destruct (rollback_path_real i s (fs w)) as [_ ?]).
Qed.

Lemma rollback_restart_calm w :
  inv w → wp (Rollback.restart o s) (λ _, inv) (λ _, inv) w.
Proof. intros H. unfold Rollback.restart. walk. Qed.

Lemma alert_calm w :
  inv w → wp (Rollback.alert i o) (λ _, inv) (λ _, inv) w.
Proof. intros H. unfold Rollback.alert. walk. Qed.

Lemma rollback_poll_calm w :
  inv w → wp (Rollback.poll i o s) (λ _, inv) (λ _, inv) w.
Proof.
  intros HI. unfold Rollback.poll. apply wp_bind. unfold wp at 1, log_info, echo.
  apply health_check_keeps.
  - by intros w1 l ?.
  - intros w1 a Ha H1. simpl. by apply calm_record.
  - apply alert_calm.
  - done.
Qed.

Lemma succeed_calm w :
  inv w → wp (Rollback.succeed i o s) (λ _, inv) (λ _, inv) w.
Proof. intros H. unfold Rollback.succeed. walk. Qed.

Lemma execute_calm w :
  inv w ∧ target_there i s w →
  wp (Rollback.execute i o s) (λ _, inv) (λ _, inv) w.
Proof.
  intros HI. unfold Rollback.execute.
  wp_seq snapshot_current_calm; [|done].
  wp_seq rollback_switch_calm; [|done].
  wp_seq rollback_restart_calm; [|done].
  apply wp_bind. unfold wp at 1, log_info, echo.
  apply wp_bind. unfold wp at 1, sh, sleep, bind, ret. simpl.
  wp_seq rollback_poll_calm; [|by apply succeed_calm|done].
  simpl. by apply calm_record.
Qed.
End RollbackCalm.

Lemma rollback_calm i o w s :
  environment_case i (Rollback.ENVIRONMENT i) = Some s →
  calm (REMOTE_PATH s) (fs w) (timeline w)
       (timeline (Rollback.rollback i o w).2) (fs (Rollback.rollback i o w).2).
Proof.
  intros Hs.
  assert (wp (Rollback.rollback i o)
             (λ _ w', calm (REMOTE_PATH s) (fs w) (timeline w) (timeline w') (fs w'))
             (λ _ w', calm (REMOTE_PATH s) (fs w) (timeline w) (timeline w') (fs w'))
             w) as H.
  { unfold Rollback.rollback. apply wp_bind.
    unfold Rollback.preflight. apply wp_bind. unfold wp at 1.
    pose proof (rollback_validate_quiet i w) as Hv.
    destruct (Rollback.validate i w) as [[s'|n|] w1]; [| |done].
    2:{ destruct Hv as (_ & Hfs & Htl). rewrite Hfs, Htl. apply calm_refl. }
    destruct Hv as (Hs' & _ & Hfs & Htl & _).
    assert (s' = s) as -> by congruence.
    assert (calm (REMOTE_PATH s) (fs w) (timeline w) (timeline w1) (fs w1)) as H1.
    { rewrite Hfs, Htl. apply calm_refl. }
    do 3 (apply wp_bind; unfold wp at 1, log_warn, echo).
    apply wp_bind.
    assert (wp (if String.eqb (Rollback.RELEASE_VERSION i) ""
                then Rollback.discover i o s else ret tt)
               (λ _ w', calm (REMOTE_PATH s) (fs w) (timeline w) (timeline w') (fs w'))
               (λ _ w', calm (REMOTE_PATH s) (fs w) (timeline w) (timeline w') (fs w'))
               (World (fs w1) (clock w1) (timeline w1)
                  (((stdout w1 ++ ["[WARN] " +:+ "========================================="])
                    ++ ["[WARN] " +:+ "ROLLBACK INITIATED FOR: " +:+ Rollback.ENVIRONMENT i])
                   ++ ["[WARN] " +:+ "========================================="])))
      as Hd.
    { destruct (String.eqb (Rollback.RELEASE_VERSION i) "");
        [by apply (discover_calm i o s w)|done]. }
    eapply wp_wand; [exact Hd| |done].
    cbv beta. intros _ w2 H2.
    apply wp_bind.
    assert (wp (Rollback.resolve i)
               (λ _ w', calm (REMOTE_PATH s) (fs w) (timeline w) (timeline w') (fs w'))
               (λ _ _, False) w2) as Hr.
    { unfold Rollback.resolve.
      by destruct (Rollback.is_backup_id (Rollback.RELEASE_VERSION i)). }
    eapply wp_wand; [exact Hr| |done].
    cbv beta. intros _ w3 H3.
    apply wp_bind.
    eapply wp_wand; [apply (verify_calm i s w w3 H3)| |done].
    cbv beta. intros _ w4 H4. unfold wp at 1, ret.
    wp_seq confirm_calm; [by apply (execute_calm i o s w)|done]. }
  apply wp_run in H. by destruct (Rollback.rollback i o w) as [[[]|n|] w'].
Qed.

(** C1, as amended. [current] stays resolved: over every run of either
    script, once [current] names an existing directory of the tree it names
    one in every later tree of the run, the one the run leaves included; for
    deploy.sh this is under two provisos, that the [ln] of the switch reports
    success and that every release already on the host was last modified
    before the run began.  Every [ln -sfn] of either script finds its target
    to be an existing directory.  Publishing without a local build directory
    exits 1 with no command run and the tree as it was, and rolling back to a
    target that is not a directory on the host exits 1 with no [cp], [ln] or
    [pm2] run and the tree, [current] included, as it was. *)
Theorem current_stays_resolved (i : input) (o : oracle) (w : world) :
  (∀ s, environment_case i (Deploy.ENVIRONMENT i) = Some s →
        status o (ALn (Deploy.RELEASE_DIR i s) (Deploy.CURRENT s)) = 0 →
        (∀ n t, releases (fs w) !! n = Some t → t < clock w) →
        steady (REMOTE_PATH s) (trees_since w (Deploy.deploy i o w).2))
  ∧ (∀ s, environment_case i (Rollback.ENVIRONMENT i) = Some s →
          steady (REMOTE_PATH s) (trees_since w (Rollback.rollback i o w).2))
  ∧ (∀ s, environment_case i (Deploy.ENVIRONMENT i) = Some s →
          extends (REMOTE_PATH s) (timeline w) (timeline (Deploy.deploy i o w).2)
          ∧ extends (REMOTE_PATH s) (timeline w) (timeline (Rollback.rollback i o w).2))
  ∧ (build_dir_present i = false →
     ∃ w', Deploy.deploy i o w = (Exit 1, w') ∧ fs w' = fs w ∧ timeline w' = timeline w)
  ∧ (Rollback.RELEASE_VERSION i ≠ "" →
     (∀ s, environment_case i (Rollback.ENVIRONMENT i) = Some s →
           test_d (REMOTE_PATH s) (fs w) (Rollback.ROLLBACK_PATH i s) = false) →
     ∃ w', Rollback.rollback i o w = (Exit 1, w')
           ∧ fs w' = fs w ∧ timeline w' = timeline w).
Proof.
  split; [|split; [|split; [|split]]].
  - intros s Hs Hln Hold. by apply calm_trees, deploy_calm.
  - intros s Hs. by apply calm_trees, rollback_calm.
  - intros s Hs. split.
    + by apply deploy_keeps.
    + by apply rollback_keeps.
  - intros Hbuild. unfold Deploy.deploy, Deploy.release, Deploy.stage.
    unfold bind at 1 2 3.
    pose proof (validate_quiet i w) as Hv.
    destruct (Deploy.validate i w) as [[s|n|] w1]; [| |done].
    + destruct Hv as (_ & _ & Hb & _). congruence.
    + destruct Hv as (-> & Hfs & Htl). eauto.
  - apply preflight_rejects.
Qed.

(** C1, as stated, fails in three ways.  The first deployment to a host
    starts, and runs its first commands, with no [current] at all.  On a host
    whose releases carry later modification times than the run, a deployment
    that succeeds prunes the release it has just linked.  And when the [ln]
    of the switch fails, which the [echo] after it hides, a deployment that
    succeeds prunes the old release that [current] still names. *)
Lemma current_left_dangling :
  ((Deploy.deploy (invoke "") healthy fresh).1 = Exit 0
   ∧ current_resolves (REMOTE_PATH staging) (fs fresh) = false
   ∧ ∃ a r, timeline (Deploy.deploy (invoke "") healthy fresh).2 !! 0 = Some (a, r)
            ∧ current_resolves (REMOTE_PATH staging) r = false)
  ∧ (current_resolves (REMOTE_PATH staging) (fs skewed) = true
     ∧ (Deploy.deploy (invoke "") healthy skewed).1 = Exit 0
     ∧ current (fs (Deploy.deploy (invoke "") healthy skewed).2)
       = Some (Deploy.RELEASE_DIR (invoke "") staging)
     ∧ current_resolves (REMOTE_PATH staging)
         (fs (Deploy.deploy (invoke "") healthy skewed).2) = false)
  ∧ (current_resolves (REMOTE_PATH staging) (fs rolled_back) = true
     ∧ (Deploy.deploy (invoke "") ln_fails rolled_back).1 = Exit 0
     ∧ current (fs (Deploy.deploy (invoke "") ln_fails rolled_back).2)
       = current (fs rolled_back)
     ∧ current_resolves (REMOTE_PATH staging)
         (fs (Deploy.deploy (invoke "") ln_fails rolled_back).2) = false).
Proof.
  split; [|split].
  - split; [by vm_compute|]. split; [by vm_compute|].
    eexists _, _. split; [by vm_compute|]. by vm_compute.
  - repeat split; by vm_compute.
  - repeat split; by vm_compute.
Qed.

(** C4, as stated, fails in two ways.  When the [rm] of the pruning fails, a
    deployment that succeeds leaves seven releases behind.  And the pruning
    goes by the modification time of the directories, not by the timestamps
    in their names: the release with the oldest timestamp stays when it was
    modified last, and releases with later timestamps go. *)
Lemma retention_not_by_timestamp :
  ((Deploy.deploy (invoke "") rm_fails live).1 = Exit 0
   ∧ size (releases (fs (Deploy.deploy (invoke "") rm_fails live).2)) = 7)
  ∧ ((Deploy.deploy (invoke "") healthy touched).1 = Exit 0
     ∧ size (releases (fs (Deploy.deploy (invoke "") healthy touched).2)) = 5
     ∧ has (releases (fs (Deploy.deploy (invoke "") healthy touched).2))
           "20240101_000000" = true
     ∧ has (releases (fs (Deploy.deploy (invoke "") healthy touched).2))
           "20240102_000000" = false
     ∧ has (releases (fs (Deploy.deploy (invoke "") healthy touched).2))
           "20240103_000000" = false).
Proof. repeat split; by vm_compute. Qed.

(** X21. What confirms a rollback is the word that [read] makes of the typed
    line, not the line itself: on every line that reads as yes, which the
    word does with blanks around it or a backslash inside it, the script goes
    on from the prompt to the snapshot, the switch and the restart, the tree
    being as it was and the prompt the only command run so far. *)
Theorem confirmation_is_read_not_typed (i : input) (o : oracle) (s : settings)
    (w : world) (a : string) :
  environment_case i (Rollback.ENVIRONMENT i) = Some s →
  REMOTE_HOST s ≠ "" →
  arg2 i ≠ "" →
  test_d (REMOTE_PATH s) (fs w) (Rollback.ROLLBACK_PATH i s) = true →
  answer o = Some a →
  read_value a = Some "yes" →
  ∃ w2, Rollback.rollback i o w = Rollback.execute i o s w2
        ∧ fs w2 = fs w
        ∧ trace w2 = trace w ++ [ARead "Are you sure you want to continue? (yes/no): "].
Proof.
  intros Hs Hhost Harg Htarget Ha Hyes.
  destruct (preflight_passes i o w s Hs Hhost Harg Htarget) as (w1 & Hpre & Hfs1 & Htl1).
  unfold Rollback.rollback. unfold bind at 1. rewrite Hpre.
  unfold bind at 1. unfold Rollback.confirm. exec. rewrite Ha. simpl.
  rewrite Hyes. simpl.
  eexists. split; [reflexivity|]. simpl. split; [done|].
  rewrite trace_record. unfold trace. by rewrite Htl1.
Qed.

(* ===================================================================== *)
(** * The further properties on concrete runs                             *)
(* ===================================================================== *)

Lemma health_poll_stops_at_first_success_witness :
  ∃ w', Deploy.poll (invoke "") second_try staging live = (Next tt, w')
        ∧ fs w' = fs live
        ∧ trace w' = [ACurl "https://staging.example.com/health"; ASleep 10;
                      ACurl "https://staging.example.com/health"]
        ∧ requests (attempts (HEALTH_CHECK_URL staging) 2) = 2
        ∧ last (stdout w') = Some "[INFO] Health check passed!".
Proof.
  apply (proj1 (health_poll_stops_at_first_success (invoke "") second_try staging live 2
                  ltac:(unfold MAX_ATTEMPTS; lia)
                  ltac:(intros j Hj; assert (j = 1) as -> by lia; by vm_compute)
                  eq_refl)).
Defined.

Lemma rollback_switches_to_target_witness :
  ∃ w', Rollback.rollback (invoke "20240101_000000") second_try live = (Exit 0, w')
        ∧ current (fs w') = Some "/var/www/my-app/staging/releases/20240101_000000"
        ∧ current_resolves (REMOTE_PATH staging) (fs w') = true
        ∧ snapshot_only (invoke "20240101_000000") live w'
        ∧ has (toplevel (fs w')) "rollback_backup_20240107_120000" = true
        ∧ "[INFO] Rollback completed successfully!" ∈ stdout w'.
Proof.
  destruct (rollback_switches_to_target (invoke "20240101_000000") second_try staging
              live 2) as (w' & Hrun & Hcur & Hres & Honly & Hsnap & Hout).
  - reflexivity.
  - discriminate.
  - discriminate.
  - by vm_compute.
  - reflexivity.
  - reflexivity.
  - reflexivity.
  - unfold MAX_ATTEMPTS. lia.
  - intros j Hj. assert (j = 1) as -> by lia. by vm_compute.
  - reflexivity.
  - exists w'. split; [exact Hrun|]. split; [exact Hcur|]. split; [exact Hres|].
    split; [exact Honly|]. split; [|exact Hout].
    apply (Hsnap "/var/www/my-app/staging/releases/20240106_000000");
      [reflexivity|by vm_compute|reflexivity].
Defined.

Lemma rollback_failure_is_terminal_witness :
  ∃ w', Rollback.rollback (invoke "backup_20240105_000000") down live = (Exit 1, w')
        ∧ current (fs w') = Some "/var/www/my-app/staging/backup_20240105_000000"
        ∧ "[ERROR] Manual intervention required" ∈ stdout w'.
Proof.
  destruct (rollback_failure_is_terminal (invoke "backup_20240105_000000") down staging
              live) as (w' & pre & post & Hrun & Hcur & _ & _ & _ & Hout).
  - reflexivity.
  - discriminate.
  - discriminate.
  - by vm_compute.
  - reflexivity.
  - reflexivity.
  - reflexivity.
  - intros k _. by vm_compute.
  - exists w'. split; [exact Hrun|]. split; [exact Hcur|exact Hout].
Defined.

Lemma rollback_unattended_aborts_witness :
  ∃ w', Rollback.rollback (invoke "20240101_000000") unattended live = (Exit 1, w')
        ∧ fs w' = fs live
        ∧ trace w' = [ARead "Are you sure you want to continue? (yes/no): "].
Proof.
  apply (rollback_unattended_aborts (invoke "20240101_000000") unattended staging live).
  - reflexivity.
  - discriminate.
  - discriminate.
  - by vm_compute.
  - reflexivity.
Defined.

Lemma first_deploy_failure_stays_live_witness :
  ∃ w', Deploy.deploy (invoke "") down fresh = (Exit 1, w')
        ∧ fs w' = fs (Deploy.stage (invoke "") down fresh).2
        ∧ current (fs w') = Some "/var/www/my-app/staging/releases/20240107_120000"
        ∧ toplevel (fs w') = toplevel (fs fresh)
        ∧ trace w' = trace (Deploy.stage (invoke "") down fresh).2
                     ++ five_attempts (HEALTH_CHECK_URL staging)
        ∧ "[WARN] Initiating rollback..." ∈ stdout w'.
Proof.
  apply (first_deploy_failure_stays_live (invoke "") down fresh staging
           (Deploy.stage (invoke "") down fresh).2).
  - apply run_next. by vm_compute.
  - by vm_compute.
  - by vm_compute.
  - reflexivity.
  - intros k _. by vm_compute.
Defined.

Lemma deploy_publishes_release_witness :
  ∃ w', Deploy.deploy (invoke "") second_try live = (Exit 0, w')
        ∧ current (fs w') = Some "/var/www/my-app/staging/releases/20240107_120000"
        ∧ has (releases (fs w')) "20240107_120000" = true
        ∧ current_resolves (REMOTE_PATH staging) (fs w') = true.
Proof.
  destruct (deploy_publishes_release (invoke "") second_try live staging
              (Deploy.stage (invoke "") second_try live).2 2)
    as (w' & Hrun & Hcur & Hkeep).
  - apply run_next. by vm_compute.
  - reflexivity.
  - unfold MAX_ATTEMPTS. lia.
  - intros j Hj. assert (j = 1) as -> by lia. by vm_compute.
  - reflexivity.
  - left. reflexivity.
  - exists w'. split; [exact Hrun|]. split; [exact Hcur|]. apply Hkeep.
    intros n t Hn. apply elem_of_list_to_map_2 in Hn.
    simpl in Hn. rewrite !elem_of_cons, elem_of_nil in Hn.
    destruct Hn as [[= -> ->]|[[= -> ->]|[[= -> ->]|[[= -> ->]|[[= -> ->]|[[= -> ->]|[]]]]]]];
      simpl; lia.
Defined.

Lemma failed_notification_fails_deploy_witness :
  ∃ w', Deploy.deploy notified slack_down live = (Exit 6, w')
        ∧ "[INFO] Deployment to staging completed successfully!" ∈ stdout w'.
Proof.
  destruct (failed_notification_fails_deploy notified slack_down live staging
              (Deploy.release notified slack_down live).2 6)
    as (w' & Hrun & _ & Hout & _).
  - apply run_next. by vm_compute.
  - discriminate.
  - reflexivity.
  - discriminate.
  - exists w'. split; [exact Hrun|exact Hout].
Defined.

Lemma no_switch_without_upload_witness :
  ∃ new, trace (Deploy.deploy (invoke "") rsync_fails live).2 = trace live ++ new
         ∧ (ALn (Deploy.RELEASE_DIR (invoke "") staging) (Deploy.CURRENT staging) ∈ new
            → upload_ok (invoke "") rsync_fails staging).
Proof.
  apply (no_switch_without_upload (invoke "") rsync_fails live staging). reflexivity.
Defined.

Lemma unknown_environment_rejected_witness :
  (∃ w', Deploy.deploy typo healthy live = (Exit 1, w')
         ∧ fs w' = fs live ∧ timeline w' = timeline live
         ∧ stdout w' = ["[ERROR] Invalid environment: prod";
                        "Usage: $0 {staging|production}"])
  ∧ (∃ w', Rollback.rollback typo healthy live = (Exit 1, w')
         ∧ fs w' = fs live ∧ timeline w' = timeline live
         ∧ stdout w' = ["[ERROR] Invalid environment: prod";
                        "Usage: $0 {staging|production} [release_version]"]).
Proof.
  apply (unknown_environment_rejected typo healthy live); simpl; discriminate.
Defined.

Lemma missing_host_rejected_witness :
  (∃ w', Deploy.deploy no_host healthy live = (Exit 1, w')
         ∧ fs w' = fs live ∧ timeline w' = timeline live
         ∧ stdout w' = ["[ERROR] REMOTE_HOST is not set for environment: production"])
  ∧ (∃ w', Rollback.rollback no_host healthy live = (Exit 1, w')
         ∧ fs w' = fs live ∧ timeline w' = timeline live
         ∧ stdout w' = ["[ERROR] REMOTE_HOST is not set"]).
Proof.
  apply (missing_host_rejected no_host healthy live
           (Settings "" "/var/www/my-app/production" "my-app-production"
                     "https://example.com/health")); reflexivity.
Defined.

Lemma rollback_without_target_lists_witness :
  ∃ w', Rollback.rollback (invoke "") healthy live = (Exit 1, w')
        ∧ fs w' = fs live
        ∧ stdout w'
          = ["[WARN] =========================================";
             "[WARN] ROLLBACK INITIATED FOR: staging";
             "[WARN] =========================================";
             "[INFO] Available releases:";
             "20240106_000000"; "20240105_000000"; "20240104_000000";
             "20240103_000000"; "20240102_000000"; "20240101_000000";
             "[INFO] "; "[INFO] Available backups:";
             "backup_20240106_000000"; "backup_20240105_000000";
             "backup_20240104_000000"; "backup_20240103_000000";
             ""; "[ERROR] Please specify a release version or backup to rollback to:";
             "Usage: $0 staging <release_version|backup_YYYYMMDD_HHMMSS>"].
Proof.
  destruct (rollback_without_target_lists (invoke "") healthy live staging)
    as [(w' & Hrun & Hfs & _ & Hout) _]; [reflexivity|discriminate|reflexivity|].
  exists w'. split; [exact Hrun|]. split; [exact Hfs|].
  rewrite Hout. vm_compute. reflexivity.
Defined.

Lemma formatUptime_splits_whole_seconds_witness :
  Detailed.formatUptime (187569 # 2) = "1d 2h 3m 4s"
  ∧ (Detailed.days (Detailed.split (187569 # 2)) * 86400
     + Detailed.hours (Detailed.split (187569 # 2)) * 3600
     + Detailed.minutes (Detailed.split (187569 # 2)) * 60
     + Detailed.secs (Detailed.split (187569 # 2)) = 93784)%Z.
Proof.
  split; [by vm_compute|].
  apply (formatUptime_splits_whole_seconds (187569 # 2)). by vm_compute.
Defined.

Lemma health_probes_always_pass_witness :
  Health.router probe_ready node
  = Some (Health.Response 200 (Health.JObject [("ready", Health.JBool true)]))
  ∧ curl_f (Responded 200) = 0.
Proof.
  split; [reflexivity|].
  apply (health_probes_always_pass probe_ready node
           (Health.Response 200 (Health.JObject [("ready", Health.JBool true)]))).
  reflexivity.
Defined.


Lemma setup_completed_leaves_configs_witness :
  ∃ line PLATFORM_CHOICE,
    Setup.answer (Setup.obliging " 3 ") = Some line
    ∧ read_value line = Some PLATFORM_CHOICE
    ∧ PLATFORM_CHOICE ∈ ["1"; "2"; "3"; "4"; "5"]
    ∧ Forall (λ p, Setup.is_file
                     (Setup.files (Setup.setup (Setup.obliging " 3 ")
                                     Setup.empty_project).2) p = true)
             (Setup.platform_file PLATFORM_CHOICE ++ Setup.common_files)
    ∧ Forall (λ d, Setup.is_dir
                     (Setup.files (Setup.setup (Setup.obliging " 3 ")
                                     Setup.empty_project).2) d = true)
             Setup.directories.
Proof.
  apply (setup_completed_leaves_configs (Setup.obliging " 3 ") Setup.empty_project
           (Setup.setup (Setup.obliging " 3 ") Setup.empty_project).2 0).
  by vm_compute.
Defined.

Lemma setup_rejects_invalid_choice_witness :
  ∃ n w', Setup.setup (Setup.obliging "7") Setup.project = (Exit n, w')
    ∧ n ≠ 0
    ∧ Setup.same_files (Setup.files Setup.project) (Setup.files w')
    ∧ (n = 1 ∧ last (Setup.stdout w') = Some "Invalid choice"
       ∧ Forall (λ d, Setup.is_dir (Setup.files w') d = true) Setup.directories
       ∨ last (Setup.stdout w') = Some "Creating directory structure...").
Proof.
  apply (setup_rejects_invalid_choice (Setup.obliging "7") Setup.project "7" "7").
  - reflexivity.
  - by vm_compute.
  - set_solver.
Defined.

Lemma live_releases_past n t : releases (fs live) !! n = Some t → t < clock live.
Proof.
  intros Hn. apply elem_of_list_to_map_2 in Hn.
  simpl in Hn. rewrite !elem_of_cons, elem_of_nil in Hn.
  destruct Hn as [[= -> ->]|[[= -> ->]|[[= -> ->]|[[= -> ->]|[[= -> ->]|[[= -> ->]|[]]]]]]];
    simpl; lia.
Qed.

Lemma current_stays_resolved_witness :
  steady (REMOTE_PATH staging) (trees_since live (Deploy.deploy (invoke "") down live).2)
  ∧ steady (REMOTE_PATH staging)
      (trees_since live (Rollback.rollback (invoke "20240101_000000") slow_start live).2)
  ∧ extends (REMOTE_PATH staging) (timeline live)
            (timeline (Deploy.deploy (invoke "") down live).2)
  ∧ (∃ w', Deploy.deploy unbuilt healthy live = (Exit 1, w')
           ∧ fs w' = fs live ∧ timeline w' = timeline live)
  ∧ (∃ w', Rollback.rollback (invoke "20231231_000000") healthy live = (Exit 1, w')
           ∧ fs w' = fs live ∧ timeline w' = timeline live).
Proof.
  split; [|split; [|split; [|split]]].
  - apply (proj1 (current_stays_resolved (invoke "") down live) staging eq_refl).
    + reflexivity.
    + apply live_releases_past.
  - apply (proj1 (proj2 (current_stays_resolved (invoke "20240101_000000")
                           slow_start live)) staging eq_refl).
  - apply (proj1 (proj2 (proj2 (current_stays_resolved (invoke "") down live)))
                 staging eq_refl).
  - apply (proj1 (proj2 (proj2 (proj2 (current_stays_resolved unbuilt healthy live))))).
    reflexivity.
  - apply (proj2 (proj2 (proj2 (proj2 (current_stays_resolved (invoke "20231231_000000")
                                         healthy live))))).
    + discriminate.
    + intros s Hs. vm_compute in Hs. injection Hs as <-. by vm_compute.
Defined.

Lemma confirmation_is_read_not_typed_witness :
  read_value " yes " = Some "yes"
  ∧ ∃ w2, Rollback.rollback (invoke "20240101_000000") padded live
          = Rollback.execute (invoke "20240101_000000") padded staging w2
          ∧ fs w2 = fs live
          ∧ trace w2 = trace live ++ [ARead "Are you sure you want to continue? (yes/no): "].
Proof.
  split; [by vm_compute|].
  apply (confirmation_is_read_not_typed (invoke "20240101_000000") padded staging live
           " yes ").
  - reflexivity.
  - discriminate.
  - discriminate.
  - by vm_compute.
  - reflexivity.
  - by vm_compute.
Defined.

